(** * Media ingestion and archive export of the event photo server

    A shallow embedding of [server.js]: the upload transaction
    ([POST /api/e/:eventId/upload]), the metadata store of both backends
    ([readLocalDb], [insertUploadRecords], [listUploadsForEvent]) and the
    archive exporter ([appendLocalUploadsToArchive],
    [appendSupabaseUploadsToArchive], [buildArchiveEntryName],
    [sanitizeArchiveName]).

    JavaScript strings are sequences of UTF-16 code units, here [list N].
    Functions of the Node runtime the server calls ([path.extname],
    [path.basename], [path.join], [String.prototype.padStart], ...) are
    modelled next to the server code that uses them. *)

From Stdlib Require Import ZArith NArith List String Ascii Lia.
From Stdlib Require Import DecimalNat DecimalN.
From stdpp Require Import base decidable option list gmap.

Local Open Scope N_scope.

(** ** JavaScript values *)

Module JS.

(** A string is the list of its UTF-16 code units. *)
Abbreviation jsstring := (list N).

(** A string literal of the source (ASCII only). *)
Fixpoint lit (s : string) : jsstring :=
  match s with
  | EmptyString => []
  | String a r => N_of_ascii a :: lit r
  end.

Definition CHAR_DOT : N := 46.
Definition CHAR_FORWARD_SLASH : N := 47.
Definition CHAR_DASH : N := 45.
Definition CHAR_ZERO : N := 48.

(** The values [typeof] tells apart; an object or function carries the
    text [String(v)] renders it with. *)
Inductive jsval :=
| JSUndefined
| JSNull
| JSBoolean (b : bool)
| JSNumber (z : Z)
| JSString (s : jsstring)
| JSObject (rendering : jsstring).

(** [a || b] on an optional string: an absent or empty string is falsy. *)
Definition or_else (a : option jsstring) (b : jsstring) : jsstring :=
  match a with
  | Some (c :: s) => c :: s
  | _ => b
  end.

(** [s.startsWith(p)] *)
Fixpoint startsWith (p s : jsstring) : bool :=
  match p, s with
  | [], _ => true
  | _ :: _, [] => false
  | a :: p', b :: s' => (a =? b) && startsWith p' s'
  end.

Fixpoint uint_codes (d : Decimal.uint) : jsstring :=
  match d with
  | Decimal.Nil => []
  | Decimal.D0 d => 48 :: uint_codes d
  | Decimal.D1 d => 49 :: uint_codes d
  | Decimal.D2 d => 50 :: uint_codes d
  | Decimal.D3 d => 51 :: uint_codes d
  | Decimal.D4 d => 52 :: uint_codes d
  | Decimal.D5 d => 53 :: uint_codes d
  | Decimal.D6 d => 54 :: uint_codes d
  | Decimal.D7 d => 55 :: uint_codes d
  | Decimal.D8 d => 56 :: uint_codes d
  | Decimal.D9 d => 57 :: uint_codes d
  end.

(** [String(n)] for a non-negative integer. *)
Definition string_of_nat (n : nat) : jsstring := uint_codes (Nat.to_uint n).
Definition string_of_N (n : N) : jsstring := uint_codes (N.to_uint n).

Fixpoint pad_fill (n : nat) (fill rest : jsstring) : jsstring :=
  match n with
  | O => []
  | S n' =>
      match rest with
      | c :: r => c :: pad_fill n' fill r
      | [] =>
          match fill with
          | c :: r => c :: pad_fill n' fill r
          | [] => []
          end
      end
  end.

(** [s.padStart(target, fill)] *)
Definition padStart (target : nat) (fill s : jsstring) : jsstring :=
  pad_fill (target - length s) fill fill ++ s.

(** [s.slice(a, b)] for [0 <= a], [0 <= b]. *)
Definition slice (a b : nat) (s : jsstring) : jsstring :=
  take (b - a) (drop a s).

Definition is_digit (c : N) : bool := (48 <=? c) && (c <=? 57).

(** The first [n] elements of [l], for a binary [n]. *)
Fixpoint take_N {A} (n : N) (l : list A) : list A :=
  match l with
  | [] => []
  | x :: r => if n =? 0 then [] else x :: take_N (n - 1) r
  end.

End JS.
Import JS.

(** ** The [path] module of Node (POSIX flavour) *)

Module Path.

(** The loop variables of [path.extname]; [-1] is the "unset" marker of
    the original. *)
Record ext_state := {
  startDot : Z;
  startPart : Z;
  end_ : Z;
  matchedSlash : bool;
  preDotState : Z
}.

Definition ext_init : ext_state :=
  {| startDot := -1; startPart := 0; end_ := -1;
     matchedSlash := true; preDotState := 0 |}.

(** One run of [for (let i = path.length - 1; i >= 0; --i)], over the
    code units from the last one down; [i] is the index of the head. *)
Fixpoint extname_loop (rpath : jsstring) (i : Z) (st : ext_state) : ext_state :=
  match rpath with
  | [] => st
  | code :: rest =>
      if code =? CHAR_FORWARD_SLASH then
        if negb (matchedSlash st) then
          {| startDot := startDot st; startPart := i + 1; end_ := end_ st;
             matchedSlash := matchedSlash st; preDotState := preDotState st |}
        else extname_loop rest (i - 1) st
      else
        let st1 :=
          if (end_ st =? -1)%Z then
            {| startDot := startDot st; startPart := startPart st;
               end_ := i + 1; matchedSlash := false;
               preDotState := preDotState st |}
          else st in
        let st2 :=
          if code =? CHAR_DOT then
            if (startDot st1 =? -1)%Z then
              {| startDot := i; startPart := startPart st1; end_ := end_ st1;
                 matchedSlash := matchedSlash st1;
                 preDotState := preDotState st1 |}
            else if negb (preDotState st1 =? 1)%Z then
              {| startDot := startDot st1; startPart := startPart st1;
                 end_ := end_ st1; matchedSlash := matchedSlash st1;
                 preDotState := 1 |}
            else st1
          else if negb (startDot st1 =? -1)%Z then
            {| startDot := startDot st1; startPart := startPart st1;
               end_ := end_ st1; matchedSlash := matchedSlash st1;
               preDotState := -1 |}
          else st1 in
        extname_loop rest (i - 1) st2
  end.

(** [path.extname(path)] *)
Definition extname (path : jsstring) : jsstring :=
  let st := extname_loop (rev path) (Z.of_nat (length path) - 1) ext_init in
  if (startDot st =? -1)%Z
     || (end_ st =? -1)%Z
     || (preDotState st =? 0)%Z
     || ((preDotState st =? 1)%Z
         && (startDot st =? end_ st - 1)%Z
         && (startDot st =? startPart st + 1)%Z)
  then []
  else slice (Z.to_nat (startDot st)) (Z.to_nat (end_ st)) path.

Record base_state := {
  b_start : Z;
  b_end : Z;
  b_matchedSlash : bool
}.

Fixpoint basename_loop (rpath : jsstring) (i : Z) (st : base_state) : base_state :=
  match rpath with
  | [] => st
  | code :: rest =>
      if code =? CHAR_FORWARD_SLASH then
        if negb (b_matchedSlash st) then
          {| b_start := i + 1; b_end := b_end st;
             b_matchedSlash := b_matchedSlash st |}
        else basename_loop rest (i - 1) st
      else if (b_end st =? -1)%Z then
        basename_loop rest (i - 1)
          {| b_start := b_start st; b_end := i + 1; b_matchedSlash := false |}
      else basename_loop rest (i - 1) st
  end.

(** [path.basename(path)] *)
Definition basename (path : jsstring) : jsstring :=
  let st := basename_loop (rev path) (Z.of_nat (length path) - 1)
              {| b_start := 0; b_end := -1; b_matchedSlash := true |} in
  if (b_end st =? -1)%Z then []
  else slice (Z.to_nat (b_start st)) (Z.to_nat (b_end st)) path.

(** The segments between the separators of a path. *)
Fixpoint split_segments (cur : jsstring) (s : jsstring) : list jsstring :=
  match s with
  | [] => [rev cur]
  | c :: r =>
      if c =? CHAR_FORWARD_SLASH then rev cur :: split_segments [] r
      else split_segments (c :: cur) r
  end.

Definition dotdot : jsstring := [CHAR_DOT; CHAR_DOT].

(** [normalizeString]: the kept segments, the last one first. *)
Fixpoint normalize_segments (allowAboveRoot : bool) (acc : list jsstring)
    (segs : list jsstring) : list jsstring :=
  match segs with
  | [] => acc
  | seg :: rest =>
      if bool_decide (seg = []) || bool_decide (seg = [CHAR_DOT]) then
        normalize_segments allowAboveRoot acc rest
      else if bool_decide (seg = dotdot) then
        match acc with
        | top :: acc' =>
            if negb (bool_decide (top = dotdot))
            then normalize_segments allowAboveRoot acc' rest
            else if allowAboveRoot
            then normalize_segments allowAboveRoot (dotdot :: acc) rest
            else normalize_segments allowAboveRoot acc rest
        | [] =>
            if allowAboveRoot
            then normalize_segments allowAboveRoot [dotdot] rest
            else normalize_segments allowAboveRoot [] rest
        end
      else normalize_segments allowAboveRoot (seg :: acc) rest
  end.

Fixpoint join_with_slash (segs : list jsstring) : jsstring :=
  match segs with
  | [] => []
  | [seg] => seg
  | seg :: rest => seg ++ CHAR_FORWARD_SLASH :: join_with_slash rest
  end.

(** [path.normalize(path)] *)
Definition normalize (path : jsstring) : jsstring :=
  match path with
  | [] => [CHAR_DOT]
  | first :: _ =>
      let isAbsolute := first =? CHAR_FORWARD_SLASH in
      let trailingSeparator :=
        match last path with
        | Some c => c =? CHAR_FORWARD_SLASH
        | None => false
        end in
      let body :=
        join_with_slash
          (rev (normalize_segments (negb isAbsolute) [] (split_segments [] path))) in
      match body with
      | [] =>
          if isAbsolute then [CHAR_FORWARD_SLASH]
          else if trailingSeparator then [CHAR_DOT; CHAR_FORWARD_SLASH]
          else [CHAR_DOT]
      | _ =>
          let body' :=
            if trailingSeparator then body ++ [CHAR_FORWARD_SLASH] else body in
          if isAbsolute then CHAR_FORWARD_SLASH :: body' else body'
      end
  end.

(** [path.join(...args)] *)
Definition join (args : list jsstring) : jsstring :=
  match List.filter (fun a => negb (bool_decide (a = []))) args with
  | [] => [CHAR_DOT]
  | parts => normalize (join_with_slash parts)
  end.

End Path.


(** ** The host runtime

    Two operations of the JavaScript engine depend on Unicode tables that
    are not part of the server: NFKD normalisation and locale-aware
    comparison.  The server is verified against every engine; the only fact
    used about NFKD is that it leaves ASCII text unchanged. *)

Definition is_ascii (c : N) : bool := c <=? 127.

Class Runtime := {
  normalizeNFKD : jsstring -> jsstring;
  localeCompare : jsstring -> jsstring -> Z;
  normalizeNFKD_ascii :
    forall s, forallb is_ascii s = true -> normalizeNFKD s = s
}.

Fixpoint compare_units (a b : jsstring) : Z :=
  match a, b with
  | [], [] => 0
  | [], _ :: _ => -1
  | _ :: _, [] => 1
  | x :: a', y :: b' =>
      if (x <? y)%N then -1 else if (y <? x)%N then 1 else compare_units a' b'
  end%Z.

(** An engine restricted to ASCII file names and ISO timestamps, on which
    NFKD is the identity and collation order is code-unit order. *)
Definition ascii_runtime : Runtime :=
  {| normalizeNFKD := fun s => s;
     localeCompare := compare_units;
     normalizeNFKD_ascii := fun s _ => eq_refl |}.

(** ** Data model *)

(** An upload record as the metadata store holds it.  [storedName] is the
    field older versions wrote instead of [storagePath]; an optional field
    is absent ([undefined]) or a string. *)
Record upload := mkUpload {
  up_id : jsstring;
  eventId : jsstring;
  guestName : jsstring;
  originalName : option jsstring;
  storagePath : option jsstring;
  storedName : option jsstring;
  mimeType : option jsstring;
  byteSize : N;
  uploadedAt : jsstring
}.

Record event := mkEvent {
  ev_id : jsstring;
  eventName : jsstring;
  eventDate : jsstring;
  ownerName : jsstring;
  adminToken : jsstring;
  createdAt : jsstring
}.

(** ** Archive entry names *)

Section ArchiveNames.
Context `{Runtime}.

(** The character class [[a-zA-Z0-9._-]]. *)
Definition is_safe_char (c : N) : bool :=
  ((97 <=? c) && (c <=? 122))
  || ((65 <=? c) && (c <=? 90))
  || ((48 <=? c) && (c <=? 57))
  || (c =? 46) || (c =? 95) || (c =? 45).

(** [.replace(/[^\x00-\x7F]/g, '')] *)
Definition strip_non_ascii (s : jsstring) : jsstring :=
  List.filter is_ascii s.

(** [.replace(/[^a-zA-Z0-9._-]+/g, "-")]; [in_run] tells that the
    previous code unit belonged to the match being replaced. *)
Fixpoint replace_unsafe_runs (in_run : bool) (s : jsstring) : jsstring :=
  match s with
  | [] => []
  | c :: r =>
      if is_safe_char c then c :: replace_unsafe_runs false r
      else if in_run then replace_unsafe_runs true r
      else CHAR_DASH :: replace_unsafe_runs true r
  end.

(** [.replace(/-+/g, "-")] *)
Fixpoint collapse_dashes (in_run : bool) (s : jsstring) : jsstring :=
  match s with
  | [] => []
  | c :: r =>
      if c =? CHAR_DASH then
        if in_run then collapse_dashes true r
        else CHAR_DASH :: collapse_dashes true r
      else c :: collapse_dashes false r
  end.

Definition strip_leading_dash (s : jsstring) : jsstring :=
  match s with
  | c :: r => if c =? CHAR_DASH then r else s
  | [] => []
  end.

Fixpoint strip_trailing_dash (s : jsstring) : jsstring :=
  match s with
  | [] => []
  | [c] => if c =? CHAR_DASH then [] else [c]
  | c :: r => c :: strip_trailing_dash r
  end.

(** [.replace(/^-|-$/g, '')]: the first alternative can match only at
    index 0, the second only at the last code unit of what follows. *)
Definition trim_dashes (s : jsstring) : jsstring :=
  strip_trailing_dash (strip_leading_dash s).

Definition placeholder : jsstring := lit "arsiv".

Definition sanitizeArchiveName (value : jsval) : jsstring :=
  match value with
  | JSString value =>
      let safe :=
        take 80
          (trim_dashes
             (collapse_dashes false
                (replace_unsafe_runs false
                   (strip_non_ascii (normalizeNFKD value))))) in
      match safe with
      | [] => placeholder
      | _ => safe
      end
  | _ => placeholder
  end.

(** The own properties of the [extensions] object literal. *)
Definition extensions : list (jsstring * jsstring) :=
  [ (lit "image/jpeg", lit ".jpg");
    (lit "image/png", lit ".png");
    (lit "image/webp", lit ".webp");
    (lit "image/heic", lit ".heic");
    (lit "image/heif", lit ".heif");
    (lit "image/gif", lit ".gif");
    (lit "video/mp4", lit ".mp4");
    (lit "video/quicktime", lit ".mov");
    (lit "video/webm", lit ".webm") ].

Fixpoint own_property (table : list (jsstring * jsstring)) (key : jsstring)
    : option jsstring :=
  match table with
  | [] => None
  | (k, v) :: rest =>
      if bool_decide (k = key) then Some v else own_property rest key
  end.

Definition native_function (name : jsstring) : jsval :=
  JSObject (lit "function " ++ name ++ lit "() { [native code] }").

(** What an object literal inherits from [Object.prototype]: a property
    read with such a key finds the inherited member. *)
Definition object_prototype_members : list (jsstring * jsval) :=
  [ (lit "constructor", native_function (lit "Object"));
    (lit "__defineGetter__", native_function (lit "__defineGetter__"));
    (lit "__defineSetter__", native_function (lit "__defineSetter__"));
    (lit "hasOwnProperty", native_function (lit "hasOwnProperty"));
    (lit "__lookupGetter__", native_function (lit "__lookupGetter__"));
    (lit "__lookupSetter__", native_function (lit "__lookupSetter__"));
    (lit "isPrototypeOf", native_function (lit "isPrototypeOf"));
    (lit "propertyIsEnumerable", native_function (lit "propertyIsEnumerable"));
    (lit "toString", native_function (lit "toString"));
    (lit "valueOf", native_function (lit "valueOf"));
    (lit "__proto__", JSObject (lit "[object Object]"));
    (lit "toLocaleString", native_function (lit "toLocaleString")) ].

Fixpoint inherited_property (table : list (jsstring * jsval)) (key : jsstring)
    : option jsval :=
  match table with
  | [] => None
  | (k, v) :: rest =>
      if bool_decide (k = key) then Some v else inherited_property rest key
  end.

(** [getExtensionFromMime(mimeType = '')]: [extensions[mimeType] || '']. *)
Definition getExtensionFromMime (mimeType : option jsstring) : jsval :=
  let key := default [] mimeType in
  match own_property extensions key with
  | Some ext => JSString ext
  | None =>
      match inherited_property object_prototype_members key with
      | Some member => member
      | None => JSString []
      end
  end.

(** The text a template literal substitutes for a value. *)
Definition to_string (v : jsval) : jsstring :=
  match v with
  | JSUndefined => lit "undefined"
  | JSNull => lit "null"
  | JSBoolean true => lit "true"
  | JSBoolean false => lit "false"
  | JSNumber z =>
      if (z <? 0)%Z then CHAR_DASH :: string_of_N (Z.to_N (- z))
      else string_of_N (Z.to_N z)
  | JSString s => s
  | JSObject rendering => rendering
  end.

Definition entry_prefix (index : nat) : jsstring :=
  padStart 3 (lit "0") (string_of_nat (index + 1)).

Definition buildArchiveEntryName (upload : upload) (index : nat) : jsstring :=
  let prefix := entry_prefix index in
  let originalName :=
    or_else (originalName upload)
            (Path.basename (or_else (storagePath upload) [])) in
  let safeName := sanitizeArchiveName (JSString originalName) in
  match Path.extname safeName with
  | _ :: _ => prefix ++ lit "-" ++ safeName
  | [] =>
      let fallbackExt :=
        match Path.extname (or_else (storagePath upload) []) with
        | [] => getExtensionFromMime (mimeType upload)
        | ext => JSString ext
        end in
      prefix ++ lit "-" ++ safeName ++ to_string fallbackExt
  end.

End ArchiveNames.

Definition sample_upload (name : string) (key : string) (mime : string) : upload :=
  {| up_id := lit "id"; eventId := lit "ab12cd"; guestName := [];
     originalName := Some (lit name); storagePath := Some (lit key);
     storedName := None; mimeType := Some (lit mime); byteSize := 1;
     uploadedAt := lit "2024-01-01T00:00:00.000Z" |}.

(** ** Predicates used to state the properties of entry names *)

(** [fileFilter]'s test on the declared content type. *)
Definition validType (mimetype : jsstring) : bool :=
  startsWith (lit "image/") mimetype || startsWith (lit "video/") mimetype.

(** Two dashes next to each other somewhere in [s]. *)
Fixpoint has_double_dash (s : jsstring) : bool :=
  match s with
  | a :: (b :: _) as r => ((a =? CHAR_DASH) && (b =? CHAR_DASH)) || has_double_dash r
  | _ => false
  end.

(** The value of a string of decimal digits. *)
Definition decimal_value (s : jsstring) : nat :=
  fold_left (fun acc c => 10 * acc + N.to_nat (c - CHAR_ZERO))%nat s 0%nat.

(** The extension [buildArchiveEntryName] is claimed to add to a sanitized
    name [safeName] for a record stored under [key] with content type
    [mime]: nothing when the name has an extension, else the key's
    extension, else the table's entry, else nothing. *)
Definition appended_extension (safeName key : jsstring) (mime : option jsstring)
    : jsstring :=
  match Path.extname safeName with
  | _ :: _ => []
  | [] =>
      match Path.extname key with
      | (_ :: _) as ext => ext
      | [] => default [] (own_property extensions (default [] mime))
      end
  end.

(** ** Errors, configuration and the two stores *)

(** A thrown or returned error value; [error instanceof Error] holds for
    the first kind only.  Both carry a [message] property. *)
Inductive thrown :=
| ErrorInstance (message : jsstring)
| PlainObject (message : jsstring).

Definition message (e : thrown) : jsstring :=
  match e with
  | ErrorInstance m => m
  | PlainObject m => m
  end.

(** The constants read from the environment when the process starts. *)
Record config := {
  USING_SUPABASE : bool;
  MAX_FILE_SIZE_MB : N;
  MAX_FILES_PER_REQUEST : nat;
  UPLOADS_DIR : jsstring
}.

(** The local metadata document [{ events, uploads }]. *)
Record db := mkDb {
  events : list event;
  uploads : list upload
}.

(** What [DB_FILE] holds: text that is not JSON (an empty file and a
    document that was cut short are of this kind), JSON without an
    [events] or [uploads] array, or a database.  [JSON.stringify]
    followed by [JSON.parse] is taken as the identity on databases. *)
Inductive file_content :=
| Unparseable
| NoArrays
| Stored (d : db).

(** Why [fs.writeFileSync(DB_FILE, ...)] fails, when it does: the message
    of the error it throws, and whether the file had been opened by then.
    The file is opened with flag [w], which creates it or empties it: a
    write that fails after that (a full disk) leaves the file empty or
    cut short, a failure to open it (no permission) leaves it as it
    was. *)
Record write_failure := {
  write_message : jsstring;
  file_opened : bool
}.

(** The local disk: the database file ([None] when it does not exist),
    the way [fs.writeFileSync(DB_FILE, ...)] fails if it does, and the
    regular files and the directories below [UPLOADS_DIR]. *)
Record local_fs := mkFs {
  db_file : option file_content;
  db_write_error : option write_failure;
  files : gmap jsstring (list N);
  directories : gset jsstring
}.

(** [fs.existsSync(path)] *)
Definition existsSync (fs : local_fs) (path : jsstring) : bool :=
  bool_decide (is_Some (files fs !! path)) || bool_decide (path ∈ directories fs).

(** A row of the remote [uploads] table (see the schema); a column the
    payload leaves [null] or [undefined] is [None]. *)
Record upload_row := mkRow {
  r_id : jsstring;
  event_id : jsstring;
  guest_name : option jsstring;
  original_name : option jsstring;
  storage_path : option jsstring;
  mime_type : option jsstring;
  r_size : N;
  uploaded_at : jsstring
}.

(** A row of the remote [events] table (see the schema): [event_date]
    and [owner_name] may be [null]; [created_at] is kept as the text it
    was stored from. *)
Record event_row := mkEventRow {
  e_id : jsstring;
  event_name : jsstring;
  event_date : option jsstring;
  owner_name : option jsstring;
  admin_token : jsstring;
  created_at : jsstring
}.

Record stored_object := mkObject {
  contentType : jsstring;
  body : list N
}.

(** The remote project: the two tables, the bucket [SUPABASE_BUCKET],
    and the text under which a select returns a [timestamptz] column
    that was stored from a given text (it depends on the time zone the
    database is set to, and is in general not the text that was
    stored). *)
Record supabase_state := mkSupabase {
  sb_events : list event_row;
  sb_uploads : list upload_row;
  sb_bucket : gmap jsstring stored_object;
  sb_timestamptz : jsstring -> jsstring
}.

(** An effect on binary storage, in the order it happened. *)
Inductive storage_event :=
| Wrote (key : jsstring)
| Removed (key : jsstring)
| RemoveFailed (key : jsstring).

Record world := mkWorld {
  disk : local_fs;
  cloud : supabase_state;
  log : list storage_event
}.

(** How the remote service answers the calls of one request: the error
    (if any) each call reports.  The service itself is not part of the
    server; every theorem holds for every such behaviour. *)
Record supabase_faults := {
  select_event_error : option thrown;
  select_uploads_error : option thrown;
  storage_upload_error : jsstring -> option thrown;
  insert_uploads_error : option thrown;
  storage_remove_fails : jsstring -> bool
}.

Definition no_faults : supabase_faults :=
  {| select_event_error := None;
     select_uploads_error := None;
     storage_upload_error := fun _ => None;
     insert_uploads_error := None;
     storage_remove_fails := fun _ => false |}.

(** ** Computations that read and write the world and may throw *)

Definition M (A : Type) : Type := world -> (thrown + A) * world.

Definition ret {A} (a : A) : M A := fun w => (inr a, w).
Definition throw {A} (e : thrown) : M A := fun w => (inl e, w).
Definition bind {A B} (m : M A) (k : A -> M B) : M B :=
  fun w =>
    match m w with
    | (inl e, w') => (inl e, w')
    | (inr a, w') => k a w'
    end.
Definition try_catch {A} (m : M A) (handler : thrown -> M A) : M A :=
  fun w =>
    match m w with
    | (inl e, w') => handler e w'
    | (inr a, w') => (inr a, w')
    end.

Notation "'let!' x := m 'in' k" := (bind m (fun x => k))
  (at level 10, x name, m at level 100, k at level 200).
Notation "'do!' m 'in' k" := (bind m (fun _ => k))
  (at level 10, m at level 100, k at level 200).

(** ** Generated identifiers *)

Definition hex_digit (n : N) : N :=
  nth (N.to_nat (n mod 16)) (lit "0123456789abcdef") CHAR_ZERO.

(** The 32 hexadecimal digits of a version-4 UUID drawn from 128 random
    bits: digit 12 is the version, digit 16 carries the variant. *)
Definition uuid_nibble (bits : N) (k : nat) : N :=
  let raw := (bits / 16 ^ N.of_nat (31 - k)) mod 16 in
  if Nat.eqb k 12 then 4
  else if Nat.eqb k 16 then 8 + raw mod 4
  else raw.

Definition uuid_hex (bits : N) (from count : nat) : jsstring :=
  map (fun k => hex_digit (uuid_nibble bits k)) (seq from count).

(** [crypto.randomUUID()] for the random bits [bits]. *)
Definition randomUUID (bits : N) : jsstring :=
  uuid_hex bits 0 8 ++ lit "-" ++ uuid_hex bits 8 4 ++ lit "-"
    ++ uuid_hex bits 12 4 ++ lit "-" ++ uuid_hex bits 16 4 ++ lit "-"
    ++ uuid_hex bits 20 12.

(** What one file of a request draws from the clock and the random
    source: [Date.now()] and the UUID of its storage key, and the UUID of
    its record. *)
Record entropy := {
  now : N;
  key_bits : N;
  id_bits : N
}.

(** The generated storage name: [`${Date.now()}-${crypto.randomUUID()}${ext}`]
    with [ext = path.extname(file.originalname || '')]. *)
Definition generated_name (rnd : entropy) (originalname : jsstring) : jsstring :=
  let ext := Path.extname originalname in
  string_of_N (now rnd) ++ lit "-" ++ randomUUID (key_bits rnd) ++ ext.

(** ** Sorting

    [Array.prototype.sort] with a comparator, as a stable insertion sort:
    for a comparator that is a total preorder this is the order every
    stable sort produces. *)

Fixpoint insert_by {A} (cmp : A -> A -> Z) (x : A) (l : list A) : list A :=
  match l with
  | [] => [x]
  | y :: r => if (cmp x y <=? 0)%Z then x :: y :: r else y :: insert_by cmp x r
  end.

Definition sort_by {A} (cmp : A -> A -> Z) (l : list A) : list A :=
  fold_right (insert_by cmp) [] l.

(** ** The metadata store *)

Section MetadataStore.
Context `{Runtime} (cfg : config) (net : supabase_faults).

Definition emptyDb : db := {| events := []; uploads := [] |}.

Definition writeLocalDb (d : db) : M unit :=
  fun w =>
    match db_write_error (disk w) with
    | Some failure =>
        (inl (ErrorInstance (write_message failure)),
         if file_opened failure then
           {| disk := {| db_file := Some Unparseable;
                         db_write_error := db_write_error (disk w);
                         files := files (disk w);
                         directories := directories (disk w) |};
              cloud := cloud w; log := log w |}
         else w)
    | None =>
        (inr tt,
         {| disk := {| db_file := Some (Stored d);
                       db_write_error := db_write_error (disk w);
                       files := files (disk w);
                       directories := directories (disk w) |};
            cloud := cloud w; log := log w |})
    end.

(** The [try] block of [readLocalDb]: reading, parsing and the check for
    the two arrays each throw on failure. *)
Definition parseDbFile : M db :=
  fun w =>
    match db_file (disk w) with
    | None => (inl (ErrorInstance (lit "ENOENT: no such file or directory")), w)
    | Some Unparseable => (inl (ErrorInstance (lit "Unexpected token")), w)
    | Some NoArrays => (inl (ErrorInstance (lit "Bozuk db")), w)
    | Some (Stored d) => (inr d, w)
    end.

Definition readLocalDb : M db :=
  try_catch parseDbFile
    (fun _ =>
       let fallback := emptyDb in
       do! writeLocalDb fallback in
       ret fallback).

(** The row [createEventRecord] inserts for an event:
    [eventDate || null], [ownerName || null]. *)
Definition to_event_row (event : event) : event_row :=
  {| e_id := ev_id event;
     event_name := eventName event;
     event_date := match eventDate event with [] => None | d => Some d end;
     owner_name := match ownerName event with [] => None | o => Some o end;
     admin_token := adminToken event;
     created_at := createdAt event |}.

(** The record [findEventById] builds from a selected row:
    [data.event_date || ''], [data.owner_name || '']; [timestamptz] is
    how the service returns [created_at]. *)
Definition of_event_row (timestamptz : jsstring -> jsstring) (data : event_row)
    : event :=
  {| ev_id := e_id data;
     eventName := event_name data;
     eventDate := or_else (event_date data) [];
     ownerName := or_else (owner_name data) [];
     adminToken := admin_token data;
     createdAt := timestamptz (created_at data) |}.

Definition findEventById (eventId : jsstring) : M (option event) :=
  if USING_SUPABASE cfg then
    fun w =>
      match select_event_error net with
      | Some error => (inl error, w)
      | None =>
          match List.find (fun row => bool_decide (e_id row = eventId))
                          (sb_events (cloud w)) with
          | None => (inr None, w)
          | Some data =>
              (inr (Some (of_event_row (sb_timestamptz (cloud w)) data)), w)
          end
      end
  else
    let! db := readLocalDb in
    ret (List.find (fun event => bool_decide (ev_id event = eventId)) (events db)).

(** One element of the [payload] of [insertUploadRecords];
    [item.guestName || null]. *)
Definition to_row (item : upload) : upload_row :=
  {| r_id := up_id item;
     event_id := eventId item;
     guest_name := match guestName item with [] => None | g => Some g end;
     original_name := originalName item;
     storage_path := storagePath item;
     mime_type := mimeType item;
     r_size := byteSize item;
     uploaded_at := uploadedAt item |}.

Definition insertUploadRecords (records : list upload) : M unit :=
  match records with
  | [] => ret tt
  | _ =>
      if USING_SUPABASE cfg then
        let payload := map to_row records in
        fun w =>
          match insert_uploads_error net with
          | Some error => (inl error, w)
          | None =>
              (inr tt,
               {| disk := disk w;
                  cloud := {| sb_events := sb_events (cloud w);
                              sb_uploads := sb_uploads (cloud w) ++ payload;
                              sb_bucket := sb_bucket (cloud w);
                              sb_timestamptz := sb_timestamptz (cloud w) |};
                  log := log w |})
          end
      else
        let! db := readLocalDb in
        writeLocalDb {| events := events db; uploads := uploads db ++ records |}
  end.

(** The record [listUploadsForEvent] builds from a selected row:
    [item.guest_name || '']; [timestamptz] is how the service returns
    [uploaded_at]. *)
Definition of_row (timestamptz : jsstring -> jsstring) (item : upload_row) : upload :=
  {| up_id := r_id item;
     eventId := event_id item;
     guestName := or_else (guest_name item) [];
     originalName := original_name item;
     storagePath := storage_path item;
     storedName := None;
     mimeType := mime_type item;
     byteSize := r_size item;
     uploadedAt := timestamptz (uploaded_at item) |}.

(** [{ ...item, storagePath: item.storagePath || item.storedName || '' }] *)
Definition with_storagePath (item : upload) : upload :=
  {| up_id := up_id item;
     eventId := eventId item;
     guestName := guestName item;
     originalName := originalName item;
     storagePath :=
       Some (or_else (storagePath item) (or_else (storedName item) []));
     storedName := storedName item;
     mimeType := mimeType item;
     byteSize := byteSize item;
     uploadedAt := uploadedAt item |}.

(** [.order("uploaded_at", { ascending: false })]: the service sorts the
    selected rows, newest first. *)
Definition order_newest_first (rows : list upload_row) : list upload_row :=
  sort_by (fun a b => compare_units (uploaded_at b) (uploaded_at a)) rows.

Definition listUploadsForEvent (eventId' : jsstring) : M (list upload) :=
  if USING_SUPABASE cfg then
    fun w =>
      match select_uploads_error net with
      | Some error => (inl error, w)
      | None =>
          let data :=
            order_newest_first
              (List.filter (fun row => bool_decide (event_id row = eventId'))
                           (sb_uploads (cloud w))) in
          (inr (map (of_row (sb_timestamptz (cloud w))) data), w)
      end
  else
    let! db := readLocalDb in
    ret (sort_by (fun a b => localeCompare (uploadedAt b) (uploadedAt a))
           (map with_storagePath
              (List.filter (fun item => bool_decide (eventId item = eventId'))
                           (uploads db)))).

End MetadataStore.

(** ** The multipart middleware (multer)

    The server hands multer a file filter, two limits and a storage
    engine.  multer takes the files of the request one by one in arrival
    order: the count limit, then [fileFilter], then the engine's
    [_handleFile], which is given the bytes up to the size limit; a file
    that reaches the size limit is refused.  At the first refusal multer
    removes, through the engine's [_removeFile], the files the engine has
    stored for the request by then and passes the error to the callback.
    The parser is not stopped at that moment: the parts that follow are
    still handed to the middleware until it is detached from the request,
    and the files stored for them after the removal has begun are left
    where they are. *)

(** A file of the multipart body as the client sent it. *)
Record incoming := {
  in_originalname : jsstring;
  in_mimetype : jsstring;
  in_data : list N
}.

(** multer's file object: [filename] is set by the disk engine, [buffer]
    by the memory engine. *)
Record multer_file := {
  originalname : jsstring;
  mimetype : jsstring;
  fsize : N;
  filename : option jsstring;
  fpath : option jsstring;
  buffer : option (list N)
}.

Record StorageEngine := {
  _handleFile : jsstring -> entropy -> incoming -> list N -> M multer_file;
  _removeFile : multer_file -> M unit
}.

Inductive response_body :=
| JsonError (error : jsstring)
| JsonUploaded (uploadedCount : nat).

Record response := {
  status : nat;
  json : response_body
}.

(** How far the parser gets once a part was refused; it depends on the
    way the body arrives and on when the writes end.  Of the parts that
    follow the refused one, the first [late_handled] are still handed to
    the middleware; the first [late_removed] of these are stored before
    the removal begins, and are removed with the rest. *)
Record late_parts := {
  late_handled : nat;
  late_removed : nat
}.

Record upload_request := {
  param_eventId : jsstring;
  body_guestName : jsval;
  body_files : list incoming;
  body_late : late_parts
}.

Section Upload.
Context `{Runtime} (cfg : config) (net : supabase_faults).

Definition fileFilter (mimetype : jsstring) : option thrown :=
  if negb (validType mimetype)
  then Some (ErrorInstance (lit "Sadece foto veya video yuklenebilir."))
  else None.

Definition write_file (path : jsstring) (data : list N) : M unit :=
  fun w =>
    (inr tt,
     {| disk := {| db_file := db_file (disk w);
                   db_write_error := db_write_error (disk w);
                   files := <[path := data]> (files (disk w));
                   directories := directories (disk w) |};
        cloud := cloud w; log := log w ++ [Wrote path] |}).

Definition unlink (path : jsstring) : M unit :=
  fun w =>
    (inr tt,
     {| disk := {| db_file := db_file (disk w);
                   db_write_error := db_write_error (disk w);
                   files := delete path (files (disk w));
                   directories := directories (disk w) |};
        cloud := cloud w; log := log w ++ [Removed path] |}).

(** [fs.mkdirSync(dir, { recursive: true })] *)
Definition mkdirSync (dir : jsstring) : M unit :=
  fun w =>
    (inr tt,
     {| disk := {| db_file := db_file (disk w);
                   db_write_error := db_write_error (disk w);
                   files := files (disk w);
                   directories := {[dir]} ∪ directories (disk w) |};
        cloud := cloud w; log := log w |}).

(** [uploadDiskStorage]: [destination] creates and returns the event's
    directory, [filename] returns the generated name; the engine writes
    the stream to [path.join(destination, filename)]. *)
Definition uploadDiskStorage : StorageEngine :=
  {| _handleFile := fun eventId rnd file data =>
       let eventDir := Path.join [UPLOADS_DIR cfg; eventId] in
       do! mkdirSync eventDir in
       let name := generated_name rnd (in_originalname file) in
       let finalPath := Path.join [eventDir; name] in
       do! write_file finalPath data in
       ret {| originalname := in_originalname file;
              mimetype := in_mimetype file;
              fsize := N.of_nat (length data);
              filename := Some name;
              fpath := Some finalPath;
              buffer := None |};
     _removeFile := fun file =>
       match fpath file with
       | Some path => unlink path
       | None => ret tt
       end |}.

(** [multer.memoryStorage()] *)
Definition memoryStorage : StorageEngine :=
  {| _handleFile := fun _ _ file data =>
       ret {| originalname := in_originalname file;
              mimetype := in_mimetype file;
              fsize := N.of_nat (length data);
              filename := None;
              fpath := None;
              buffer := Some data |};
     _removeFile := fun _ => ret tt |}.

(** [limits.fileSize], in bytes. *)
Definition fileSizeLimit : N := MAX_FILE_SIZE_MB cfg * 1024 * 1024.

(** The parser reports that a file has reached the size limit: the file
    is not empty and has [limits.fileSize] bytes or more. *)
Definition reaches_limit (data : list N) : bool :=
  (0 <? N.of_nat (length data)) && (fileSizeLimit <=? N.of_nat (length data)).

Fixpoint remove_uploaded (engine : StorageEngine) (uploaded : list multer_file)
    : M unit :=
  match uploaded with
  | [] => ret tt
  | file :: rest =>
      do! _removeFile engine file in
      remove_uploaded engine rest
  end.

(** The parts handled after a refusal, from file number [index] on: no
    error is reported for them any more.  The files the engine stores,
    in order; a file that reaches the size limit is stored cut at the
    limit, one the filter refuses is passed over, and nothing is handled
    once the count limit is reached. *)
Fixpoint handle_late (engine : StorageEngine) (eventId : jsstring)
    (rnd : nat -> entropy) (index : nat) (parts : list incoming)
    : M (list multer_file) :=
  match parts with
  | [] => ret []
  | file :: rest =>
      if (MAX_FILES_PER_REQUEST cfg <=? index)%nat then ret []
      else
        match fileFilter (in_mimetype file) with
        | Some _ => handle_late engine eventId rnd (S index) rest
        | None =>
            let! info := _handleFile engine eventId (rnd index) file
                           (take_N fileSizeLimit (in_data file)) in
            let! stored := handle_late engine eventId rnd (S index) rest in
            ret (info :: stored)
        end
  end.

(** What follows the first refusal, [rest] being the parts after the
    refused one and [index] the number of the first of them: the late
    parts that come before the removal, the removal of every file stored
    by then, the late parts that come after it, and the error for the
    callback. *)
Definition abort (engine : StorageEngine) (eventId : jsstring)
    (rnd : nat -> entropy) (late : late_parts) (error : thrown) (index : nat)
    (rest : list incoming) (uploaded : list multer_file)
    : M (thrown + list multer_file) :=
  let handled := take (late_handled late) rest in
  let early := take (late_removed late) handled in
  let! stored := handle_late engine eventId rnd index early in
  do! remove_uploaded engine (rev uploaded ++ stored) in
  do! handle_late engine eventId rnd (index + length early)
        (drop (late_removed late) handled) in
  ret (inl error).

(** [multer(...).array("files", MAX_FILES_PER_REQUEST)]: the error given
    to the callback, or [req.files].  [uploaded] holds the stored files,
    the last one first; [rnd k] is what the [k]-th file draws.  Once the
    count limit is reached the parser passes over every further file, so
    nothing is handled late then. *)
Fixpoint multer_array (engine : StorageEngine) (eventId : jsstring)
    (rnd : nat -> entropy) (late : late_parts) (index : nat)
    (parts : list incoming) (uploaded : list multer_file)
    : M (thrown + list multer_file) :=
  match parts with
  | [] => ret (inr (rev uploaded))
  | file :: rest =>
      if (MAX_FILES_PER_REQUEST cfg <=? index)%nat then
        do! remove_uploaded engine (rev uploaded) in
        ret (inl (ErrorInstance (lit "Too many files")))
      else
        match fileFilter (in_mimetype file) with
        | Some err => abort engine eventId rnd late err (S index) rest uploaded
        | None =>
            let! info := _handleFile engine eventId (rnd index) file
                           (take_N fileSizeLimit (in_data file)) in
            if reaches_limit (in_data file) then
              abort engine eventId rnd late (ErrorInstance (lit "File too large"))
                (S index) rest (info :: uploaded)
            else
              multer_array engine eventId rnd late (S index) rest (info :: uploaded)
        end
  end.

Definition uploadLocal := multer_array uploadDiskStorage.
Definition uploadSupabase := multer_array memoryStorage.

End Upload.

(** ** The upload route *)

Section UploadRoute.
Context `{Runtime} (cfg : config) (net : supabase_faults).

(** The code units [String.prototype.trim] removes. *)
Definition is_whitespace (c : N) : bool :=
  ((9 <=? c) && (c <=? 13)) || (c =? 32) || (c =? 160) || (c =? 5760)
  || ((8192 <=? c) && (c <=? 8202)) || (c =? 8232) || (c =? 8233)
  || (c =? 8239) || (c =? 8287) || (c =? 12288) || (c =? 65279).

Fixpoint trim_start (s : jsstring) : jsstring :=
  match s with
  | c :: r => if is_whitespace c then trim_start r else s
  | [] => []
  end.

Definition trim (s : jsstring) : jsstring :=
  rev (trim_start (rev (trim_start s))).

Definition sanitizeText (value : jsval) (max : nat) : jsstring :=
  match value with
  | JSString value => take max (trim value)
  | _ => []
  end.

(** [supabase.storage.from(SUPABASE_BUCKET).upload(key, data,
    { contentType, upsert: false })]: the [error] of the result. *)
Definition storage_upload (key : jsstring) (data : list N) (type : jsstring)
    : M (option thrown) :=
  fun w =>
    match storage_upload_error net key with
    | Some error => (inr (Some error), w)
    | None =>
        match sb_bucket (cloud w) !! key with
        | Some _ =>
            (inr (Some (ErrorInstance (lit "The resource already exists"))), w)
        | None =>
            (inr None,
             {| disk := disk w;
                cloud := {| sb_events := sb_events (cloud w);
                            sb_uploads := sb_uploads (cloud w);
                            sb_bucket :=
                              <[key := {| contentType := type; body := data |}]>
                                (sb_bucket (cloud w));
                            sb_timestamptz := sb_timestamptz (cloud w) |};
                log := log w ++ [Wrote key] |})
        end
    end.

(** [supabase.storage.from(SUPABASE_BUCKET).remove([key])] under
    [Promise.allSettled]: a failure is not reported to anyone. *)
Definition storage_remove (key : jsstring) : M unit :=
  fun w =>
    if storage_remove_fails net key then
      (inr tt, {| disk := disk w; cloud := cloud w;
                  log := log w ++ [RemoveFailed key] |})
    else
      (inr tt,
       {| disk := disk w;
          cloud := {| sb_events := sb_events (cloud w);
                      sb_uploads := sb_uploads (cloud w);
                      sb_bucket := delete key (sb_bucket (cloud w));
                      sb_timestamptz := sb_timestamptz (cloud w) |};
          log := log w ++ [Removed key] |}).

Fixpoint remove_all (paths : list jsstring) : M unit :=
  match paths with
  | [] => ret tt
  | storagePath :: rest =>
      do! storage_remove storagePath in
      remove_all rest
  end.

(** The [for (const file of files)] loop of the remote branch.  It
    returns [createdStoragePaths] and [uploadRecords] as they are when
    the loop ends, and the error that ended it, if any. *)
Fixpoint upload_files (eventId guestName uploadedAt : jsstring)
    (rnd : nat -> entropy) (index : nat) (files : list multer_file)
    (createdStoragePaths : list jsstring) (uploadRecords : list upload)
    : M (list jsstring * list upload * option thrown) :=
  match files with
  | [] => ret (createdStoragePaths, uploadRecords, None)
  | file :: rest =>
      let storagePath :=
        eventId ++ lit "/" ++ generated_name (rnd index) (originalname file) in
      let! uploadError :=
        storage_upload storagePath (default [] (buffer file)) (mimetype file) in
      match uploadError with
      | Some error => ret (createdStoragePaths, uploadRecords, Some error)
      | None =>
          upload_files eventId guestName uploadedAt rnd (S index) rest
            (createdStoragePaths ++ [storagePath])
            (uploadRecords ++
               [ {| up_id := randomUUID (id_bits (rnd index));
                    eventId := eventId;
                    guestName := guestName;
                    originalName := Some (originalname file);
                    storagePath := Some storagePath;
                    storedName := None;
                    mimeType := Some (mimetype file);
                    byteSize := fsize file;
                    uploadedAt := uploadedAt |} ])
      end
  end.

(** The records of the local branch, one per file. *)
Fixpoint local_records (eventId guestName uploadedAt : jsstring)
    (rnd : nat -> entropy) (index : nat) (files : list multer_file)
    : list upload :=
  match files with
  | [] => []
  | file :: rest =>
      {| up_id := randomUUID (id_bits (rnd index));
         eventId := eventId;
         guestName := guestName;
         originalName := Some (originalname file);
         storagePath := filename file;
         storedName := None;
         mimeType := Some (mimetype file);
         byteSize := fsize file;
         uploadedAt := uploadedAt |}
      :: local_records eventId guestName uploadedAt rnd (S index) rest
  end.

(** Runs [m] and returns what it threw, if anything. *)
Definition caught (m : M unit) : M (option thrown) :=
  try_catch (do! m in ret None) (fun error => ret (Some error)).

(** The inner [try] block: [createdStoragePaths] when it ends and the
    error the [catch] clause receives, if any. *)
Definition write_and_commit (eventId guestName uploadedAt : jsstring)
    (rnd : nat -> entropy) (files : list multer_file)
    : M (list jsstring * option thrown) :=
  if USING_SUPABASE cfg then
    let! r := upload_files eventId guestName uploadedAt rnd 0 files [] [] in
    match r with
    | (createdStoragePaths, _, Some error) => ret (createdStoragePaths, Some error)
    | (createdStoragePaths, uploadRecords, None) =>
        let! error := caught (insertUploadRecords cfg net uploadRecords) in
        ret (createdStoragePaths, error)
    end
  else
    let uploadRecords := local_records eventId guestName uploadedAt rnd 0 files in
    let! error := caught (insertUploadRecords cfg net uploadRecords) in
    ret ([], error).

Definition error_message (error : thrown) : jsstring :=
  match error with
  | ErrorInstance message => message
  | PlainObject _ => lit "Dosya yuklenemedi."
  end.

(** The callback given to the middleware. *)
Definition after_multer (eventId : jsstring) (guestName : jsval)
    (uploadedAt : jsstring) (rnd : nat -> entropy)
    (parsed : thrown + list multer_file) : M response :=
  match parsed with
  | inl err =>
      ret {| status := 400;
             json := JsonError (match message err with
                                | [] => lit "Dosya yuklenemedi."
                                | m => m
                                end) |}
  | inr [] =>
      ret {| status := 400; json := JsonError (lit "En az bir dosya secmelisin.") |}
  | inr files =>
      let guestName := sanitizeText guestName 80 in
      let! r := write_and_commit eventId guestName uploadedAt rnd files in
      match r with
      | (_, None) =>
          ret {| status := 201; json := JsonUploaded (length files) |}
      | (createdStoragePaths, Some error) =>
          do! (if USING_SUPABASE cfg
                  && negb (bool_decide (createdStoragePaths = []))
               then remove_all createdStoragePaths
               else ret tt) in
          ret {| status := 500; json := JsonError (error_message error) |}
      end
  end.

(** [app.post("/api/e/:eventId/upload", ...)]: [uploadedAt] is the
    clock's ISO time when the callback runs. *)
Definition upload_route (req : upload_request) (uploadedAt : jsstring)
    (rnd : nat -> entropy) : M response :=
  let eventId := param_eventId req in
  try_catch
    (let! event := findEventById cfg net eventId in
     match event with
     | None =>
         ret {| status := 404; json := JsonError (lit "Etkinlik bulunamadi.") |}
     | Some _ =>
         let middleware :=
           if USING_SUPABASE cfg then uploadSupabase cfg else uploadLocal cfg in
         let! parsed :=
           middleware eventId rnd (body_late req) 0%nat (body_files req) [] in
         after_multer eventId (body_guestName req) uploadedAt rnd parsed
     end)
    (fun error =>
       ret {| status := 500; json := JsonError (error_message error) |}).

End UploadRoute.

(** ** The archive exporter *)

(** Where the bytes of an archive entry come from. *)
Inductive entry_source :=
| FromFile (filePath : jsstring)
| FromStream (data : list N).

Record archive_entry := {
  source : entry_source;
  name : jsstring
}.

(** The result of [createSignedUrl]: [data?.signedUrl] and [error]. *)
Record signed_result := {
  signedUrl : option jsstring;
  sign_error : option thrown
}.

(** A [fetch] response: [ok] and [body]. *)
Record fetch_response := {
  ok : bool;
  response_stream : option (list N)
}.

(** How the remote service answers the reads of one export. *)
Record supabase_reads := {
  createSignedUrl : option jsstring -> signed_result;
  fetch : jsstring -> thrown + fetch_response
}.

Section ArchiveExport.
Context `{Runtime} (cfg : config).

(** [appendSupabaseUploadsToArchive(archive, uploads)], from position
    [index] on: the archive as the function leaves it, and what it threw,
    if anything. *)
Fixpoint appendSupabaseUploadsToArchive_from (reads : supabase_reads)
    (index : nat) (archive : list archive_entry) (uploads : list upload)
    : list archive_entry * option thrown :=
  match uploads with
  | [] => (archive, None)
  | item :: rest =>
      let signed := createSignedUrl reads (storagePath item) in
      match sign_error signed, signedUrl signed with
      | Some error, _ => (archive, Some error)
      | None, None | None, Some [] =>
          (archive, Some (ErrorInstance (lit "Supabase dosya URL olusturma hatasi.")))
      | None, Some url =>
          match fetch reads url with
          | inl error => (archive, Some error)
          | inr response =>
              match ok response, response_stream response with
              | true, Some data =>
                  appendSupabaseUploadsToArchive_from reads (S index)
                    (archive ++ [ {| source := FromStream data;
                                     name := buildArchiveEntryName item index |} ])
                    rest
              | _, _ =>
                  (archive,
                   Some (ErrorInstance
                           (lit "Supabase dosya indirme hatasi: "
                            ++ match originalName item with
                               | Some n => n
                               | None => lit "undefined"
                               end)))
              end
          end
      end
  end.

Definition appendSupabaseUploadsToArchive (reads : supabase_reads)
    (archive : list archive_entry) (uploads : list upload) :=
  appendSupabaseUploadsToArchive_from reads 0 archive uploads.

(** [appendLocalUploadsToArchive(archive, eventId, uploads)], from
    position [index] on.  [path.join] throws a [TypeError] for a record
    without a [storagePath]. *)
Fixpoint appendLocalUploadsToArchive_from (fs : local_fs) (eventId : jsstring)
    (index : nat) (archive : list archive_entry) (uploads : list upload)
    : list archive_entry * option thrown :=
  match uploads with
  | [] => (archive, None)
  | item :: rest =>
      match storagePath item with
      | None =>
          (archive,
           Some (ErrorInstance
                   (lit "The paths[2] argument must be of type string. Received undefined")))
      | Some key =>
          let filePath := Path.join [UPLOADS_DIR cfg; eventId; key] in
          if negb (existsSync fs filePath) then
            appendLocalUploadsToArchive_from fs eventId (S index) archive rest
          else
            appendLocalUploadsToArchive_from fs eventId (S index)
              (archive ++ [ {| source := FromFile filePath;
                               name := buildArchiveEntryName item index |} ])
              rest
      end
  end.

Definition appendLocalUploadsToArchive (fs : local_fs) (archive : list archive_entry)
    (eventId : jsstring) (uploads : list upload) :=
  appendLocalUploadsToArchive_from fs eventId 0 archive uploads.

(** The record's file is on disk. *)
Definition backing_file_exists (fs : local_fs) (eventId : jsstring) (item : upload)
    : bool :=
  match storagePath item with
  | Some key => existsSync fs (Path.join [UPLOADS_DIR cfg; eventId; key])
  | None => false
  end.


End ArchiveExport.

(** ** Predicates used to state the properties of storage keys *)

(** [s] names one entry of a directory: it is not empty, is neither [.]
    nor [..], and holds no path separator. *)
Definition single_segment (s : jsstring) : Prop :=
  s <> [] /\ s <> [CHAR_DOT] /\ s <> Path.dotdot
  /\ Forall (fun c => c <> CHAR_FORWARD_SLASH) s.

(** The storage key of the remote branch for the [index]-th file, whose
    client-side name is [originalname]. *)
Definition remote_key (eventId : jsstring) (rnd : nat -> entropy) (index : nat)
    (originalname : jsstring) : jsstring :=
  eventId ++ lit "/" ++ generated_name (rnd index) originalname.

Fixpoint remote_keys (eventId : jsstring) (rnd : nat -> entropy) (index : nat)
    (names : list jsstring) : list jsstring :=
  match names with
  | [] => []
  | originalname :: rest =>
      remote_key eventId rnd index originalname
      :: remote_keys eventId rnd (S index) rest
  end.

(** ** Predicates used to state the properties of the metadata store *)

(** The upload records the local database file holds. *)
Definition stored_uploads (w : world) : list upload :=
  match db_file (disk w) with
  | Some (Stored d) => uploads d
  | _ => []
  end.

Definition stored_events (w : world) : list event :=
  match db_file (disk w) with
  | Some (Stored d) => events d
  | _ => []
  end.

(** The storage path a listed record is claimed to carry: the stored
    [storagePath] when the record has one, else the legacy [storedName]
    when it has one, else the empty string.  As for JavaScript's [||], a
    field that holds the empty string counts as not there. *)
Definition preferred_storagePath (item : upload) : jsstring :=
  match storagePath item with
  | Some (c :: s) => c :: s
  | _ =>
      match storedName item with
      | Some (c :: s) => c :: s
      | _ => []
      end
  end.

(** The world in which the database file holds [content] and all else
    is as in [w]. *)
Definition with_db_file (w : world) (content : option file_content) : world :=
  {| disk := {| db_file := content;
                db_write_error := db_write_error (disk w);
                files := files (disk w);
                directories := directories (disk w) |};
     cloud := cloud w; log := log w |}.

(** What a failed write of the database file leaves behind. *)
Definition after_failed_write (failure : write_failure) (w : world) : world :=
  if file_opened failure then with_db_file w (Some Unparseable) else w.

(** The database file is missing, is not JSON, or lacks an array. *)
Definition db_unreadable (w : world) : Prop :=
  db_file (disk w) = None
  \/ db_file (disk w) = Some Unparseable
  \/ db_file (disk w) = Some NoArrays.

(** ** Predicates used to state the properties of the exporter *)

(** The records of a list with their 0-based positions, counted from
    [from]. *)
Fixpoint positions {A} (from : nat) (l : list A) : list (nat * A) :=
  match l with
  | [] => []
  | x :: r => (from, x) :: positions (S from) r
  end.

Section ExportSpec.
Context `{Runtime} (cfg : config).

(** Where the local backend keeps the bytes of a record. *)
Definition backing_path (eventId : jsstring) (item : upload) : jsstring :=
  Path.join [UPLOADS_DIR cfg; eventId; default [] (storagePath item)].

(** The entry the local exporter is claimed to add for the record [item]
    at position [index]. *)
Definition local_entry (eventId : jsstring) (p : nat * upload) : archive_entry :=
  {| source := FromFile (backing_path eventId (snd p));
     name := buildArchiveEntryName (snd p) (fst p) |}.


End ExportSpec.

(** ** Predicates used to state the properties of the upload route *)

Section UploadSpec.
Context (cfg : config) (net : supabase_faults).

(** The request's event identifier resolves to an event of the active
    backend. *)
Definition event_exists (eventId : jsstring) (w : world) : Prop :=
  if USING_SUPABASE cfg then
    select_event_error net = None
    /\ exists row, row ∈ sb_events (cloud w) /\ e_id row = eventId
  else
    exists event, event ∈ stored_events w /\ ev_id event = eventId.

(** A batch the middleware accepts: between one and
    [MAX_FILES_PER_REQUEST] files, each declared as an image or a video
    and shorter than the size limit. *)
Definition valid_batch (parts : list incoming) : Prop :=
  parts <> []
  /\ (length parts <= MAX_FILES_PER_REQUEST cfg)%nat
  /\ Forall (fun file =>
               validType (in_mimetype file) = true
               /\ N.of_nat (length (in_data file)) < fileSizeLimit cfg) parts.

(** The metadata of both backends is the same in [w] and [w']. *)
Definition same_metadata (w w' : world) : Prop :=
  db_file (disk w') = db_file (disk w)
  /\ db_write_error (disk w') = db_write_error (disk w)
  /\ sb_events (cloud w') = sb_events (cloud w)
  /\ sb_uploads (cloud w') = sb_uploads (cloud w).

(** The batch's storage keys are new to the bucket and the service
    reports no error for writing them. *)
Definition writes_succeed (keys : list jsstring) (w : world) : Prop :=
  NoDup keys
  /\ forall key, key ∈ keys ->
       storage_upload_error net key = None
       /\ sb_bucket (cloud w) !! key = None.

(** Nothing fails between the first write of a batch and its commit. *)
Definition commit_succeeds (eventId : jsstring) (rnd : nat -> entropy)
    (parts : list incoming) (w : world) : Prop :=
  if USING_SUPABASE cfg then
    writes_succeed (remote_keys eventId rnd 0 (map in_originalname parts)) w
    /\ insert_uploads_error net = None
  else
    db_write_error (disk w) = None.

(** What the log records for the removal of [key]. *)
Definition removal_event (key : jsstring) : storage_event :=
  if storage_remove_fails net key then RemoveFailed key else Removed key.

(** multer's file object for a file the memory engine kept. *)
Definition memory_file (file : incoming) : multer_file :=
  let data := take_N (fileSizeLimit cfg) (in_data file) in
  {| originalname := in_originalname file;
     mimetype := in_mimetype file;
     fsize := N.of_nat (length data);
     filename := None;
     fpath := None;
     buffer := Some data |}.

(** multer's file object for the [index]-th file, stored by the disk
    engine. *)
Definition disk_file (eventId : jsstring) (rnd : nat -> entropy) (index : nat)
    (file : incoming) : multer_file :=
  let name := generated_name (rnd index) (in_originalname file) in
  {| originalname := in_originalname file;
     mimetype := in_mimetype file;
     fsize := N.of_nat (length (take_N (fileSizeLimit cfg) (in_data file)));
     filename := Some name;
     fpath := Some (Path.join [Path.join [UPLOADS_DIR cfg; eventId]; name]);
     buffer := None |}.

Fixpoint disk_files (eventId : jsstring) (rnd : nat -> entropy) (index : nat)
    (parts : list incoming) : list multer_file :=
  match parts with
  | [] => []
  | file :: rest =>
      disk_file eventId rnd index file :: disk_files eventId rnd (S index) rest
  end.

(** The paths the disk engine writes for the files from position [index]
    on. *)
Definition disk_paths (eventId : jsstring) (rnd : nat -> entropy) (index : nat)
    (parts : list incoming) : list jsstring :=
  omap fpath (disk_files eventId rnd index parts).

End UploadSpec.

(** ** Sample data *)

Definition local_cfg : config :=
  {| USING_SUPABASE := false; MAX_FILE_SIZE_MB := 200;
     MAX_FILES_PER_REQUEST := 20; UPLOADS_DIR := lit "/srv/app/uploads" |}.

Definition remote_cfg : config :=
  {| USING_SUPABASE := true; MAX_FILE_SIZE_MB := 200;
     MAX_FILES_PER_REQUEST := 20; UPLOADS_DIR := lit "/srv/app/uploads" |}.

(** A database set to UTC: it returns [2024-01-01T00:00:00+00:00] for a
    time stored from [2024-01-01T00:00:00.000Z]. *)
Definition utc_rendering (text : jsstring) : jsstring :=
  take 19 text ++ lit "+00:00".

Definition sample_event : event :=
  {| ev_id := lit "ab12cd"; eventName := lit "Dugun"; eventDate := lit "2024-06-01";
     ownerName := lit "Ayse"; adminToken := lit "00112233445566778899aabbccddeeff";
     createdAt := lit "2024-01-01T00:00:00.000Z" |}.

(** A running installation with one event and no uploads, on both
    backends. *)
Definition sample_world : world :=
  {| disk := {| db_file := Some (Stored {| events := [sample_event]; uploads := [] |});
                db_write_error := None;
                files := ∅;
                directories := {[ lit "/srv/app/uploads" ]} |};
     cloud := {| sb_events := [to_event_row sample_event]; sb_uploads := [];
                 sb_bucket := ∅; sb_timestamptz := utc_rendering |};
     log := [] |}.

(** The same installation on a disk that has no room left for the
    database file. *)
Definition full_disk_world : world :=
  {| disk := {| db_file := Some (Stored {| events := [sample_event]; uploads := [] |});
                db_write_error :=
                  Some {| write_message := lit "ENOSPC: no space left on device, write";
                          file_opened := true |};
                files := ∅;
                directories := {[ lit "/srv/app/uploads" ]} |};
     cloud := {| sb_events := [to_event_row sample_event]; sb_uploads := [];
                 sb_bucket := ∅; sb_timestamptz := utc_rendering |};
     log := [] |}.

(** An installation whose database file was lost. *)
Definition lost_db_world : world :=
  {| disk := {| db_file := None; db_write_error := None;
                files := ∅; directories := ∅ |};
     cloud := {| sb_events := []; sb_uploads := []; sb_bucket := ∅;
                 sb_timestamptz := utc_rendering |};
     log := [] |}.

Definition sample_rnd (k : nat) : entropy :=
  {| now := 1700000000000 + N.of_nat k;
     key_bits := 81985529216486895 + N.of_nat k;
     id_bits := 1311768467463790320 + N.of_nat k |}.

Definition png_file : incoming :=
  {| in_originalname := lit "a.png"; in_mimetype := lit "image/png";
     in_data := [137; 80; 78; 71] |}.

Definition pdf_file : incoming :=
  {| in_originalname := lit "b.pdf"; in_mimetype := lit "application/pdf";
     in_data := [37; 80; 68; 70] |}.

(** A request whose body arrives in one piece: every part that follows
    a refused one is still handled, after the removal has begun. *)
Definition sample_request (parts : list incoming) : upload_request :=
  {| param_eventId := lit "ab12cd"; body_guestName := JSString (lit " Mehmet ");
     body_files := parts;
     body_late := {| late_handled := length parts; late_removed := 0 |} |}.

Definition sample_time : jsstring := lit "2024-06-01T18:30:00.000Z".

(** The path the disk engine gives the first file of a sample request. *)
Definition sample_path : jsstring :=
  lit "/srv/app/uploads/ab12cd/1700000000000-00000000-0000-4000-8123-456789abcdef.png".

(** A remote service whose [uploads] table rejects every insert, with
    the error object the client library returns for it. *)
Definition insert_rejected : supabase_faults :=
  {| select_event_error := None;
     select_uploads_error := None;
     storage_upload_error := fun _ => None;
     insert_uploads_error :=
       Some (PlainObject (lit "permission denied for table uploads"));
     storage_remove_fails := fun _ => false |}.

(** The records the remote branch builds for the files from position
    [index] on. *)
Fixpoint remote_records (eventId guestName uploadedAt : jsstring)
    (rnd : nat -> entropy) (index : nat) (files : list multer_file)
    : list upload :=
  match files with
  | [] => []
  | file :: rest =>
      {| up_id := randomUUID (id_bits (rnd index));
         eventId := eventId;
         guestName := guestName;
         originalName := Some (originalname file);
         storagePath := Some (remote_key eventId rnd index (originalname file));
         storedName := None;
         mimeType := Some (mimetype file);
         byteSize := fsize file;
         uploadedAt := uploadedAt |}
      :: remote_records eventId guestName uploadedAt rnd (S index) rest
  end.

(** A remote service that rejects every insert into [uploads] and every
    removal from the bucket. *)
Definition nothing_works : supabase_faults :=
  {| select_event_error := None;
     select_uploads_error := None;
     storage_upload_error := fun _ => None;
     insert_uploads_error :=
       Some (PlainObject (lit "permission denied for table uploads"));
     storage_remove_fails := fun _ => true |}.

(** The key the remote branch gives the first file of a sample request. *)
Definition sample_key : jsstring :=
  lit "ab12cd/1700000000000-00000000-0000-4000-8123-456789abcdef.png".

(** An 81-character file name: 79 letters, a dash and one more letter. *)
Definition long_name : jsstring := repeat 97 79 ++ lit "-b".

(** An installation whose database still holds a record written by an
    older version, with [storedName] in place of [storagePath]. *)
Definition legacy_upload : upload :=
  {| up_id := lit "6f1c"; eventId := lit "ab12cd"; guestName := [];
     originalName := Some (lit "eski.jpg"); storagePath := None;
     storedName := Some (lit "1600000000000-eski.jpg");
     mimeType := Some (lit "image/jpeg"); byteSize := 10;
     uploadedAt := lit "2020-09-13T12:26:40.000Z" |}.

Definition legacy_world : world :=
  {| disk := {| db_file := Some (Stored {| events := [sample_event];
                                          uploads := [legacy_upload] |});
                db_write_error := None;
                files := ∅;
                directories := ∅ |};
     cloud := {| sb_events := []; sb_uploads := []; sb_bucket := ∅;
                 sb_timestamptz := utc_rendering |};
     log := [] |}.


Definition export_uploads : list upload :=
  [ sample_upload "a.png" "1700000000000-00000000-0000-4000-8123-456789abcdef.png"
      "image/png";
    sample_upload "b.png" "1700000000001-00000000-0000-4000-8123-456789abcdf0.png"
      "image/png" ].

(** A remote service that signs every key and serves every URL. *)
Definition reads_fine : supabase_reads :=
  {| createSignedUrl := fun key =>
       {| signedUrl := Some (lit "https://project.supabase.co/sign/" ++ default [] key);
          sign_error := None |};
     fetch := fun _ => inr {| ok := true; response_stream := Some [137; 80; 78; 71] |} |}.


(** ** Invariants used in the proofs *)

Section SanitizerSteps.
Context `{Runtime}.

(** The code units that reach the truncation step of the sanitizer. *)
Definition trimmed (value : jsstring) : jsstring :=
  trim_dashes
    (collapse_dashes false
       (replace_unsafe_runs false (strip_non_ascii (normalizeNFKD value)))).

End SanitizerSteps.

(** What holds of the loop variables of [path.extname] when the code
    units from position [k] on have been visited. *)
Definition ext_inv (path : jsstring) (k : nat) (st : Path.ext_state) : Prop :=
  (Path.matchedSlash st = true -> Path.end_ st = (-1)%Z)
  /\ (Path.end_ st = (-1)%Z -> Path.startDot st = (-1)%Z)
  /\ (Path.end_ st <> (-1)%Z ->
      (Z.of_nat k <= Path.end_ st <= Z.of_nat (length path))%Z
      /\ forall j : nat, (k <= j)%nat -> (Z.of_nat j < Path.end_ st)%Z ->
           path !! j <> Some CHAR_FORWARD_SLASH)
  /\ (Path.startDot st <> (-1)%Z ->
      (Z.of_nat k <= Path.startDot st < Path.end_ st)%Z).

Definition ext_final (path : jsstring) (st : Path.ext_state) : Prop :=
  Path.startDot st <> (-1)%Z -> Path.end_ st <> (-1)%Z ->
  (0 <= Path.startDot st)%Z
  /\ forall j : nat, (Path.startDot st <= Z.of_nat j < Path.end_ st)%Z ->
       path !! j <> Some CHAR_FORWARD_SLASH.


(** * The rest of the server *)

(** ** Event creation *)

(** [crypto.randomBytes(n)] for the random bits [bits]: [n] bytes, the
    most significant first. *)
Definition randomBytes (n : nat) (bits : N) : list N :=
  map (fun k => (bits / 256 ^ N.of_nat (n - 1 - k)) mod 256) (seq 0 n).

(** [buffer.toString("hex")] *)
Definition hex_byte (b : N) : jsstring := [hex_digit (b / 16); hex_digit b].

Definition toString_hex (bytes : list N) : jsstring := flat_map hex_byte bytes.

Definition generateShortId (bits : N) : jsstring :=
  toString_hex (randomBytes 3 bits).

(** What [createEventRecord] draws from the clock and the random source:
    the creation time, the bits of the identifier of each attempt, and the
    bits of the admin token of each attempt (the local branch draws one
    token only, after the identifier is settled). *)
Record event_entropy := {
  createdAt_now : jsstring;
  id_draw : nat -> N;
  token_draw : nat -> N
}.

(** The fields of the form [POST /api/events] stores. *)
Record event_fields := {
  f_eventName : jsstring;
  f_eventDate : jsstring;
  f_ownerName : jsstring
}.

(** An error of the remote database: its [code] and the error value. *)
Record pg_error := {
  pg_code : jsstring;
  pg_value : thrown
}.

(** How the [events] table answers the insert of each attempt, beyond
    refusing a taken identifier. *)
Definition event_insert_faults := nat -> option pg_error.

Definition unique_violation : pg_error :=
  {| pg_code := lit "23505";
     pg_value := PlainObject (lit "duplicate key value violates unique constraint") |}.

(** What carries an [id]: an event of the local database and a row of
    the remote table. *)
Class Identified (A : Type) := identifier : A -> jsstring.

#[global] Instance event_identified : Identified event := ev_id.
#[global] Instance event_row_identified : Identified event_row := e_id.

Section EventCreation.
Context (cfg : config).

(** [events.some((event) => event.id === eventId)], and the test of the
    primary key of the remote table. *)
Definition has_id {A} `{Identified A} (eventId : jsstring) (l : list A) : bool :=
  existsb (fun event => bool_decide (identifier event = eventId)) l.

(** [let eventId = generateShortId(); while (db.events.some(...)) eventId =
    generateShortId();] from the [k]-th draw on.  [None]: the loop has not
    ended after [fuel] draws. *)
Fixpoint draw_free_id (fuel : nat) (k : nat) (draws : nat -> N) (existing : list event)
    : option (nat * jsstring) :=
  match fuel with
  | O => None
  | S fuel' =>
      let eventId := generateShortId (draws k) in
      if has_id eventId existing
      then draw_free_id fuel' (S k) draws existing
      else Some (k, eventId)
  end.

(** [supabase.from("events").insert(row)]: the [error] of the result.  The
    primary key refuses an identifier the table already holds. *)
Definition insert_event (faults : event_insert_faults) (attempt : nat)
    (row : event_row) : M (option pg_error) :=
  fun w =>
    match faults attempt with
    | Some error => (inr (Some error), w)
    | None =>
        if has_id (e_id row) (sb_events (cloud w)) then
          (inr (Some unique_violation), w)
        else
          (inr None,
           {| disk := disk w;
              cloud := {| sb_events := sb_events (cloud w) ++ [row];
                          sb_uploads := sb_uploads (cloud w);
                          sb_bucket := sb_bucket (cloud w);
                          sb_timestamptz := sb_timestamptz (cloud w) |};
              log := log w |})
    end.

(** The [for (let attempt = 0; attempt < 10; attempt += 1)] loop of the
    remote branch, with [remaining] attempts left. *)
Fixpoint insert_attempts (faults : event_insert_faults) (fields : event_fields)
    (rnd : event_entropy) (remaining : nat) (attempt : nat) : M event :=
  match remaining with
  | O => throw (ErrorInstance (lit "Etkinlik olusturulamadi, tekrar dene."))
  | S remaining' =>
      let eventId := generateShortId (id_draw rnd attempt) in
      let adminToken := toString_hex (randomBytes 16 (token_draw rnd attempt)) in
      let event :=
        {| ev_id := eventId;
           eventName := f_eventName fields;
           eventDate := f_eventDate fields;
           ownerName := f_ownerName fields;
           adminToken := adminToken;
           createdAt := createdAt_now rnd |} in
      let! error := insert_event faults attempt (to_event_row event) in
      match error with
      | None => ret event
      | Some error =>
          if negb (bool_decide (pg_code error = lit "23505"))
          then throw (pg_value error)
          else insert_attempts faults fields rnd remaining' (S attempt)
      end
  end.

(** [createEventRecord({ eventName, eventDate, ownerName })].  [None]: the
    [while] loop of the local branch has not ended after [fuel] draws. *)
Definition createEventRecord (faults : event_insert_faults) (fuel : nat)
    (fields : event_fields) (rnd : event_entropy) : M (option event) :=
  if USING_SUPABASE cfg then
    let! event := insert_attempts faults fields rnd 10 0 in
    ret (Some event)
  else
    let! db := readLocalDb in
    match draw_free_id fuel 0 (id_draw rnd) (events db) with
    | None => ret None
    | Some (_, eventId) =>
        let adminToken := toString_hex (randomBytes 16 (token_draw rnd 0)) in
        let event :=
          {| ev_id := eventId;
             eventName := f_eventName fields;
             eventDate := f_eventDate fields;
             ownerName := f_ownerName fields;
             adminToken := adminToken;
             createdAt := createdAt_now rnd |} in
        do! writeLocalDb {| events := events db ++ [event]; uploads := uploads db |} in
        ret (Some event)
    end.

(** [fs.mkdirSync(dir, { recursive: true })] as [bootstrapLocal] calls
    it; [mkdir_error dir] is the error it throws, if it throws. *)
Definition mkdir_or_throw (mkdir_error : jsstring -> option thrown) (dir : jsstring)
    : M unit :=
  match mkdir_error dir with
  | Some error => throw error
  | None => mkdirSync dir
  end.

(** [bootstrapLocal()]: the two directories are created, and the database
    file is written, with [fs.writeFileSync] as in [writeLocalDb], only
    when there is none. *)
Definition bootstrapLocal (DATA_DIR : jsstring)
    (mkdir_error : jsstring -> option thrown) : M unit :=
  do! mkdir_or_throw mkdir_error DATA_DIR in
  do! mkdir_or_throw mkdir_error (UPLOADS_DIR cfg) in
  fun w =>
    match db_file (disk w) with
    | Some _ => (inr tt, w)
    | None => writeLocalDb emptyDb w
    end.

End EventCreation.

(** ** The event creation route *)

(** What [getBaseUrl] reads of a request: [req.protocol] and
    [req.get("host")]. *)
Record http_request := {
  protocol : jsstring;
  host : option jsstring
}.

Fixpoint strip_trailing_slash (s : jsstring) : jsstring :=
  match s with
  | [] => []
  | [c] => if c =? CHAR_FORWARD_SLASH then [] else [c]
  | c :: r => c :: strip_trailing_slash r
  end.

(** [getBaseUrl(req)]; [BASE_URL] is [process.env.BASE_URL]. *)
Definition getBaseUrl (BASE_URL : option jsstring) (req : http_request) : jsstring :=
  match BASE_URL with
  | Some (c :: s) => strip_trailing_slash (c :: s)
  | _ =>
      protocol req ++ lit "://"
        ++ match host req with
           | Some h => h
           | None => lit "undefined"
           end
  end.

Record create_request := {
  c_http : http_request;
  c_eventName : jsval;
  c_eventDate : jsval;
  c_ownerName : jsval
}.

Inductive create_response :=
| CreateError (status : nat) (error : jsstring)
| Created (eventId joinUrl adminUrl : jsstring).

Section CreateRoute.
Context (cfg : config) (BASE_URL : option jsstring).

(** [app.post("/api/events", ...)]; an error is passed to the error
    middleware, which answers 500.  [None]: the identifier loop has not
    ended after [fuel] draws. *)
Definition create_event_route (faults : event_insert_faults) (fuel : nat)
    (req : create_request) (rnd : event_entropy) : M (option create_response) :=
  try_catch
    (let eventName := sanitizeText (c_eventName req) 120 in
     let eventDate := sanitizeText (c_eventDate req) 40 in
     let ownerName := sanitizeText (c_ownerName req) 80 in
     match eventName with
     | [] => ret (Some (CreateError 400 (lit "Etkinlik adi zorunlu.")))
     | _ =>
         let! created :=
           createEventRecord cfg faults fuel
             {| f_eventName := eventName; f_eventDate := eventDate;
                f_ownerName := ownerName |} rnd in
         match created with
         | None => ret None
         | Some event =>
             let baseUrl := getBaseUrl BASE_URL (c_http req) in
             ret (Some (Created (ev_id event)
                          (baseUrl ++ lit "/e/" ++ ev_id event)
                          (baseUrl ++ lit "/admin/" ++ ev_id event
                             ++ lit "?token=" ++ adminToken event)))
         end
     end)
    (fun _ => ret (Some (CreateError 500 (lit "Beklenmeyen bir hata olustu.")))).

End CreateRoute.

(** ** The admin routes *)

(** [!!v] *)
Definition truthy (v : jsval) : bool :=
  match v with
  | JSUndefined | JSNull => false
  | JSBoolean b => b
  | JSNumber z => negb (z =? 0)%Z
  | JSString s => negb (bool_decide (s = []))
  | JSObject _ => true
  end.

(** [String(req.query.token || "")] *)
Definition query_token (v : jsval) : jsstring :=
  if truthy v then to_string v else [].

(** The unreserved characters of [encodeURIComponent]:
    [A-Z a-z 0-9 - _ . ! ~ * ' ( )]. *)
Definition uri_unreserved (c : N) : bool :=
  ((97 <=? c) && (c <=? 122)) || ((65 <=? c) && (c <=? 90))
  || ((48 <=? c) && (c <=? 57))
  || (c =? 45) || (c =? 95) || (c =? 46) || (c =? 33) || (c =? 126)
  || (c =? 42) || (c =? 39) || (c =? 40) || (c =? 41).

Definition upper_hex_digit (n : N) : N :=
  nth (N.to_nat (n mod 16)) (lit "0123456789ABCDEF") CHAR_ZERO.

Definition CHAR_PERCENT : N := 37.

Definition percent_octet (b : N) : jsstring :=
  [CHAR_PERCENT; upper_hex_digit (b / 16); upper_hex_digit b].

(** The UTF-8 octets of the code point [v]. *)
Definition utf8_octets (v : N) : list N :=
  if v <? 128 then [v]
  else if v <? 2048 then [192 + v / 64; 128 + v mod 64]
  else if v <? 65536 then [224 + v / 4096; 128 + (v / 64) mod 64; 128 + v mod 64]
  else [240 + (v / 262144) mod 8; 128 + (v / 4096) mod 64;
        128 + (v / 64) mod 64; 128 + v mod 64].

Definition is_high_surrogate (c : N) : bool := (55296 <=? c) && (c <=? 56319).
Definition is_low_surrogate (c : N) : bool := (56320 <=? c) && (c <=? 57343).

Definition URIError : thrown := ErrorInstance (lit "URI malformed").

(** [encodeURIComponent(s)] *)
Fixpoint encodeURIComponent (s : jsstring) : thrown + jsstring :=
  match s with
  | [] => inr []
  | c :: r =>
      if uri_unreserved c then
        match encodeURIComponent r with
        | inr out => inr (c :: out)
        | inl e => inl e
        end
      else if is_low_surrogate c then inl URIError
      else if is_high_surrogate c then
        match r with
        | d :: r' =>
            if is_low_surrogate d then
              match encodeURIComponent r' with
              | inr out =>
                  inr (flat_map percent_octet
                         (utf8_octets ((c - 55296) * 1024 + (d - 56320) + 65536))
                       ++ out)
              | inl e => inl e
              end
            else inl URIError
        | [] => inl URIError
        end
      else
        match encodeURIComponent r with
        | inr out => inr (flat_map percent_octet (utf8_octets c) ++ out)
        | inl e => inl e
        end
  end.

(** A listed record with the URL the gallery shows it under. *)
Record upload_view := {
  view_of : upload;
  viewUrl : jsstring
}.

(** The result of [createSignedUrls]: [data], with the [signedUrl] of each
    element, and [error]. *)
Record signed_batch := {
  batch_data : option (list (option jsstring));
  batch_error : option thrown
}.

Inductive download_result :=
| Sent (status : nat) (text : jsstring)
| ZipStream (zipFileName : jsstring) (entries : list archive_entry)
| ZipBroken (zipFileName : jsstring) (entries : list archive_entry) (error : thrown)
| PassedOn (error : thrown).

Inductive file_result :=
| FileSent (status : nat) (text : jsstring)
| FileServed (filePath : jsstring)
| FileUnhandled (error : thrown).

Inductive admin_result :=
| AdminSent (status : nat) (text : jsstring)
| AdminPage (event : event) (joinUrl qrDataUrl : jsstring) (uploads : list upload_view)
| AdminPassedOn (error : thrown).

Section AdminRoutes.
Context `{Runtime} (cfg : config) (net : supabase_faults).

(** The [uploads.map((item, index) => ...)] of the remote branch of
    [attachViewUrls], from position [index] on:
    [data?.[index]?.signedUrl || ""]. *)
Fixpoint zip_signed (data : option (list (option jsstring))) (index : nat)
    (uploads : list upload) : list upload_view :=
  match uploads with
  | [] => []
  | item :: rest =>
      {| view_of := item;
         viewUrl := or_else (mjoin (data ≫= (fun l => l !! index))) [] |}
      :: zip_signed data (S index) rest
  end.

(** The [uploads.map(...)] of the local branch; [encodeURIComponent]
    throws for a string with an unpaired surrogate. *)
Fixpoint local_views (token : jsstring) (uploads : list upload)
    : thrown + list upload_view :=
  match uploads with
  | [] => inr []
  | item :: rest =>
      match encodeURIComponent (eventId item) with
      | inl e => inl e
      | inr event_part =>
          match encodeURIComponent
                  (match storagePath item with
                   | Some p => p
                   | None => lit "undefined"
                   end) with
          | inl e => inl e
          | inr path_part =>
              match encodeURIComponent token with
              | inl e => inl e
              | inr token_part =>
                  match local_views token rest with
                  | inl e => inl e
                  | inr views =>
                      inr ({| view_of := item;
                              viewUrl :=
                                lit "/admin/file/" ++ event_part ++ lit "/"
                                  ++ path_part ++ lit "?token=" ++ token_part |}
                           :: views)
                  end
              end
          end
      end
  end.

(** [attachViewUrls(uploads, token)]; an empty list is returned as it
    is. *)
Definition attachViewUrls
    (createSignedUrls : list (option jsstring) -> signed_batch)
    (uploads : list upload) (token : jsstring) : thrown + list upload_view :=
  match uploads with
  | [] => inr []
  | _ =>
      if USING_SUPABASE cfg then
        let paths := map storagePath uploads in
        let result := createSignedUrls paths in
        match batch_error result with
        | Some error => inl error
        | None => inr (zip_signed (batch_data result) 0 uploads)
        end
      else local_views token uploads
  end.

(** [app.get("/admin/:eventId", ...)]; [toDataURL] is [QRCode.toDataURL]. *)
Definition admin_route (BASE_URL : option jsstring)
    (toDataURL : jsstring -> thrown + jsstring)
    (createSignedUrls : list (option jsstring) -> signed_batch)
    (req : http_request) (eventId : jsstring) (token_param : jsval)
    : M admin_result :=
  try_catch
    (let token := query_token token_param in
     let! event := findEventById cfg net eventId in
     match event with
     | None => ret (AdminSent 404 (lit "Etkinlik bulunamadi."))
     | Some event =>
         if negb (bool_decide (adminToken event = token)) then
           ret (AdminSent 403 (lit "Yetkisiz erisim."))
         else
           let baseUrl := getBaseUrl BASE_URL req in
           let joinUrl := baseUrl ++ lit "/e/" ++ eventId in
           match toDataURL joinUrl with
           | inl error => throw error
           | inr qrDataUrl =>
               let! uploads := listUploadsForEvent cfg net eventId in
               match attachViewUrls createSignedUrls uploads token with
               | inl error => throw error
               | inr uploadsWithUrls =>
                   ret (AdminPage event joinUrl qrDataUrl uploadsWithUrls)
               end
           end
     end)
    (fun error => ret (AdminPassedOn error)).

(** [app.get("/admin/:eventId/download.zip", ...)].  An error raised
    before the archive exists is passed to the error middleware; one
    raised while entries are appended ends the response ([ZipBroken]). *)
Definition download_route (reads : supabase_reads) (eventId : jsstring)
    (token_param : jsval) : M download_result :=
  let token := query_token token_param in
  try_catch
    (let! event := findEventById cfg net eventId in
     match event with
     | None => ret (Sent 404 (lit "Etkinlik bulunamadi."))
     | Some event =>
         if negb (bool_decide (adminToken event = token)) then
           ret (Sent 403 (lit "Yetkisiz erisim."))
         else
           let! uploads := listUploadsForEvent cfg net eventId in
           match uploads with
           | [] => ret (Sent 404 (lit "Indirilecek dosya yok."))
           | _ =>
               let safeEventName :=
                 sanitizeArchiveName
                   (JSString (or_else (Some (eventName event)) (lit "anilar"))) in
               let zipFileName := safeEventName ++ lit "-" ++ eventId ++ lit ".zip" in
               fun w =>
                 let appended :=
                   if USING_SUPABASE cfg
                   then appendSupabaseUploadsToArchive reads [] uploads
                   else appendLocalUploadsToArchive cfg (disk w) [] eventId uploads in
                 match appended with
                 | (entries, None) => (inr (ZipStream zipFileName entries), w)
                 | (entries, Some error) =>
                     (inr (ZipBroken zipFileName entries error), w)
                 end
           end
     end)
    (fun error => ret (PassedOn error)).

(** [app.get("/admin/file/:eventId/:fileName", ...)].  The handler has no
    [try]: what [findEventById] throws is handled by nobody. *)
Definition file_route (eventId fileName_param : jsstring) (token_param : jsval)
    : M file_result :=
  if USING_SUPABASE cfg then
    ret (FileSent 404 (lit "Bu endpoint local depolama icindir."))
  else
    let fileName := Path.basename fileName_param in
    let token := query_token token_param in
    fun w =>
      match findEventById cfg net eventId w with
      | (inl error, w') => (inr (FileUnhandled error), w')
      | (inr None, w') => (inr (FileSent 403 (lit "Yetkisiz erisim.")), w')
      | (inr (Some event), w') =>
          if negb (bool_decide (adminToken event = token)) then
            (inr (FileSent 403 (lit "Yetkisiz erisim.")), w')
          else
            let filePath := Path.join [UPLOADS_DIR cfg; eventId; fileName] in
            if negb (existsSync (disk w') filePath) then
              (inr (FileSent 404 (lit "Dosya bulunamadi.")), w')
            else (inr (FileServed filePath), w')
      end.

End AdminRoutes.

(** ** Predicates used to state the properties of the other routes *)

(** What [encodeURIComponent] can produce: an unreserved character, a
    percent sign or an upper-case hexadecimal digit. *)
Definition uri_safe (c : N) : bool :=
  uri_unreserved c || (c =? CHAR_PERCENT)
  || ((48 <=? c) && (c <=? 57)) || ((65 <=? c) && (c <=? 70)).

Definition is_lower_hex (c : N) : bool :=
  ((48 <=? c) && (c <=? 57)) || ((97 <=? c) && (c <=? 102)).

Section RejectionSpec.
Context (cfg : config).

(** A file the middleware refuses: not an image or a video, or one that
    reaches the size limit. *)
Definition refused_file (file : incoming) : bool :=
  negb (validType (in_mimetype file)) || reaches_limit cfg (in_data file).

(** A batch the route refuses: no file, too many files, or a refused
    file. *)
Definition refused_batch (parts : list incoming) : Prop :=
  parts = []
  \/ (MAX_FILES_PER_REQUEST cfg < length parts)%nat
  \/ Exists (fun file => refused_file file = true) parts.

End RejectionSpec.

(** What holds of the loop variables of [path.basename] when the code
    units from position [k] on have been visited. *)
Definition base_inv (path : jsstring) (k : nat) (st : Path.base_state) : Prop :=
  Path.b_start st = 0%Z
  /\ (Path.b_matchedSlash st = true -> Path.b_end st = (-1)%Z)
  /\ (Path.b_end st <> (-1)%Z ->
      (Z.of_nat k <= Path.b_end st <= Z.of_nat (length path))%Z
      /\ forall j : nat, (k <= j)%nat -> (Z.of_nat j < Path.b_end st)%Z ->
           path !! j <> Some CHAR_FORWARD_SLASH).

Definition base_final (path : jsstring) (st : Path.base_state) : Prop :=
  Path.b_end st <> (-1)%Z ->
  (0 <= Path.b_start st)%Z
  /\ forall j : nat, (Path.b_start st <= Z.of_nat j < Path.b_end st)%Z ->
       path !! j <> Some CHAR_FORWARD_SLASH.

(** ** Predicates used to state the properties of event creation *)

(** The event [createEventRecord] builds from the [k]-th identifier draw
    and the [t]-th token draw. *)
Definition event_of (fields : event_fields) (rnd : event_entropy) (k t : nat) : event :=
  {| ev_id := generateShortId (id_draw rnd k);
     eventName := f_eventName fields;
     eventDate := f_eventDate fields;
     ownerName := f_ownerName fields;
     adminToken := toString_hex (randomBytes 16 (token_draw rnd t));
     createdAt := createdAt_now rnd |}.

(** The insert of attempt [k] is answered with a unique violation: the
    service says so, or the drawn identifier is taken. *)
Definition refused_as_duplicate (faults : event_insert_faults) (rnd : event_entropy)
    (w : world) (k : nat) : Prop :=
  (exists e, faults k = Some e /\ pg_code e = lit "23505")
  \/ (faults k = None
      /\ has_id (generateShortId (id_draw rnd k)) (sb_events (cloud w)) = true).

(** The events the active backend holds, as [findEventById] returns
    them. *)
Definition known_events (cfg : config) (w : world) : list event :=
  if USING_SUPABASE cfg
  then map (of_event_row (sb_timestamptz (cloud w))) (sb_events (cloud w))
  else stored_events w.

(** A write of the local database file that failed after the file was
    opened, in a run from [w] to [w']: the file is left without content,
    and the remote tables are as they were. *)
Definition database_emptied (cfg : config) (w w' : world) : Prop :=
  USING_SUPABASE cfg = false
  /\ (exists failure,
        db_write_error (disk w) = Some failure /\ file_opened failure = true)
  /\ db_file (disk w') = Some Unparseable
  /\ sb_events (cloud w') = sb_events (cloud w)
  /\ sb_uploads (cloud w') = sb_uploads (cloud w).

(** A world whose database file holds no event, on a disk where every
    identifier the sample draws is free. *)
Definition sample_event_entropy : event_entropy :=
  {| createdAt_now := lit "2024-05-01T09:00:00.000Z";
     id_draw := fun k => 11211469 + N.of_nat k;
     token_draw := fun k => 1311768467463790320 + N.of_nat k |}.

(** Draws that repeat the identifier of [sample_event] twice before a
    new one comes. *)
Definition colliding_entropy : event_entropy :=
  {| createdAt_now := lit "2024-05-01T09:00:00.000Z";
     id_draw := fun k => if (k <? 2)%nat then 11211469 else 11211470;
     token_draw := fun k => 1311768467463790320 + N.of_nat k |}.

Definition sample_fields : event_fields :=
  {| f_eventName := lit "Nisan"; f_eventDate := lit "2024-05-01";
     f_ownerName := lit "Ali" |}.

Definition no_insert_faults : event_insert_faults := fun _ => None.

(** A remote database that answers every insert with a unique
    violation. *)
Definition always_duplicate : event_insert_faults := fun _ => Some unique_violation.

(** The world after [event] was added to the remote [events] table. *)
Definition with_remote_event (w : world) (event : event) : world :=
  {| disk := disk w;
     cloud := {| sb_events := sb_events (cloud w) ++ [to_event_row event];
                 sb_uploads := sb_uploads (cloud w);
                 sb_bucket := sb_bucket (cloud w);
                 sb_timestamptz := sb_timestamptz (cloud w) |};
     log := log w |}.

Definition exhausted_error : thrown :=
  ErrorInstance (lit "Etkinlik olusturulamadi, tekrar dene.").

(** The metadata of both backends: the events and upload records of the
    local database file and the rows of the two remote tables. *)
Definition metadata_of (w : world)
    : list event * list upload * list event_row * list upload_row :=
  (stored_events w, stored_uploads w, sb_events (cloud w), sb_uploads (cloud w)).

(** The metadata after [records] were committed to the active backend. *)
Definition metadata_with (cfg : config) (w : world) (records : list upload)
    : list event * list upload * list event_row * list upload_row :=
  if USING_SUPABASE cfg then
    (stored_events w, stored_uploads w, sb_events (cloud w),
     sb_uploads (cloud w) ++ map to_row records)
  else
    (stored_events w, stored_uploads w ++ records, sb_events (cloud w),
     sb_uploads (cloud w)).

(** ** The pages of an event *)

Inductive page_result :=
| PageSent (status : nat) (text : jsstring)
| CreatedPage (event : event) (joinUrl adminUrl qrDataUrl token : jsstring)
| EventPage (event : event) (maxFileSizeMb : N)
| PagePassedOn (error : thrown).

Section PageRoutes.
Context (cfg : config) (net : supabase_faults).

(** [app.get("/created/:eventId", ...)] *)
Definition created_route (BASE_URL : option jsstring)
    (toDataURL : jsstring -> thrown + jsstring)
    (req : http_request) (eventId : jsstring) (token_param : jsval)
    : M page_result :=
  try_catch
    (let token := query_token token_param in
     let! event := findEventById cfg net eventId in
     match event with
     | None => ret (PageSent 403 (lit "Yetkisiz erisim."))
     | Some event =>
         if negb (bool_decide (adminToken event = token)) then
           ret (PageSent 403 (lit "Yetkisiz erisim."))
         else
           let baseUrl := getBaseUrl BASE_URL req in
           let joinUrl := baseUrl ++ lit "/e/" ++ eventId in
           let adminUrl :=
             baseUrl ++ lit "/admin/" ++ eventId ++ lit "?token=" ++ token in
           match toDataURL joinUrl with
           | inl error => throw error
           | inr qrDataUrl =>
               ret (CreatedPage event joinUrl adminUrl qrDataUrl token)
           end
     end)
    (fun error => ret (PagePassedOn error)).

(** [app.get("/e/:eventId", ...)] *)
Definition event_route (eventId : jsstring) : M page_result :=
  try_catch
    (let! event := findEventById cfg net eventId in
     match event with
     | None => ret (PageSent 404 (lit "Etkinlik bulunamadi."))
     | Some event => ret (EventPage event (MAX_FILE_SIZE_MB cfg))
     end)
    (fun error => ret (PagePassedOn error)).

End PageRoutes.

(** [eventId] names [event], one of the known events, and [token_param]
    carries its admin token. *)
Definition authorized (cfg : config) (w : world) (eventId : jsstring)
    (token_param : jsval) (event : event) : Prop :=
  List.find (fun e => bool_decide (ev_id e = eventId)) (known_events cfg w) = Some event
  /\ ev_id event = eventId
  /\ adminToken event = query_token token_param.

(** The upload records the active backend holds for an event, as
    [listUploadsForEvent] selects them. *)
Definition selected_uploads (cfg : config) (w : world) (eventId' : jsstring)
    : list upload :=
  if USING_SUPABASE cfg then
    map (of_row (sb_timestamptz (cloud w)))
        (List.filter (fun row => bool_decide (event_id row = eventId'))
                     (sb_uploads (cloud w)))
  else
    map with_storagePath
      (List.filter (fun item => bool_decide (eventId item = eventId'))
                   (stored_uploads w)).

(** What a download response carries of the archive: its file name and
    the entries appended to it. *)
Definition disclosed (r : download_result) : option (jsstring * list archive_entry) :=
  match r with
  | ZipStream zipFileName entries => Some (zipFileName, entries)
  | ZipBroken zipFileName entries _ => Some (zipFileName, entries)
  | _ => None
  end.

(** A local installation whose event has two uploads, the files of which
    are not on disk. *)
Definition gallery_world : world :=
  {| disk := {| db_file := Some (Stored {| events := [sample_event];
                                          uploads := export_uploads |});
                db_write_error := None;
                files := ∅;
                directories := {[ lit "/srv/app/uploads" ]} |};
     cloud := {| sb_events := [to_event_row sample_event]; sb_uploads := [];
                 sb_bucket := ∅; sb_timestamptz := utc_rendering |};
     log := [] |}.

Definition sample_token : jsval := JSString (lit "00112233445566778899aabbccddeeff").

Definition sample_http : http_request :=
  {| protocol := lit "https"; host := Some (lit "dugun.example") |}.

(** A QR encoder that answers every text. *)
Definition sample_qr (text : jsstring) : thrown + jsstring :=
  inr (lit "data:image/png;base64," ++ text).

(** A remote service that signs no path. *)
Definition signs_nothing (paths : list (option jsstring)) : signed_batch :=
  {| batch_data := None; batch_error := None |}.

(** A remote service that stores the first object of a sample request
    and rejects every other write. *)
Definition second_write_rejected : supabase_faults :=
  {| select_event_error := None;
     select_uploads_error := None;
     storage_upload_error := fun key =>
       if bool_decide (key = sample_key) then None
       else Some (ErrorInstance (lit "Payload too large"));
     insert_uploads_error := None;
     storage_remove_fails := fun _ => false |}.

(** * Properties *)

(** ** Sanity checks of the runtime model *)

Example extname_photo : Path.extname (lit "photo.jpg") = lit ".jpg".
Proof. reflexivity. Qed.
Example extname_hidden : Path.extname (lit ".bashrc") = [].
Proof. reflexivity. Qed.
Example extname_trailing_dot : Path.extname (lit "file.") = lit ".".
Proof. reflexivity. Qed.
Example extname_dotdot : Path.extname (lit "a/..") = [].
Proof. reflexivity. Qed.
Example extname_dir : Path.extname (lit "a.b/c.tar.gz/") = lit ".gz".
Proof. reflexivity. Qed.
Example basename_dir : Path.basename (lit "/a/b/c.txt//") = lit "c.txt".
Proof. reflexivity. Qed.
Example join_up : Path.join [lit "/srv/uploads"; lit "ab12cd"; lit "../x.png"] = lit "/srv/uploads/x.png".
Proof. reflexivity. Qed.
Example extname_html : Path.extname (lit "index.html") = lit ".html".
Proof. reflexivity. Qed.
Example extname_two : Path.extname (lit "index.coffee.md") = lit ".md".
Proof. reflexivity. Qed.
Example extname_none : Path.extname (lit "index") = [].
Proof. reflexivity. Qed.
Example extname_dot_first : Path.extname (lit ".index.md") = lit ".md".
Proof. reflexivity. Qed.
Example extname_backslash : Path.extname (lit "a.b\..\c") = lit ".\c".
Proof. reflexivity. Qed.
Example basename_docs :
  Path.basename (lit "/foo/bar/baz/asdf/quux.html") = lit "quux.html".
Proof. reflexivity. Qed.
Example join_docs :
  Path.join [lit "/foo"; lit "bar"; lit "baz/asdf"; lit "quux"; lit ".."]
  = lit "/foo/bar/baz/asdf".
Proof. reflexivity. Qed.
Example normalize_docs :
  Path.normalize (lit "/foo/bar//baz/asdf/quux/..") = lit "/foo/bar/baz/asdf".
Proof. reflexivity. Qed.
Example normalize_relative : Path.normalize (lit "a/../../b/") = lit "../b/".
Proof. reflexivity. Qed.
Example sanitizeText_trims :
  sanitizeText (JSString (lit "  Mehmet Can ")) 6 = lit "Mehmet".
Proof. reflexivity. Qed.
Example join_plain : Path.join [lit "/srv/uploads"; lit "ab12cd"; lit "1-u.png"] = lit "/srv/uploads/ab12cd/1-u.png".
Proof. reflexivity. Qed.
Example entry_name_photo :
  buildArchiveEntryName (H := ascii_runtime)
    (sample_upload "photo.jpg" "1700000000000-u.jpg" "image/jpeg") 1
  = lit "002-photo.jpg".
Proof. reflexivity. Qed.
Example entry_name_mime :
  buildArchiveEntryName (H := ascii_runtime)
    (sample_upload "my clip" "1700000000000-u" "video/mp4") 0
  = lit "001-my-clip.mp4".
Proof. reflexivity. Qed.
Example entry_name_key_ext :
  buildArchiveEntryName (H := ascii_runtime)
    (sample_upload ".hidden" "1700000000000-u.hidden" "image/png") 1233
  = lit "1234-.hidden.hidden".
Proof. reflexivity. Qed.
Example sanitize_spaces :
  sanitizeArchiveName (H := ascii_runtime) (JSString (lit "--hello   world!!.PNG--"))
  = lit "hello-world-.PNG".
Proof. reflexivity. Qed.

(** ** The filename sanitizer *)

Section SanitizerFacts.
Context `{Runtime}.

Lemma replace_unsafe_runs_safe b s :
  Forall (fun c => is_safe_char c = true) (replace_unsafe_runs b s).
Proof.
  revert b; induction s as [|c r IH]; intros b; simpl; [constructor|].
  destruct (is_safe_char c) eqn:Hc.
  - constructor; [exact Hc | apply IH].
  - destruct b; [apply IH | constructor; [reflexivity | apply IH]].
Qed.

Lemma collapse_dashes_safe b s :
  Forall (fun c => is_safe_char c = true) s ->
  Forall (fun c => is_safe_char c = true) (collapse_dashes b s).
Proof.
  intros Hs; revert b; induction Hs as [|c r Hc _ IH]; intros b; simpl;
    [constructor|].
  destruct (c =? CHAR_DASH); [destruct b|]; try constructor; auto.
Qed.

Lemma collapse_dashes_head s :
  head (collapse_dashes true s) <> Some CHAR_DASH.
Proof.
  induction s as [|c r IH]; simpl; [discriminate|].
  destruct (c =? CHAR_DASH) eqn:Hc; [exact IH|].
  simpl; intros [= ->]; discriminate.
Qed.

Lemma has_double_dash_cons c s :
  has_double_dash (c :: s)
  = (match s with
     | b :: _ => (c =? CHAR_DASH) && (b =? CHAR_DASH)
     | [] => false
     end) || has_double_dash s.
Proof. destruct s; reflexivity. Qed.

Lemma has_double_dash_cons2 c d t :
  has_double_dash (c :: d :: t)
  = ((c =? CHAR_DASH) && (d =? CHAR_DASH)) || has_double_dash (d :: t).
Proof. reflexivity. Qed.

Lemma collapse_dashes_no_double b s :
  has_double_dash (collapse_dashes b s) = false.
Proof.
  revert b; induction s as [|c r IH]; intros b; [reflexivity|].
  simpl collapse_dashes. destruct (c =? CHAR_DASH) eqn:Hc.
  - destruct b; [apply IH|].
    rewrite has_double_dash_cons, IH.
    pose proof (collapse_dashes_head r) as Hh.
    destruct (collapse_dashes true r) as [|d t]; [reflexivity|].
    simpl. destruct (d =? CHAR_DASH) eqn:Hd; [|reflexivity].
    apply N.eqb_eq in Hd; subst d. exfalso; apply Hh; reflexivity.
  - rewrite has_double_dash_cons, IH, Hc.
    destruct (collapse_dashes false r); reflexivity.
Qed.

Lemma strip_leading_dash_head s :
  has_double_dash s = false ->
  head (strip_leading_dash s) <> Some CHAR_DASH.
Proof.
  destruct s as [|c r]; [simpl; discriminate|].
  intros Hd. cbn [strip_leading_dash].
  destruct (c =? CHAR_DASH) eqn:Hc.
  - intros Hr. destruct r as [|d t]; [discriminate|].
    cbn [head] in Hr. injection Hr as ->.
    rewrite has_double_dash_cons, Hc in Hd. discriminate.
  - cbn [head]. intros [= ->]. discriminate.
Qed.

Lemma strip_leading_dash_no_double s :
  has_double_dash s = false -> has_double_dash (strip_leading_dash s) = false.
Proof.
  destruct s as [|c r]; [auto|]. cbn [strip_leading_dash].
  destruct (c =? CHAR_DASH); [|auto].
  rewrite has_double_dash_cons. intros Hd.
  apply orb_false_iff in Hd. apply Hd.
Qed.

Lemma strip_leading_dash_safe s :
  Forall (fun c => is_safe_char c = true) s ->
  Forall (fun c => is_safe_char c = true) (strip_leading_dash s).
Proof.
  intros Hs. destruct Hs as [|c r Hc Hr]; [constructor|].
  cbn [strip_leading_dash].
  destruct (c =? CHAR_DASH); [exact Hr | constructor; assumption].
Qed.

Lemma strip_trailing_dash_cons c d t :
  strip_trailing_dash (c :: d :: t) = c :: strip_trailing_dash (d :: t).
Proof. reflexivity. Qed.

Lemma strip_trailing_dash_safe s :
  Forall (fun c => is_safe_char c = true) s ->
  Forall (fun c => is_safe_char c = true) (strip_trailing_dash s).
Proof.
  induction s as [|c [|d t] IH]; intros Hs; [constructor| |].
  - simpl. destruct (c =? CHAR_DASH); [constructor | exact Hs].
  - rewrite strip_trailing_dash_cons. inversion Hs; subst.
    constructor; auto.
Qed.

Lemma strip_trailing_dash_head s :
  head s <> Some CHAR_DASH -> head (strip_trailing_dash s) <> Some CHAR_DASH.
Proof.
  destruct s as [|c [|d t]]; simpl; [auto| |auto].
  destruct (c =? CHAR_DASH); [discriminate | auto].
Qed.

Lemma strip_trailing_dash_no_double s :
  has_double_dash s = false -> has_double_dash (strip_trailing_dash s) = false.
Proof.
  induction s as [|c [|d t] IH]; intros Hd; [reflexivity| |].
  - simpl. destruct (c =? CHAR_DASH); reflexivity.
  - rewrite strip_trailing_dash_cons, has_double_dash_cons.
    rewrite has_double_dash_cons2 in Hd. apply orb_false_iff in Hd as [Hcd Hr].
    rewrite (IH Hr), orb_false_r.
    destruct t as [|e t'].
    + cbn [strip_trailing_dash].
      destruct (d =? CHAR_DASH) eqn:Hdd; [reflexivity|].
      rewrite Hdd. exact Hcd.
    + rewrite strip_trailing_dash_cons. exact Hcd.
Qed.

Lemma strip_trailing_dash_last s :
  has_double_dash s = false -> last (strip_trailing_dash s) <> Some CHAR_DASH.
Proof.
  induction s as [|c [|d t] IH]; intros Hd; [discriminate| |].
  - simpl. destruct (c =? CHAR_DASH) eqn:Hc; [discriminate|].
    simpl. intros [= ->]. discriminate.
  - rewrite strip_trailing_dash_cons.
    rewrite has_double_dash_cons2 in Hd. apply orb_false_iff in Hd as [Hcd Hr].
    specialize (IH Hr).
    destruct (strip_trailing_dash (d :: t)) as [|e r] eqn:Hs.
    + destruct t as [|e t']; [|discriminate Hs].
      cbn [strip_trailing_dash] in Hs.
      destruct (d =? CHAR_DASH) eqn:Hdd; [|discriminate Hs].
      rewrite andb_true_r in Hcd.
      cbn [last]. intros [= ->]. discriminate.
    + exact IH.
Qed.

Lemma take_head n (s : jsstring) :
  head s <> Some CHAR_DASH -> head (take n s) <> Some CHAR_DASH.
Proof. destruct n, s; simpl; auto; discriminate. Qed.

Lemma take_no_double n s :
  has_double_dash s = false -> has_double_dash (take n s) = false.
Proof.
  revert n; induction s as [|c r IH]; intros n Hd; [destruct n; reflexivity|].
  destruct n as [|n]; [reflexivity|].
  change (take (S n) (c :: r)) with (c :: take n r).
  rewrite has_double_dash_cons in Hd. apply orb_false_iff in Hd as [Hcd Hr].
  rewrite has_double_dash_cons, (IH _ Hr), orb_false_r.
  destruct r as [|d t]; [destruct n; reflexivity|].
  destruct n; [reflexivity | exact Hcd].
Qed.

Lemma placeholder_facts :
  Forall (fun c => is_safe_char c = true) placeholder
  /\ has_double_dash placeholder = false
  /\ head placeholder <> Some CHAR_DASH
  /\ last placeholder <> Some CHAR_DASH
  /\ length placeholder = 5%nat.
Proof. repeat split; try discriminate. repeat constructor. Qed.

Lemma sanitizeArchiveName_string value :
  sanitizeArchiveName (JSString value)
  = match take 80 (trimmed value) with
    | [] => placeholder
    | c :: r => c :: r
    end.
Proof. unfold sanitizeArchiveName, trimmed. destruct (take 80 _); reflexivity. Qed.

Lemma trimmed_facts value :
  Forall (fun c => is_safe_char c = true) (trimmed value)
  /\ has_double_dash (trimmed value) = false
  /\ head (trimmed value) <> Some CHAR_DASH
  /\ last (trimmed value) <> Some CHAR_DASH.
Proof.
  unfold trimmed, trim_dashes.
  set (s := collapse_dashes false _).
  assert (Hs : Forall (fun c => is_safe_char c = true) s)
    by apply collapse_dashes_safe, replace_unsafe_runs_safe.
  assert (Hd : has_double_dash s = false) by apply collapse_dashes_no_double.
  repeat split.
  - apply strip_trailing_dash_safe, strip_leading_dash_safe, Hs.
  - apply strip_trailing_dash_no_double, strip_leading_dash_no_double, Hd.
  - apply strip_trailing_dash_head, strip_leading_dash_head, Hd.
  - apply strip_trailing_dash_last, strip_leading_dash_no_double, Hd.
Qed.

(** What the sanitizer guarantees for every input. *)
Lemma sanitizeArchiveName_facts (value : jsval) :
  let out := sanitizeArchiveName value in
  out <> []
  /\ (length out <= 80)%nat
  /\ Forall (fun c => is_safe_char c = true) out
  /\ has_double_dash out = false
  /\ head out <> Some CHAR_DASH
  /\ (last out = Some CHAR_DASH -> length out = 80%nat).
Proof.
  destruct placeholder_facts as (Ps & Pd & Ph & Pl & Pn).
  assert (Hp : placeholder <> [] /\ (length placeholder <= 80)%nat
               /\ Forall (fun c => is_safe_char c = true) placeholder
               /\ has_double_dash placeholder = false
               /\ head placeholder <> Some CHAR_DASH
               /\ (last placeholder = Some CHAR_DASH -> length placeholder = 80%nat)).
  { repeat split; auto; try discriminate. rewrite Pn; lia. }
  destruct value as [| | | |value|]; try exact Hp.
  cbv zeta. rewrite sanitizeArchiveName_string.
  destruct (trimmed_facts value) as (Ts & Td & Th & Tl).
  destruct (take 80 (trimmed value)) as [|c r] eqn:Ht; [exact Hp|].
  rewrite <- Ht. repeat split.
  - rewrite Ht; discriminate.
  - rewrite length_take; lia.
  - apply Forall_take, Ts.
  - apply take_no_double, Td.
  - apply take_head, Th.
  - intros Hl. destruct (Nat.le_gt_cases (length (trimmed value)) 80) as [Hle|Hgt].
    + rewrite take_ge in Hl by exact Hle. contradiction.
    + rewrite length_take; lia.
Qed.

End SanitizerFacts.

(** ** Decimal numerals and padding *)

Lemma uint_codes_digits d : Forall (fun c => is_digit c = true) (uint_codes d).
Proof. induction d; simpl; constructor; auto. Qed.

Lemma decimal_value_acc d acc :
  fold_left (fun a c => 10 * a + N.to_nat (c - CHAR_ZERO))%nat (uint_codes d) acc
  = Nat.of_uint_acc d acc.
Proof.
  revert acc; induction d; intros acc; cbn [uint_codes fold_left Nat.of_uint_acc];
    try reflexivity; rewrite IHd, Nat.tail_mul_spec; f_equal;
    change CHAR_ZERO with 48;
    match goal with |- (_ + N.to_nat ?x)%nat = _ =>
      let v := eval vm_compute in (N.to_nat x) in change (N.to_nat x) with v
    end; lia.
Qed.

Lemma decimal_value_string_of_nat n : decimal_value (string_of_nat n) = n.
Proof.
  unfold decimal_value, string_of_nat. rewrite decimal_value_acc.
  apply DecimalNat.Unsigned.of_to.
Qed.

Lemma decimal_value_zeros k s :
  decimal_value (repeat CHAR_ZERO k ++ s) = decimal_value s.
Proof.
  unfold decimal_value. rewrite fold_left_app. f_equal.
  induction k as [|k IH]; [reflexivity | exact IH].
Qed.

Lemma pad_fill_zero n rest :
  rest = [] \/ rest = [CHAR_ZERO] ->
  pad_fill n [CHAR_ZERO] rest = repeat CHAR_ZERO n.
Proof.
  revert rest; induction n as [|n IH]; intros rest Hr; [reflexivity|].
  destruct Hr as [-> | ->]; cbn [pad_fill repeat]; f_equal; apply IH; auto.
Qed.

Lemma entry_prefix_unfold index :
  entry_prefix index
  = repeat CHAR_ZERO (3 - length (string_of_nat (index + 1)))
      ++ string_of_nat (index + 1).
Proof.
  unfold entry_prefix, padStart. change (lit "0") with [CHAR_ZERO].
  rewrite pad_fill_zero by auto. reflexivity.
Qed.

Lemma entry_prefix_value index : decimal_value (entry_prefix index) = (index + 1)%nat.
Proof.
  rewrite entry_prefix_unfold, decimal_value_zeros.
  apply decimal_value_string_of_nat.
Qed.

Lemma entry_prefix_digits index :
  Forall (fun c => is_digit c = true) (entry_prefix index).
Proof.
  rewrite entry_prefix_unfold. apply Forall_app; split.
  - apply Forall_forall. intros c Hc. apply list_elem_of_In, repeat_spec in Hc.
    subst c. reflexivity.
  - apply uint_codes_digits.
Qed.

Lemma entry_prefix_length index : (3 <= length (entry_prefix index))%nat.
Proof.
  rewrite entry_prefix_unfold, length_app, repeat_length. lia.
Qed.

Lemma digits_then_dash_inj (p1 p2 r1 r2 : jsstring) :
  Forall (fun c => is_digit c = true) p1 ->
  Forall (fun c => is_digit c = true) p2 ->
  p1 ++ CHAR_DASH :: r1 = p2 ++ CHAR_DASH :: r2 ->
  p1 = p2.
Proof.
  intros H1; revert p2; induction H1 as [|c p1 Hc _ IH]; intros p2 H2 Heq.
  - destruct H2 as [|d p2 Hd _]; [reflexivity|].
    injection Heq as <- _. discriminate Hd.
  - destruct H2 as [|d p2 Hd H2].
    + injection Heq as -> _. discriminate Hc.
    + injection Heq as -> Heq. f_equal. eapply IH; eauto.
Qed.

(** ** Archive entry names *)

Section EntryNameFacts.
Context `{Runtime}.

Lemma buildArchiveEntryName_shape upload index :
  exists rest,
    buildArchiveEntryName upload index = entry_prefix index ++ CHAR_DASH :: rest.
Proof.
  unfold buildArchiveEntryName.
  destruct (Path.extname (sanitizeArchiveName _)); eexists; reflexivity.
Qed.

Lemma validType_not_inherited m :
  validType m = true ->
  inherited_property object_prototype_members m = None.
Proof.
  intros Hv. unfold object_prototype_members. cbn [inherited_property].
  repeat (case_bool_decide;
          [subst m; vm_compute in Hv; discriminate Hv|]).
  reflexivity.
Qed.

Lemma getExtensionFromMime_table mime :
  (forall m, mime = Some m -> validType m = true) ->
  to_string (getExtensionFromMime mime)
  = default [] (own_property extensions (default [] mime)).
Proof.
  intros Hm. unfold getExtensionFromMime.
  destruct (own_property extensions (default [] mime)) as [ext|]; [reflexivity|].
  destruct mime as [m|]; [|reflexivity].
  cbn [default]. rewrite validType_not_inherited by auto. reflexivity.
Qed.

(** C4: the entry name of the record at 0-based position [index] is the
    decimal numeral of [index + 1], left-padded with zeros to at least
    three digits, a dash, and the sanitized original filename; when the
    sanitized name has no extension it is followed by the storage key's
    extension, else by the extension the content-type table gives (for
    instance [.mp4] for [video/mp4]), else by nothing. *)
Theorem buildArchiveEntryName_spec (upload : upload) (index : nat)
    (name : jsstring) :
  originalName upload = Some name ->
  name <> [] ->
  (forall m, mimeType upload = Some m -> validType m = true) ->
  let digits := string_of_nat (index + 1) in
  let prefix := repeat CHAR_ZERO (3 - length digits) ++ digits in
  let safeName := sanitizeArchiveName (JSString name) in
  buildArchiveEntryName upload index
  = prefix ++ lit "-" ++ safeName
      ++ appended_extension safeName (or_else (storagePath upload) [])
           (mimeType upload)
  /\ decimal_value digits = (index + 1)%nat
  /\ Forall (fun c => is_digit c = true) prefix
  /\ (3 <= length prefix)%nat
  /\ own_property extensions (lit "video/mp4") = Some (lit ".mp4").
Proof.
  intros Hname Hne Hmime digits prefix safeName.
  assert (Hp : entry_prefix index = prefix) by apply entry_prefix_unfold.
  split; [|split; [|split; [|split]]].
  - unfold buildArchiveEntryName, appended_extension. rewrite Hname, Hp.
    destruct name as [|c s]; [contradiction|]. cbn [or_else].
    fold safeName.
    destruct (Path.extname safeName) as [|e1 ext1].
    + destruct (Path.extname (or_else (storagePath upload) [])) as [|e2 ext2].
      * rewrite getExtensionFromMime_table by exact Hmime. reflexivity.
      * reflexivity.
    + rewrite app_nil_r. reflexivity.
  - apply decimal_value_string_of_nat.
  - rewrite <- Hp. apply entry_prefix_digits.
  - rewrite <- Hp. apply entry_prefix_length.
  - reflexivity.
Qed.

(** C5: within one export the entry names of two different positions
    differ, whatever the two records are (equal original filenames
    included). *)
Theorem buildArchiveEntryName_injective (u1 u2 : upload) (i j : nat) :
  i <> j -> buildArchiveEntryName u1 i <> buildArchiveEntryName u2 j.
Proof.
  intros Hij Heq.
  destruct (buildArchiveEntryName_shape u1 i) as [r1 H1].
  destruct (buildArchiveEntryName_shape u2 j) as [r2 H2].
  rewrite H1, H2 in Heq.
  apply digits_then_dash_inj in Heq; try apply entry_prefix_digits.
  apply (f_equal decimal_value) in Heq.
  rewrite !entry_prefix_value in Heq. lia.
Qed.

End EntryNameFacts.

Lemma buildArchiveEntryName_spec_witness :
  buildArchiveEntryName (H := ascii_runtime)
    (sample_upload "my clip" "1700000000000-u" "video/mp4") 0
  = lit "001-my-clip.mp4".
Proof.
  pose proof (buildArchiveEntryName_spec (H := ascii_runtime)
    (sample_upload "my clip" "1700000000000-u" "video/mp4") 0 (lit "my clip")
    eq_refl) as Hs.
  cbv zeta in Hs.
  destruct Hs as [Hs _].
  - discriminate.
  - intros m [= <-]. reflexivity.
  - rewrite Hs. reflexivity.
Defined.

Lemma buildArchiveEntryName_injective_witness :
  buildArchiveEntryName (H := ascii_runtime)
    (sample_upload "photo.jpg" "1700000000000-a.jpg" "image/jpeg") 0
  <> buildArchiveEntryName (H := ascii_runtime)
    (sample_upload "photo.jpg" "1700000000001-b.jpg" "image/jpeg") 1.
Proof.
  apply (buildArchiveEntryName_injective (H := ascii_runtime)). lia.
Defined.

Example randomUUID_zero :
  randomUUID 0 = lit "00000000-0000-4000-8000-000000000000".
Proof. reflexivity. Qed.

Example randomUUID_ones :
  randomUUID (2 ^ 128 - 1) = lit "ffffffff-ffff-4fff-bfff-ffffffffffff".
Proof. vm_compute. reflexivity. Qed.

(** ** Storage keys *)

Section ExtnameFacts.
Variable path : jsstring.

Lemma ext_inv_final k st : ext_inv path k st -> ext_final path st.
Proof.
  intros (Hm & He & Hend & Hdot) Hs Hen.
  destruct (Hend Hen) as [Hb Hj]. specialize (Hdot Hs).
  split; [lia|]. intros j Hr. apply Hj; lia.
Qed.

Lemma extname_loop_inv k st :
  (k <= length path)%nat ->
  ext_inv path k st ->
  ext_final path (Path.extname_loop (rev (take k path)) (Z.of_nat k - 1) st).
Proof.
  revert st; induction k as [|k IH]; intros st Hk Hinv.
  - rewrite take_0. simpl. eapply ext_inv_final; eauto.
  - destruct (lookup_lt_is_Some_2 path k) as [c Hc]; [lia|].
    rewrite (take_S_r _ _ _ Hc), rev_app_distr.
    cbn [rev app Path.extname_loop].
    replace (Z.of_nat (S k) - 1 - 1)%Z with (Z.of_nat k - 1)%Z by lia.
    replace (Z.of_nat (S k) - 1)%Z with (Z.of_nat k) by lia.
    destruct Hinv as (Hm & He & Hend & Hdot).
    destruct (N.eqb_spec c CHAR_FORWARD_SLASH) as [Hslash|Hslash].
    + destruct (Path.matchedSlash st) eqn:Hms; cbn [negb].
      * apply IH; [lia|]. specialize (Hm eq_refl). pose proof (He Hm) as Hsd.
        repeat split; intros; congruence.
      * intros Hs Hen. cbn [Path.startDot Path.end_] in *.
        destruct (Hend Hen) as [Hb Hj]. specialize (Hdot Hs).
        split; [lia|]. intros j Hr. apply Hj; lia.
    + apply IH; [lia|].
      assert (Hnew : forall j : nat, (k <= j)%nat -> (Z.of_nat j < Z.of_nat k + 1)%Z ->
                      path !! j <> Some CHAR_FORWARD_SLASH).
      { intros j H1 H2. assert (j = k) by lia. subst j. rewrite Hc. congruence. }
      assert (Hold : Path.end_ st <> (-1)%Z ->
                     forall j : nat, (k <= j)%nat -> (Z.of_nat j < Path.end_ st)%Z ->
                      path !! j <> Some CHAR_FORWARD_SLASH).
      { intros Hen j H1 H2. destruct (Hend Hen) as [Hb Hj].
        destruct (Nat.eq_dec j k) as [->|Hne]; [rewrite Hc; congruence|].
        apply Hj; lia. }
      destruct (Z.eqb_spec (Path.end_ st) (-1)) as [Hen|Hen].
      * specialize (He Hen).
        destruct (c =? CHAR_DOT); cbn; rewrite ?He; cbn;
          unfold ext_inv; cbn;
          repeat split; intros; try congruence; try lia;
          try (apply Hnew; lia).
      * destruct (Hend Hen) as [Hb Hj].
        assert (Hms : Path.matchedSlash st = false).
        { destruct (Path.matchedSlash st); [exfalso; auto | reflexivity]. }
        destruct (c =? CHAR_DOT);
          [destruct (Z.eqb_spec (Path.startDot st) (-1)) as [Hs|Hs];
             [|destruct (negb (Path.preDotState st =? 1)%Z)]
          |destruct (Z.eqb_spec (Path.startDot st) (-1)) as [Hs|Hs]; cbn [negb]];
          unfold ext_inv; cbn;
          repeat split; intros; try congruence; try lia;
          try (apply Hold; [assumption | lia | lia]);
          try (specialize (Hdot ltac:(assumption)); lia).
Qed.

Lemma extname_no_slash :
  Forall (fun c => c <> CHAR_FORWARD_SLASH) (Path.extname path).
Proof.
  unfold Path.extname.
  set (st := Path.extname_loop _ _ _).
  assert (Hf : ext_final path st).
  { pose proof (extname_loop_inv (length path) Path.ext_init (le_n _)) as Hloop.
    rewrite firstn_all in Hloop. apply Hloop.
    unfold ext_inv, Path.ext_init; cbn; repeat split; intros; congruence. }
  destruct (Z.eqb_spec (Path.startDot st) (-1)) as [Hs|Hs]; [constructor|].
  destruct (Z.eqb_spec (Path.end_ st) (-1)) as [He|He]; [constructor|].
  cbn [orb]. destruct (_ || _); [constructor|].
  destruct (Hf Hs He) as [H0 Hj].
  apply Forall_forall. intros c Hin Hc. subst c.
  apply list_elem_of_lookup in Hin as [i Hi].
  unfold slice in Hi. apply lookup_take_Some in Hi as [Hi Hlt].
  rewrite lookup_drop in Hi.
  apply (Hj (Z.to_nat (Path.startDot st) + i)%nat); [lia | exact Hi].
Qed.

End ExtnameFacts.

Lemma digit_not_separator c :
  is_digit c = true -> c <> CHAR_FORWARD_SLASH /\ c <> CHAR_DOT.
Proof.
  unfold is_digit, CHAR_FORWARD_SLASH, CHAR_DOT. intros Hd.
  apply andb_true_iff in Hd as [H1 H2].
  apply N.leb_le in H1. apply N.leb_le in H2. lia.
Qed.

Lemma string_of_N_nonempty n : string_of_N n <> [].
Proof.
  unfold string_of_N.
  assert (Hn : N.to_uint n <> Decimal.Nil).
  { destruct n; [discriminate | apply DecimalPos.Unsigned.to_uint_nonnil]. }
  destruct (N.to_uint n); try discriminate. contradiction.
Qed.

Lemma hex_digit_not_slash n : hex_digit n <> CHAR_FORWARD_SLASH.
Proof.
  unfold hex_digit.
  assert (Ht : Forall (fun c => c <> CHAR_FORWARD_SLASH)
                      (CHAR_ZERO :: lit "0123456789abcdef")).
  { repeat constructor; discriminate. }
  rewrite Forall_forall in Ht. apply Ht.
  destruct (nth_in_or_default (N.to_nat (n mod 16)) (lit "0123456789abcdef") CHAR_ZERO)
    as [Hin | ->].
  - right. apply list_elem_of_In. exact Hin.
  - left.
Qed.

Lemma uuid_hex_no_slash bits from count :
  Forall (fun c => c <> CHAR_FORWARD_SLASH) (uuid_hex bits from count).
Proof.
  unfold uuid_hex. apply Forall_map, Forall_forall.
  intros k _. apply hex_digit_not_slash.
Qed.

Lemma randomUUID_no_slash bits :
  Forall (fun c => c <> CHAR_FORWARD_SLASH) (randomUUID bits).
Proof.
  unfold randomUUID.
  repeat (apply Forall_app; split);
    try apply uuid_hex_no_slash; repeat constructor; discriminate.
Qed.

Lemma generated_name_single_segment rnd originalname :
  single_segment (generated_name rnd originalname).
Proof.
  unfold single_segment, generated_name.
  pose proof (string_of_N_nonempty (now rnd)) as Hne.
  pose proof (uint_codes_digits (N.to_uint (now rnd))) as Hd.
  fold (string_of_N (now rnd)) in Hd.
  destruct (string_of_N (now rnd)) as [|d ds]; [contradiction|].
  inversion Hd as [|? ? Hd1 Hds]; subst.
  destruct (digit_not_separator d Hd1) as [Hs Hdot].
  repeat split.
  - discriminate.
  - intros [= -> _]. apply Hdot. reflexivity.
  - intros [= -> _]. apply Hdot. reflexivity.
  - rewrite <- app_comm_cons. constructor; [exact Hs|].
    apply Forall_app; split.
    + eapply Forall_impl; [exact Hds|]. intros c Hc. apply digit_not_separator, Hc.
    + apply Forall_app; split; [repeat constructor; discriminate|].
      apply Forall_app; split; [apply randomUUID_no_slash | apply extname_no_slash].
Qed.

Section StorageKeys.
Context `{Runtime} (cfg : config) (net : supabase_faults).

Lemma upload_files_keys eventId guestName uploadedAt rnd files :
  forall index created records w,
    exists written added err w',
      upload_files net eventId guestName uploadedAt rnd index files created records w
      = (inr (created ++ written, records ++ added, err), w')
      /\ map storagePath added = map Some written
      /\ log w' = log w ++ map Wrote written
      /\ (forall key, key ∉ written ->
            sb_bucket (cloud w') !! key = sb_bucket (cloud w) !! key)
      /\ forall i key,
           written !! i = Some key ->
           exists sent,
             files !! i = Some sent
             /\ key = eventId ++ lit "/"
                        ++ generated_name (rnd (index + i)%nat) (originalname sent).
Proof.
  induction files as [|file rest IH]; intros index created records w.
  - exists [], [], None, w. cbn [upload_files ret map]. rewrite !app_nil_r.
    split; [reflexivity|]. split; [reflexivity|]. split; [reflexivity|].
    split; [auto|]. intros i key Hi. discriminate.
  - cbn [upload_files].
    set (key := eventId ++ lit "/" ++ generated_name (rnd index) (originalname file)).
    unfold bind at 1, storage_upload.
    assert (Hstop : forall e : thrown,
      exists written added err w',
        (inr (created, records, Some e) : thrown + _, w)
        = (inr (created ++ written, records ++ added, err), w')
        /\ map storagePath added = map Some written
        /\ log w' = log w ++ map Wrote written
        /\ (forall key, key ∉ written ->
              sb_bucket (cloud w') !! key = sb_bucket (cloud w) !! key)
        /\ forall i key,
             written !! i = Some key ->
             exists sent,
               (file :: rest) !! i = Some sent
               /\ key = eventId ++ lit "/"
                          ++ generated_name (rnd (index + i)%nat) (originalname sent)).
    { intros e. exists [], [], (Some e), w. rewrite !app_nil_r.
      split; [reflexivity|]. split; [reflexivity|]. split; [reflexivity|].
      split; [auto|]. intros i k Hi. discriminate. }
    destruct (storage_upload_error net key) as [e|]; [apply Hstop|].
    destruct (sb_bucket (cloud w) !! key) eqn:Hfresh; [apply Hstop|].
    cbn [ret]. clear Hstop.
    match goal with
    | |- context [upload_files _ _ _ _ _ _ _ ?c (_ ++ [?r]) ?w1] =>
        destruct (IH (S index) c (records ++ [r]) w1)
          as (written & added & err & w' & Hrun & Hpaths & Hlog & Hother & Hkeys);
        exists (key :: written), (r :: added), err, w'
    end.
    rewrite Hrun, <- !app_assoc. split; [reflexivity|].
    split; [cbn [map storagePath]; rewrite Hpaths; reflexivity|].
    split; [rewrite Hlog; cbn [log map]; rewrite <- app_assoc; reflexivity|].
    split.
    + intros k Hk. apply not_elem_of_cons in Hk as [Hne Hk].
      rewrite (Hother k Hk). cbn [cloud sb_bucket]. apply lookup_insert_ne. congruence.
    + intros [|i] k Hi.
      * injection Hi as <-. exists file. rewrite Nat.add_0_r. split; reflexivity.
      * cbn in Hi. destruct (Hkeys i k Hi) as (sent & Hsent & Hk).
        exists sent. split; [exact Hsent|].
        replace (index + S i)%nat with (S index + i)%nat by lia. exact Hk.
Qed.

(** C8: whatever name the client gave the file, the storage name is the
    generated [timestamp-uuid] followed by the extension of the client's
    name; the extension holds no path separator and the storage name is
    one directory entry (not empty, not [.] or [..], no separator).  The
    disk engine stores the file under that name in the event's
    directory.  The loop of the remote branch writes to the bucket, logs,
    returns as created and records as [storagePath] only keys made of
    [eventId/] followed by the storage name generated for the file at
    that position, whatever the files are called and wherever the loop
    stops; no other key of the bucket changes. *)
Theorem storage_key_in_namespace (eventId : jsstring) (rnd : nat -> entropy)
    (index : nat) (file : incoming) (data : list N) (w : world) :
  let name := generated_name (rnd index) (in_originalname file) in
  name = string_of_N (now (rnd index)) ++ lit "-"
           ++ randomUUID (key_bits (rnd index))
           ++ Path.extname (in_originalname file)
  /\ Forall (fun c => c <> CHAR_FORWARD_SLASH) (Path.extname (in_originalname file))
  /\ single_segment name
  /\ (exists info w',
        _handleFile (uploadDiskStorage cfg) eventId (rnd index) file data w
        = (inr info, w')
        /\ filename info = Some name
        /\ fpath info
           = Some (Path.join [Path.join [UPLOADS_DIR cfg; eventId]; name]))
  /\ (forall guestName uploadedAt first files created records created' records' err w',
        upload_files net eventId guestName uploadedAt rnd first files created records w
        = (inr (created', records', err), w') ->
        exists written added,
          created' = created ++ written
          /\ records' = records ++ added
          /\ map storagePath added = map Some written
          /\ log w' = log w ++ map Wrote written
          /\ (forall key, key ∉ written ->
                sb_bucket (cloud w') !! key = sb_bucket (cloud w) !! key)
          /\ forall i key,
               written !! i = Some key ->
               exists sent,
                 files !! i = Some sent
                 /\ key = eventId ++ lit "/"
                            ++ generated_name (rnd (first + i)%nat) (originalname sent)
                 /\ single_segment
                      (generated_name (rnd (first + i)%nat) (originalname sent))).
Proof.
  intros name. split; [reflexivity|]. split; [apply extname_no_slash|].
  split; [apply generated_name_single_segment|]. split.
  - eexists _, _.
    split; [cbv [uploadDiskStorage _handleFile bind ret mkdirSync write_file];
            reflexivity|].
    split; reflexivity.
  - intros guestName uploadedAt first files created records created' records' err w' Hrun.
    destruct (upload_files_keys eventId guestName uploadedAt rnd files first created
                records w)
      as (written & added & err0 & w0 & Hrun0 & Hpaths & Hlog & Hother & Hkeys).
    rewrite Hrun in Hrun0. injection Hrun0 as -> -> -> ->.
    exists written, added. split; [reflexivity|]. split; [reflexivity|].
    split; [exact Hpaths|]. split; [exact Hlog|]. split; [exact Hother|].
    intros i key Hi. destruct (Hkeys i key Hi) as (sent & Hsent & Hkey).
    exists sent. split; [exact Hsent|]. split; [exact Hkey|].
    apply generated_name_single_segment.
Qed.

End StorageKeys.

(** A file the client calls [../../etc/passwd.png] is stored by the
    remote branch under the event's prefix and a generated name. *)
Example upload_files_hostile_name :
  exists records w',
    upload_files no_faults (lit "ab12cd") (lit "Mehmet") sample_time sample_rnd 0
      [ {| originalname := lit "../../etc/passwd.png"; mimetype := lit "image/png";
           fsize := 4; filename := None; fpath := None;
           buffer := Some [137; 80; 78; 71] |} ] [] [] sample_world
    = (inr ([sample_key], records, None), w')
    /\ map storagePath records = [Some sample_key]
    /\ map originalName records = [Some (lit "../../etc/passwd.png")]
    /\ log w' = [Wrote sample_key].
Proof. eexists _, _. repeat split; vm_compute; reflexivity. Qed.

(** ** The local metadata store *)

Lemma insert_by_perm {A} (cmp : A -> A -> Z) x l :
  insert_by cmp x l ≡ₚ x :: l.
Proof.
  induction l as [|y r IH]; cbn [insert_by]; [reflexivity|].
  destruct (cmp x y <=? 0)%Z; [reflexivity|].
  rewrite IH. apply Permutation_swap.
Qed.

Lemma sort_by_perm {A} (cmp : A -> A -> Z) l : sort_by cmp l ≡ₚ l.
Proof.
  induction l as [|x r IH]; cbn [sort_by fold_right]; [reflexivity|].
  rewrite insert_by_perm. constructor. exact IH.
Qed.

Lemma readLocalDb_stored w d :
  db_file (disk w) = Some (Stored d) -> readLocalDb w = (inr d, w).
Proof.
  intros Hd. unfold readLocalDb, try_catch, parseDbFile. rewrite Hd. reflexivity.
Qed.

Lemma readLocalDb_unreadable w :
  db_unreadable w ->
  readLocalDb w
  = match db_write_error (disk w) with
    | Some failure =>
        (inl (ErrorInstance (write_message failure)), after_failed_write failure w)
    | None =>
        (inr emptyDb,
         {| disk := {| db_file := Some (Stored emptyDb);
                       db_write_error := db_write_error (disk w);
                       files := files (disk w);
                       directories := directories (disk w) |};
            cloud := cloud w; log := log w |})
    end.
Proof.
  intros Hu. unfold readLocalDb, try_catch, parseDbFile, bind, writeLocalDb, ret,
    after_failed_write, with_db_file.
  destruct Hu as [-> | [-> | ->]];
    destruct (db_write_error (disk w)) as [[msg []]|]; reflexivity.
Qed.

Lemma after_failed_write_facts failure w :
  db_write_error (disk (after_failed_write failure w)) = db_write_error (disk w)
  /\ files (disk (after_failed_write failure w)) = files (disk w)
  /\ directories (disk (after_failed_write failure w)) = directories (disk w)
  /\ cloud (after_failed_write failure w) = cloud w
  /\ log (after_failed_write failure w) = log w
  /\ (db_file (disk (after_failed_write failure w)) = db_file (disk w)
      \/ file_opened failure = true
         /\ db_file (disk (after_failed_write failure w)) = Some Unparseable).
Proof.
  unfold after_failed_write. destruct (file_opened failure); cbn; auto 10.
Qed.

Lemma db_file_cases w :
  db_unreadable w \/ exists d, db_file (disk w) = Some (Stored d).
Proof.
  unfold db_unreadable.
  destruct (db_file (disk w)) as [[| |d]|]; eauto.
Qed.

Section LocalStoreFacts.
Context `{Runtime} (cfg : config) (net : supabase_faults).

(** C9: in local mode, when the database file is missing, is not JSON or
    lacks the [events] or [uploads] array, a read returns the empty
    database without raising anything and leaves the empty database in
    the file, provided the file can be written; from then on every read,
    event lookup and upload listing sees the empty database. *)
Theorem readLocalDb_resets_unreadable (w : world) :
  db_unreadable w ->
  db_write_error (disk w) = None ->
  exists w',
    readLocalDb w = (inr emptyDb, w')
    /\ db_file (disk w') = Some (Stored emptyDb)
    /\ files (disk w') = files (disk w)
    /\ cloud w' = cloud w
    /\ readLocalDb w' = (inr emptyDb, w')
    /\ (USING_SUPABASE cfg = false ->
        forall eventId,
          findEventById cfg net eventId w' = (inr None, w')
          /\ listUploadsForEvent cfg net eventId w' = (inr [], w')).
Proof.
  intros Hu Hw. rewrite (readLocalDb_unreadable w Hu), Hw.
  eexists. split; [reflexivity|].
  split; [reflexivity|]. split; [reflexivity|]. split; [reflexivity|].
  split; [apply readLocalDb_stored; reflexivity|].
  intros Hlocal eventId.
  unfold findEventById, listUploadsForEvent, bind. rewrite Hlocal.
  rewrite readLocalDb_stored with (d := emptyDb) by reflexivity.
  split; reflexivity.
Qed.

(** C10: in local mode every record [listUploadsForEvent] returns comes
    from a stored record of that event and carries a string
    [storagePath]: the stored [storagePath] when there is one, else the
    legacy [storedName] when there is one, else the empty string. *)
Theorem listUploadsForEvent_storagePath (eventId' : jsstring) (w w' : world)
    (result : list upload) :
  USING_SUPABASE cfg = false ->
  listUploadsForEvent cfg net eventId' w = (inr result, w') ->
  forall r, r ∈ result ->
    exists item,
      item ∈ stored_uploads w'
      /\ eventId item = eventId'
      /\ r = with_storagePath item
      /\ storagePath r = Some (preferred_storagePath item).
Proof.
  intros Hlocal Hrun r Hr.
  unfold listUploadsForEvent, bind in Hrun. rewrite Hlocal in Hrun.
  destruct (db_file_cases w) as [Hu | [d Hd]].
  - rewrite (readLocalDb_unreadable w Hu) in Hrun.
    destruct (db_write_error (disk w)); [discriminate|].
    injection Hrun as <- <-. inversion Hr.
  - rewrite (readLocalDb_stored w d Hd) in Hrun.
    injection Hrun as <- <-.
    rewrite sort_by_perm in Hr.
    apply list_elem_of_fmap in Hr as (item & -> & Hitem).
    apply list_elem_of_In, filter_In in Hitem as [Hin Hid].
    apply bool_decide_eq_true in Hid.
    exists item. unfold stored_uploads. rewrite Hd.
    split; [apply list_elem_of_In, Hin|]. split; [exact Hid|].
    split; [reflexivity|].
    unfold with_storagePath, preferred_storagePath, or_else; cbn [storagePath].
    destruct (storagePath item) as [[|c s]|]; try reflexivity;
      destruct (storedName item) as [[|c' s']|]; reflexivity.
Qed.

End LocalStoreFacts.

(** ** The archive exporter *)


Section ExportFacts.
Context `{Runtime} (cfg : config).

Lemma appendLocal_from_spec fs eventId uploads :
  Forall (fun item => is_Some (storagePath item)) uploads ->
  forall index archive,
    appendLocalUploadsToArchive_from cfg fs eventId index archive uploads
    = (archive
         ++ map (local_entry cfg eventId)
              (List.filter (fun p => backing_file_exists cfg fs eventId (snd p))
                           (positions index uploads)),
       None).
Proof.
  induction 1 as [|item rest [key Hkey] _ IH]; intros index archive.
  - cbn. rewrite app_nil_r. reflexivity.
  - cbn [appendLocalUploadsToArchive_from positions List.filter snd].
    unfold backing_file_exists at 1. rewrite Hkey.
    destruct (existsSync fs _) eqn:He; cbn [negb]; rewrite IH.
    + rewrite <- app_assoc. cbn [map app]. do 3 f_equal.
      unfold local_entry, backing_path. cbn [snd fst]. rewrite Hkey. reflexivity.
    + reflexivity.
Qed.





End ExportFacts.

(** ** The multipart middleware *)

Lemma take_N_all {A} (l : list A) :
  forall n, N.of_nat (length l) <= n -> take_N n l = l.
Proof.
  induction l as [|x r IH]; intros n Hn; [reflexivity|].
  cbn [take_N length] in *. destruct (N.eqb_spec n 0) as [->|Hne]; [lia|].
  f_equal. apply IH. lia.
Qed.

Lemma omap_length_le {A B} (f : A -> option B) (l : list A) :
  (length (omap f l) <= length l)%nat.
Proof.
  induction l as [|x r IH]; [reflexivity|].
  cbn. destruct (f x); cbn; lia.
Qed.

Section MulterFacts.
Context `{Runtime} (cfg : config) (net : supabase_faults).

Lemma same_metadata_refl w : same_metadata w w.
Proof. repeat split. Qed.

Lemma same_metadata_trans w1 w2 w3 :
  same_metadata w1 w2 -> same_metadata w2 w3 -> same_metadata w1 w3.
Proof.
  unfold same_metadata. intros (A1 & A2 & A3 & A4) (B1 & B2 & B3 & B4).
  repeat split; congruence.
Qed.

Lemma accepted_file_valid file :
  refused_file cfg file = false ->
  validType (in_mimetype file) = true
  /\ reaches_limit cfg (in_data file) = false.
Proof.
  unfold refused_file. intros Hr. apply orb_false_iff in Hr as [Ht Hs].
  apply negb_false_iff in Ht. auto.
Qed.

Lemma valid_file_accepted file :
  validType (in_mimetype file) = true ->
  N.of_nat (length (in_data file)) < fileSizeLimit cfg ->
  refused_file cfg file = false.
Proof.
  intros Ht Hs. unfold refused_file, reaches_limit. rewrite Ht. cbn [negb orb].
  apply andb_false_iff. right. apply N.leb_gt. exact Hs.
Qed.

Lemma valid_batch_accepted parts :
  valid_batch cfg parts -> Forall (fun file => refused_file cfg file = false) parts.
Proof.
  intros (_ & _ & Hall). eapply Forall_impl; [exact Hall|].
  intros file [Ht Hs]. apply valid_file_accepted; assumption.
Qed.

Lemma below_limit_whole data :
  reaches_limit cfg data = false -> take_N (fileSizeLimit cfg) data = data.
Proof.
  unfold reaches_limit. intros Hr. apply andb_false_iff in Hr as [Hz|Hl].
  - apply N.ltb_ge in Hz. destruct data; [reflexivity | cbn [length] in Hz; lia].
  - apply N.leb_gt in Hl. apply take_N_all. lia.
Qed.

Lemma remove_uploaded_memory l w :
  remove_uploaded memoryStorage l w = (inr tt, w).
Proof. induction l as [|f r IH]; [reflexivity|]. cbn. exact IH. Qed.

Lemma handle_late_memory eventId rnd parts :
  forall index w,
    exists stored,
      handle_late cfg memoryStorage eventId rnd index parts w = (inr stored, w).
Proof.
  induction parts as [|file rest IH]; intros index w; cbn [handle_late].
  - eexists. reflexivity.
  - destruct (MAX_FILES_PER_REQUEST cfg <=? index)%nat; [eexists; reflexivity|].
    destruct (fileFilter (in_mimetype file)); [apply IH|].
    unfold bind at 1. cbn [_handleFile memoryStorage ret]. unfold bind.
    destruct (IH (S index) w) as [stored ->]. eexists. reflexivity.
Qed.

Lemma abort_memory eventId rnd late error index rest uploaded w :
  abort cfg memoryStorage eventId rnd late error index rest uploaded w
  = (inr (inl error), w).
Proof.
  unfold abort, bind.
  destruct (handle_late_memory eventId rnd
              (take (late_removed late) (take (late_handled late) rest)) index w)
    as [stored ->].
  rewrite remove_uploaded_memory.
  destruct (handle_late_memory eventId rnd
              (drop (late_removed late) (take (late_handled late) rest))
              (index + length (take (late_removed late)
                                 (take (late_handled late) rest))) w)
    as [stored' ->].
  reflexivity.
Qed.

Lemma multer_memory_world eventId rnd late parts :
  forall index uploaded w,
    exists r, uploadSupabase cfg eventId rnd late index parts uploaded w = (inr r, w).
Proof.
  unfold uploadSupabase.
  induction parts as [|file rest IH]; intros index uploaded w; cbn [multer_array].
  - eexists. reflexivity.
  - destruct (MAX_FILES_PER_REQUEST cfg <=? index)%nat.
    { unfold bind. rewrite remove_uploaded_memory. eexists. reflexivity. }
    destruct (fileFilter (in_mimetype file)).
    { rewrite abort_memory. eexists. reflexivity. }
    unfold bind at 1. cbn [_handleFile memoryStorage ret].
    destruct (reaches_limit cfg (in_data file)).
    + rewrite abort_memory. eexists. reflexivity.
    + apply IH.
Qed.

Lemma multer_memory_valid eventId rnd late parts :
  Forall (fun file => refused_file cfg file = false) parts ->
  forall index uploaded w,
    (index + length parts <= MAX_FILES_PER_REQUEST cfg)%nat ->
    uploadSupabase cfg eventId rnd late index parts uploaded w
    = (inr (inr (rev uploaded ++ map (memory_file cfg) parts)), w).
Proof.
  unfold uploadSupabase.
  induction 1 as [|file rest Hfile _ IH]; intros index uploaded w Hmax.
  - cbn. rewrite app_nil_r. reflexivity.
  - destruct (accepted_file_valid file Hfile) as [Htype Hsize].
    cbn [multer_array length] in *.
    destruct (Nat.leb_spec (MAX_FILES_PER_REQUEST cfg) index) as [Hle|_]; [lia|].
    unfold fileFilter. rewrite Htype. cbn [negb].
    unfold bind at 1. cbn [_handleFile memoryStorage ret]. rewrite Hsize.
    rewrite IH by lia. cbn [rev map]. rewrite <- app_assoc. reflexivity.
Qed.

Lemma multer_memory_invalid eventId rnd late parts :
  Exists (fun file => validType (in_mimetype file) = false) parts ->
  forall index uploaded w,
    exists err,
      uploadSupabase cfg eventId rnd late index parts uploaded w = (inr (inl err), w).
Proof.
  unfold uploadSupabase.
  induction parts as [|file rest IH]; intros Hex index uploaded w;
    [inversion Hex|].
  cbn [multer_array].
  destruct (MAX_FILES_PER_REQUEST cfg <=? index)%nat.
  { unfold bind. rewrite remove_uploaded_memory. eexists; reflexivity. }
  unfold fileFilter. destruct (validType (in_mimetype file)) eqn:Htype; cbn [negb].
  - unfold bind at 1. cbn [_handleFile memoryStorage ret].
    destruct (reaches_limit cfg (in_data file)).
    + rewrite abort_memory. eexists; reflexivity.
    + apply IH. inversion Hex; subst; [congruence | assumption].
  - rewrite abort_memory. eexists; reflexivity.
Qed.

End MulterFacts.

Section DiskEngineFacts.
Context `{Runtime} (cfg : config) (net : supabase_faults).

Lemma handleFile_disk_run id e file data w :
  _handleFile (uploadDiskStorage cfg) id e file data w
  = (inr {| originalname := in_originalname file;
            mimetype := in_mimetype file;
            fsize := N.of_nat (length data);
            filename := Some (generated_name e (in_originalname file));
            fpath := Some (Path.join [Path.join [UPLOADS_DIR cfg; id];
                                      generated_name e (in_originalname file)]);
            buffer := None |},
     {| disk := {| db_file := db_file (disk w);
                   db_write_error := db_write_error (disk w);
                   files := <[Path.join [Path.join [UPLOADS_DIR cfg; id];
                                         generated_name e (in_originalname file)]
                              := data]> (files (disk w));
                   directories := {[ Path.join [UPLOADS_DIR cfg; id] ]}
                                  ∪ directories (disk w) |};
        cloud := cloud w;
        log := log w ++ [Wrote (Path.join [Path.join [UPLOADS_DIR cfg; id];
                                           generated_name e (in_originalname file)])] |}).
Proof. reflexivity. Qed.

Lemma handleFile_disk eventId rnd index file w :
  exists w1 p,
    _handleFile (uploadDiskStorage cfg) eventId (rnd index) file
      (take_N (fileSizeLimit cfg) (in_data file)) w
    = (inr (disk_file cfg eventId rnd index file), w1)
    /\ fpath (disk_file cfg eventId rnd index file) = Some p
    /\ same_metadata w w1
    /\ cloud w1 = cloud w
    /\ log w1 = log w ++ [Wrote p]
    /\ files (disk w1)
       = <[p := take_N (fileSizeLimit cfg) (in_data file)]> (files (disk w)).
Proof.
  eexists _, _. rewrite handleFile_disk_run. split; [reflexivity|].
  split; [reflexivity|]. split; [repeat split|]. split; [reflexivity|].
  split; reflexivity.
Qed.

Lemma remove_uploaded_disk l :
  forall w,
    exists w',
      remove_uploaded (uploadDiskStorage cfg) l w = (inr tt, w')
      /\ same_metadata w w'
      /\ cloud w' = cloud w
      /\ log w' = log w ++ map Removed (omap fpath l)
      /\ (forall p, p ∈ omap fpath l -> files (disk w') !! p = None)
      /\ (forall p, p ∉ omap fpath l -> files (disk w') !! p = files (disk w) !! p).
Proof.
  induction l as [|f r IH]; intros w.
  - exists w. cbn. rewrite app_nil_r. split; [reflexivity|].
    split; [apply same_metadata_refl|]. split; [reflexivity|].
    split; [reflexivity|]. split; [|auto]. intros p Hp. inversion Hp.
  - cbn [remove_uploaded]. unfold bind at 1.
    cbn [_removeFile uploadDiskStorage].
    change (omap fpath (f :: r))
      with (match fpath f with
            | Some y => y :: omap fpath r
            | None => omap fpath r
            end).
    destruct (fpath f) as [path|] eqn:Hpath.
    + unfold unlink.
      set (w1 := {| disk := _; cloud := cloud w; log := log w ++ [Removed path] |}).
      destruct (IH w1) as (w' & Hrun & Hmeta & Hcloud & Hlog & Hgone & Hother).
      exists w'. split; [exact Hrun|].
      split; [eapply same_metadata_trans; [|exact Hmeta]; repeat split|].
      split; [rewrite Hcloud; reflexivity|]. split.
      { rewrite Hlog. subst w1. cbn [log map]. rewrite <- app_assoc. reflexivity. }
      split.
      * intros p Hp. destruct (decide (p ∈ omap fpath r)) as [Hin|Hout].
        { apply Hgone, Hin. }
        rewrite (Hother p Hout). subst w1. cbn [disk files].
        apply elem_of_cons in Hp as [->|Hp]; [apply lookup_delete_eq | contradiction].
      * intros p Hp. apply not_elem_of_cons in Hp as [Hne Hp].
        rewrite (Hother p Hp). subst w1. cbn [disk files].
        apply lookup_delete_ne. congruence.
    + cbn [ret]. apply IH.
Qed.

Lemma handle_late_disk eventId rnd parts :
  forall index w,
    exists stored w',
      handle_late cfg (uploadDiskStorage cfg) eventId rnd index parts w
      = (inr stored, w')
      /\ same_metadata w w'
      /\ cloud w' = cloud w
      /\ log w' = log w ++ map Wrote (omap fpath stored)
      /\ (length stored <= length parts)%nat
      /\ (forall p, p ∈ omap fpath stored -> is_Some (files (disk w') !! p))
      /\ (forall p, p ∉ omap fpath stored -> files (disk w') !! p = files (disk w) !! p).
Proof.
  induction parts as [|file rest IH]; intros index w; cbn [handle_late length].
  - exists [], w. cbn. rewrite app_nil_r. split; [reflexivity|].
    split; [apply same_metadata_refl|]. split; [reflexivity|].
    split; [reflexivity|]. split; [lia|]. split; [|auto].
    intros p Hp. inversion Hp.
  - destruct (MAX_FILES_PER_REQUEST cfg <=? index)%nat.
    { exists [], w. cbn. rewrite app_nil_r. split; [reflexivity|].
      split; [apply same_metadata_refl|]. split; [reflexivity|].
      split; [reflexivity|]. split; [lia|]. split; [|auto].
      intros p Hp. inversion Hp. }
    destruct (fileFilter (in_mimetype file)).
    { destruct (IH (S index) w) as (stored & w' & Hrun & Hm & Hc & Hl & Hlen & Hin & Hout).
      exists stored, w'. split; [exact Hrun|]. split; [exact Hm|].
      split; [exact Hc|]. split; [exact Hl|]. split; [lia|]. auto. }
    unfold bind at 1.
    destruct (handleFile_disk eventId rnd index file w)
      as (w1 & p & -> & Hp & Hmeta1 & Hcloud1 & Hlog1 & Hfiles1).
    unfold bind.
    destruct (IH (S index) w1) as (stored & w' & -> & Hm & Hc & Hl & Hlen & Hin & Hout).
    exists (disk_file cfg eventId rnd index file :: stored), w'.
    cbn [ret length].
    change (omap fpath (disk_file cfg eventId rnd index file :: stored))
      with (match fpath (disk_file cfg eventId rnd index file) with
            | Some y => y :: omap fpath stored
            | None => omap fpath stored
            end).
    rewrite Hp. split; [reflexivity|].
    split; [eapply same_metadata_trans; eauto|]. split; [congruence|].
    split; [rewrite Hl, Hlog1, <- app_assoc; reflexivity|]. split; [lia|]. split.
    + intros q Hq. destruct (decide (q ∈ omap fpath stored)) as [Hs|Hs]; [auto|].
      rewrite (Hout q Hs), Hfiles1.
      apply elem_of_cons in Hq as [->|Hq]; [|contradiction].
      rewrite lookup_insert_eq. eauto.
    + intros q Hq. apply not_elem_of_cons in Hq as [Hne Hq].
      rewrite (Hout q Hq), Hfiles1. apply lookup_insert_ne. congruence.
Qed.

Lemma abort_disk eventId rnd late error index rest uploaded w :
  exists w' new kept,
    abort cfg (uploadDiskStorage cfg) eventId rnd late error index rest uploaded w
    = (inr (inl error), w')
    /\ same_metadata w w'
    /\ cloud w' = cloud w
    /\ log w' = log w ++ map Wrote new
                  ++ map Removed (omap fpath (rev uploaded) ++ new)
                  ++ map Wrote kept
    /\ (length kept <= late_handled late - late_removed late)%nat
    /\ (forall p, p ∈ omap fpath (rev uploaded) ++ new -> p ∉ kept ->
          files (disk w') !! p = None)
    /\ (forall p, p ∈ kept -> is_Some (files (disk w') !! p))
    /\ (forall p, p ∉ omap fpath (rev uploaded) ++ new ++ kept ->
          files (disk w') !! p = files (disk w) !! p).
Proof.
  unfold abort. unfold bind at 1.
  set (handled := take (late_handled late) rest).
  destruct (handle_late_disk eventId rnd (take (late_removed late) handled) index w)
    as (stored & w1 & -> & Hm1 & Hc1 & Hl1 & _ & Hin1 & Hout1).
  unfold bind at 1.
  destruct (remove_uploaded_disk (rev uploaded ++ stored) w1)
    as (w2 & -> & Hm2 & Hc2 & Hl2 & Hgone2 & Hout2).
  unfold bind.
  destruct (handle_late_disk eventId rnd (drop (late_removed late) handled)
              (index + length (take (late_removed late) handled)) w2)
    as (stored' & w3 & -> & Hm3 & Hc3 & Hl3 & Hlen3 & Hin3 & Hout3).
  rewrite omap_app in Hl2, Hgone2, Hout2.
  exists w3, (omap fpath stored), (omap fpath stored'). cbn [ret].
  split; [reflexivity|].
  split; [eapply same_metadata_trans; [|exact Hm3];
          eapply same_metadata_trans; eauto|].
  split; [congruence|].
  split; [rewrite Hl3, Hl2, Hl1, <- !app_assoc; reflexivity|].
  split.
  { etransitivity; [apply omap_length_le|]. etransitivity; [exact Hlen3|].
    rewrite length_drop. subst handled. rewrite length_take. lia. }
  split; [intros p Hp Hk; rewrite (Hout3 p Hk); apply Hgone2, Hp|].
  split; [exact Hin3|].
  intros p Hp. rewrite !not_elem_of_app in Hp. destruct Hp as (Hu & Hn & Hk).
  rewrite (Hout3 p Hk), Hout2 by (rewrite not_elem_of_app; auto).
  apply Hout1, Hn.
Qed.

Lemma multer_disk_trace eventId rnd late parts :
  forall index uploaded w,
    exists r w',
      uploadLocal cfg eventId rnd late index parts uploaded w = (inr r, w')
      /\ same_metadata w w'
      /\ cloud w' = cloud w
      /\ match r with
         | inr _ => Forall (fun file => refused_file cfg file = false) parts
         | inl _ =>
             exists new kept,
               log w' = log w ++ map Wrote new
                          ++ map Removed (omap fpath (rev uploaded) ++ new)
                          ++ map Wrote kept
               /\ (length kept <= late_handled late - late_removed late)%nat
               /\ (forall p, p ∈ omap fpath (rev uploaded) ++ new -> p ∉ kept ->
                     files (disk w') !! p = None)
               /\ (forall p, p ∈ kept -> is_Some (files (disk w') !! p))
               /\ (forall p, p ∉ omap fpath (rev uploaded) ++ new ++ kept ->
                     files (disk w') !! p = files (disk w) !! p)
         end.
Proof.
  unfold uploadLocal.
  induction parts as [|file rest IH]; intros index uploaded w; cbn [multer_array].
  - eexists _, w. split; [reflexivity|]. split; [apply same_metadata_refl|].
    split; [reflexivity | constructor].
  - destruct (MAX_FILES_PER_REQUEST cfg <=? index)%nat.
    { unfold bind.
      destruct (remove_uploaded_disk (rev uploaded) w)
        as (w' & -> & Hm & Hc & Hl & Hgone & Hout).
      eexists _, w'. split; [reflexivity|]. split; [exact Hm|].
      split; [exact Hc|]. exists [], []. cbn [map app]. rewrite !app_nil_r.
      split; [exact Hl|]. split; [cbn; lia|]. split; [auto|].
      split; [intros p Hp; inversion Hp | exact Hout]. }
    unfold fileFilter, refused_file.
    destruct (validType (in_mimetype file)) eqn:Htype; cbn [negb orb].
    + unfold bind at 1.
      destruct (handleFile_disk eventId rnd index file w)
        as (w1 & p & -> & Hp & Hmeta1 & Hcloud1 & Hlog1 & Hfiles1).
      assert (Hpaths : omap fpath (rev (disk_file cfg eventId rnd index file :: uploaded))
                       = omap fpath (rev uploaded) ++ [p]).
      { cbn [rev]. rewrite omap_app. f_equal.
        change (omap fpath [disk_file cfg eventId rnd index file])
          with (match fpath (disk_file cfg eventId rnd index file) with
                | Some y => [y]
                | None => []
                end).
        rewrite Hp. reflexivity. }
      assert (Hframe : forall w' new kept,
        same_metadata w1 w' /\ cloud w' = cloud w1
        /\ log w' = log w1 ++ map Wrote new
                      ++ map Removed (omap fpath (rev uploaded) ++ [p] ++ new)
                      ++ map Wrote kept
        /\ (length kept <= late_handled late - late_removed late)%nat
        /\ (forall q, q ∈ (omap fpath (rev uploaded) ++ [p]) ++ new -> q ∉ kept ->
              files (disk w') !! q = None)
        /\ (forall q, q ∈ kept -> is_Some (files (disk w') !! q))
        /\ (forall q, q ∉ (omap fpath (rev uploaded) ++ [p]) ++ new ++ kept ->
              files (disk w') !! q = files (disk w1) !! q) ->
        same_metadata w w' /\ cloud w' = cloud w
        /\ exists new0 kept0,
             log w' = log w ++ map Wrote new0
                        ++ map Removed (omap fpath (rev uploaded) ++ new0)
                        ++ map Wrote kept0
             /\ (length kept0 <= late_handled late - late_removed late)%nat
             /\ (forall q, q ∈ omap fpath (rev uploaded) ++ new0 -> q ∉ kept0 ->
                   files (disk w') !! q = None)
             /\ (forall q, q ∈ kept0 -> is_Some (files (disk w') !! q))
             /\ (forall q, q ∉ omap fpath (rev uploaded) ++ new0 ++ kept0 ->
                   files (disk w') !! q = files (disk w) !! q)).
      { intros w' new kept (Hm & Hc & Hl & Hlen & Hgone & Hkept & Hout).
        split; [eapply same_metadata_trans; eauto|]. split; [congruence|].
        exists (p :: new), kept.
        split; [rewrite Hl, Hlog1; cbn [map app]; rewrite <- !app_assoc; reflexivity|].
        split; [exact Hlen|].
        split.
        { intros q Hq. apply Hgone. rewrite <- app_assoc. exact Hq. }
        split; [exact Hkept|].
        intros q Hq. rewrite Hout, Hfiles1.
        - apply lookup_insert_ne. intros ->. apply Hq.
          rewrite !elem_of_app. right. left. left.
        - rewrite <- app_assoc. exact Hq. }
      destruct (reaches_limit cfg (in_data file)) eqn:Hsize.
      * destruct (abort_disk eventId rnd late (ErrorInstance (lit "File too large"))
                    (S index) rest (disk_file cfg eventId rnd index file :: uploaded) w1)
          as (w' & new & kept & -> & Hm & Hc & Hl & Hrest).
        rewrite Hpaths in Hl, Hrest. rewrite <- app_assoc in Hl.
        eexists _, w'. split; [reflexivity|].
        destruct (Hframe w' new kept) as (Hm' & Hc' & Hex); [auto|].
        split; [exact Hm'|]. split; [exact Hc' | exact Hex].
      * destruct (IH (S index) (disk_file cfg eventId rnd index file :: uploaded) w1)
          as (r & w' & -> & Hm & Hc & Hr).
        exists r, w'. split; [reflexivity|]. destruct r as [err|accepted].
        { destruct Hr as (new & kept & Hl & Hrest).
          rewrite Hpaths in Hl, Hrest. rewrite <- app_assoc in Hl.
          destruct (Hframe w' new kept) as (Hm' & Hc' & Hex); [auto|].
          split; [exact Hm'|]. split; [exact Hc' | exact Hex]. }
        { split; [eapply same_metadata_trans; eauto|]. split; [congruence|].
          constructor; [|exact Hr]. unfold refused_file. rewrite Htype, Hsize.
          reflexivity. }
    + destruct (abort_disk eventId rnd late
                  (ErrorInstance (lit "Sadece foto veya video yuklenebilir."))
                  (S index) rest uploaded w)
        as (w' & new & kept & -> & Hm & Hc & Hrest).
      eexists _, w'. split; [reflexivity|]. split; [exact Hm|]. split; [exact Hc|].
      exists new, kept. exact Hrest.
Qed.

Lemma multer_disk_valid eventId rnd late parts :
  Forall (fun file => refused_file cfg file = false) parts ->
  forall index uploaded w,
    (index + length parts <= MAX_FILES_PER_REQUEST cfg)%nat ->
    exists w',
      uploadLocal cfg eventId rnd late index parts uploaded w
      = (inr (inr (rev uploaded ++ disk_files cfg eventId rnd index parts)), w')
      /\ same_metadata w w'
      /\ cloud w' = cloud w
      /\ log w' = log w ++ map Wrote (disk_paths cfg eventId rnd index parts)
      /\ (forall q, is_Some (files (disk w) !! q) -> is_Some (files (disk w') !! q))
      /\ (forall q, q ∈ disk_paths cfg eventId rnd index parts ->
            is_Some (files (disk w') !! q)).
Proof.
  unfold uploadLocal, disk_paths.
  induction 1 as [|file rest Hfile _ IH]; intros index uploaded w Hmax.
  - exists w. cbn. rewrite !app_nil_r.
    split; [reflexivity|]. split; [apply same_metadata_refl|].
    split; [reflexivity|]. split; [reflexivity|]. split; [auto|].
    intros q Hq. inversion Hq.
  - destruct (accepted_file_valid cfg file Hfile) as [Htype Hsize].
    cbn [multer_array length disk_files] in *.
    destruct (Nat.leb_spec (MAX_FILES_PER_REQUEST cfg) index) as [Hle|_]; [lia|].
    unfold fileFilter. rewrite Htype. cbn [negb].
    unfold bind at 1.
    destruct (handleFile_disk eventId rnd index file w)
      as (w1 & p & -> & Hp & Hmeta1 & Hcloud1 & Hlog1 & Hfiles1).
    rewrite Hsize.
    destruct (IH (S index) (disk_file cfg eventId rnd index file :: uploaded) w1)
      as (w' & -> & Hmeta & Hcloud & Hlog & Hkeep & Hthere); [lia|].
    exists w'. cbn [rev]. rewrite <- app_assoc.
    split; [reflexivity|].
    split; [eapply same_metadata_trans; eauto|]. split; [congruence|].
    change (omap fpath (disk_file cfg eventId rnd index file
                        :: disk_files cfg eventId rnd (S index) rest))
      with (match fpath (disk_file cfg eventId rnd index file) with
            | Some y => y :: omap fpath (disk_files cfg eventId rnd (S index) rest)
            | None => omap fpath (disk_files cfg eventId rnd (S index) rest)
            end).
    rewrite Hp. cbn [map]. split.
    { rewrite Hlog, Hlog1, <- app_assoc. reflexivity. }
    assert (Hthere1 : is_Some (files (disk w1) !! p)).
    { rewrite Hfiles1, lookup_insert_eq. eauto. }
    assert (Hkeep1 : forall q, is_Some (files (disk w) !! q) ->
                               is_Some (files (disk w1) !! q)).
    { intros q Hq. rewrite Hfiles1, lookup_insert. case_decide; eauto. }
    split; [auto|].
    intros q Hq. apply elem_of_cons in Hq as [->|Hq]; auto.
Qed.

End DiskEngineFacts.

(** ** The upload route *)

Example local_rejection_trace :
  upload_route local_cfg no_faults
    (sample_request [png_file; pdf_file]) sample_time sample_rnd sample_world
  = (inr {| status := 400;
            json := JsonError (lit "Sadece foto veya video yuklenebilir.") |},
     {| disk := {| db_file := db_file (disk sample_world);
                   db_write_error := None;
                   files := ∅;
                   directories := {[ lit "/srv/app/uploads/ab12cd" ]}
                                  ∪ {[ lit "/srv/app/uploads" ]} |};
        cloud := cloud sample_world;
        log := [Wrote sample_path; Removed sample_path] |}).
Proof. vm_compute. reflexivity. Qed.

Lemma find_some {A} (f : A -> bool) (l : list A) x :
  x ∈ l -> f x = true -> exists y, List.find f l = Some y.
Proof.
  intros Hin Hf. destruct (List.find f l) as [y|] eqn:Hfind; [eauto|].
  apply list_elem_of_In in Hin.
  pose proof (find_none f l Hfind x Hin). congruence.
Qed.

Section RouteFacts.
Context (cfg : config) (net : supabase_faults).

Lemma findEventById_exists eventId w :
  event_exists cfg net eventId w ->
  exists event, findEventById cfg net eventId w = (inr (Some event), w).
Proof.
  unfold event_exists, findEventById.
  destruct (USING_SUPABASE cfg).
  - intros (-> & row & Hin & Hid).
    destruct (find_some (fun row => bool_decide (e_id row = eventId))
                (sb_events (cloud w)) row Hin) as [y ->];
      [apply bool_decide_eq_true, Hid | eauto].
  - intros (event & Hin & Hid). unfold stored_events in Hin.
    destruct (db_file (disk w)) as [[| |d]|] eqn:Hd; try (inversion Hin; fail).
    unfold bind. rewrite (readLocalDb_stored w d Hd). cbn [ret].
    destruct (find_some (fun event => bool_decide (ev_id event = eventId))
                (events d) event Hin) as [y ->];
      [apply bool_decide_eq_true, Hid | eauto].
Qed.

(** C2, as the code has it: when some file of the batch is declared with
    a content type that is neither an image nor a video, the request is
    answered with status 400, no metadata is written and the bucket is
    untouched.  In remote mode nothing at all is written.  In local mode
    the disk engine may have written files for the batch: the log gains
    the writes of two lists of paths, [removed] and [kept], and the
    removals of [removed]; a path of [removed] that is not written again
    is absent when the answer is sent, every path of [kept] is still
    there, and no other path of the disk changes.  [kept] holds files of
    parts that follow the refused one and were stored after the removal
    had begun; there are at most as many of them as the request has such
    parts. *)
Theorem invalid_type_rejects_batch (req : upload_request) (uploadedAt : jsstring)
    (rnd : nat -> entropy) (w : world) :
  event_exists cfg net (param_eventId req) w ->
  Exists (fun file => validType (in_mimetype file) = false) (body_files req) ->
  exists msg w' removed kept events,
    upload_route cfg net req uploadedAt rnd w
    = (inr {| status := 400; json := JsonError msg |}, w')
    /\ same_metadata w w'
    /\ cloud w' = cloud w
    /\ log w' = log w ++ events
    /\ events ≡ₚ map Wrote (removed ++ kept) ++ map Removed removed
    /\ (USING_SUPABASE cfg = true -> w' = w /\ events = [])
    /\ (length kept <= late_handled (body_late req) - late_removed (body_late req))%nat
    /\ (forall p, p ∈ removed -> p ∉ kept -> files (disk w') !! p = None)
    /\ (forall p, p ∈ kept -> is_Some (files (disk w') !! p))
    /\ (forall p, p ∉ removed ++ kept -> files (disk w') !! p = files (disk w) !! p).
Proof.
  intros Hev Hex.
  destruct (findEventById_exists _ w Hev) as [event Hfind].
  unfold upload_route, try_catch, bind. rewrite Hfind.
  destruct (USING_SUPABASE cfg) eqn:Hmode.
  - destruct (multer_memory_invalid cfg (param_eventId req) rnd (body_late req)
                (body_files req) Hex 0%nat [] w) as [err ->].
    cbn [after_multer ret].
    eexists _, w, [], [], []. split; [reflexivity|].
    split; [apply same_metadata_refl|]. split; [reflexivity|].
    split; [rewrite app_nil_r; reflexivity|]. split; [reflexivity|].
    split; [auto|]. split; [cbn; lia|].
    split; [intros p Hp; inversion Hp|].
    split; [intros p Hp; inversion Hp | reflexivity].
  - destruct (multer_disk_trace cfg (param_eventId req) rnd (body_late req)
                (body_files req) 0%nat [] w)
      as (r & w' & -> & Hmeta & Hcloud & Hr).
    destruct r as [err|accepted].
    + destruct Hr as (new & kept & Hlog & Hlen & Hgone & Hkept & Hother).
      change (omap fpath (rev [])) with (@nil jsstring) in Hlog, Hgone, Hother.
      cbn [app] in Hlog, Hgone, Hother.
      cbn [after_multer ret].
      eexists _, w', new, kept, _. split; [reflexivity|].
      split; [exact Hmeta|]. split; [exact Hcloud|]. split; [exact Hlog|].
      split.
      { rewrite map_app, <- app_assoc. apply Permutation_app_head, Permutation_app_comm. }
      split; [discriminate|]. split; [exact Hlen|].
      split; [exact Hgone|]. split; [exact Hkept | exact Hother].
    + exfalso. apply Exists_exists in Hex as (file & Hin & Htype).
      rewrite Forall_forall in Hr. specialize (Hr file Hin).
      destruct (accepted_file_valid cfg file Hr) as [Hvalid _]. congruence.
Qed.

End RouteFacts.

Lemma invalid_type_rejects_batch_witness :
  (exists msg w' removed kept events,
     upload_route local_cfg no_faults (sample_request [png_file; pdf_file])
       sample_time sample_rnd sample_world
     = (inr {| status := 400; json := JsonError msg |}, w')
     /\ log w' = log sample_world ++ events
     /\ events ≡ₚ map Wrote (removed ++ kept) ++ map Removed removed
     /\ (forall p, p ∈ removed -> p ∉ kept -> files (disk w') !! p = None)
     /\ (forall p, p ∈ kept -> is_Some (files (disk w') !! p)))
  /\ upload_route remote_cfg no_faults (sample_request [png_file; pdf_file])
       sample_time sample_rnd sample_world
     = (inr {| status := 400;
               json := JsonError (lit "Sadece foto veya video yuklenebilir.") |},
        sample_world).
Proof.
  split.
  - destruct (invalid_type_rejects_batch local_cfg no_faults
                (sample_request [png_file; pdf_file]) sample_time sample_rnd
                sample_world)
      as (msg & w' & removed & kept & events & Hrun & _ & _ & Hlog & Hperm & _
          & _ & Hgone & Hkept & _).
    + exists sample_event. split; [left | reflexivity].
    + right. left. reflexivity.
    + exists msg, w', removed, kept, events. auto.
  - destruct (invalid_type_rejects_batch remote_cfg no_faults
                (sample_request [png_file; pdf_file]) sample_time sample_rnd
                sample_world)
      as (msg & w' & removed & kept & events & Hrun & _ & _ & _ & _ & Hsame & _).
    + split; [reflexivity|]. exists (to_event_row sample_event).
      split; [left | reflexivity].
    + right. left. reflexivity.
    + destruct (Hsame eq_refl) as [-> _]. rewrite Hrun.
      vm_compute in Hrun. injection Hrun as <-. reflexivity.
Defined.

(** C2 as stated fails in local mode: for a batch of a PNG followed by a
    PDF the disk engine has written the PNG before the PDF is refused. *)
Lemma invalid_type_local_write_happens :
  let '(_, w') :=
    upload_route local_cfg no_faults (sample_request [png_file; pdf_file])
      sample_time sample_rnd sample_world in
  Wrote sample_path ∈ log w'.
Proof. vm_compute. left. Qed.

(** A PNG that follows the refused PDF and is stored after the removal
    has begun stays on the disk: the request is answered with 400 and the
    file is there. *)
Example late_part_left_on_disk :
  let '(r, w') :=
    upload_route local_cfg no_faults (sample_request [pdf_file; png_file])
      sample_time sample_rnd sample_world in
  r = inr {| status := 400;
             json := JsonError (lit "Sadece foto veya video yuklenebilir.") |}
  /\ exists p, log w' = [Wrote p] /\ files (disk w') !! p = Some (in_data png_file).
Proof. vm_compute. split; [reflexivity|]. eexists. split; reflexivity. Qed.

(** ** The remote branch of the upload transaction *)

Section RemoteFacts.
Context (cfg : config) (net : supabase_faults).

Lemma writes_succeed_tail key keys w w1 :
  writes_succeed net (key :: keys) w ->
  sb_bucket (cloud w1) = <[key := {| contentType := []; body := [] |}]> (sb_bucket (cloud w))
  \/ (exists o, sb_bucket (cloud w1) = <[key := o]> (sb_bucket (cloud w))) ->
  writes_succeed net keys w1.
Proof.
  intros [Hnd Hall] Hb. apply NoDup_cons in Hnd as [Hnotin Hnd].
  split; [exact Hnd|]. intros k Hk.
  destruct (Hall k) as [Hf Hnone]; [right; exact Hk|].
  split; [exact Hf|].
  assert (Hne : key <> k) by (intros ->; contradiction).
  destruct Hb as [-> | [o ->]]; rewrite lookup_insert_ne by exact Hne; exact Hnone.
Qed.

Lemma upload_files_ok eventId guestName uploadedAt rnd files :
  forall index created records w,
    writes_succeed net (remote_keys eventId rnd index (map originalname files)) w ->
    exists w',
      upload_files net eventId guestName uploadedAt rnd index files created records w
      = (inr (created ++ remote_keys eventId rnd index (map originalname files),
              records ++ remote_records eventId guestName uploadedAt rnd index files,
              None), w')
      /\ disk w' = disk w
      /\ sb_events (cloud w') = sb_events (cloud w)
      /\ sb_uploads (cloud w') = sb_uploads (cloud w)
      /\ log w' = log w ++ map Wrote (remote_keys eventId rnd index (map originalname files))
      /\ (forall k, k ∉ remote_keys eventId rnd index (map originalname files) ->
            sb_bucket (cloud w') !! k = sb_bucket (cloud w) !! k).
Proof.
  induction files as [|file rest IH]; intros index created records w Hok.
  - exists w. cbn. rewrite !app_nil_r. repeat split; reflexivity.
  - cbn [upload_files map remote_keys remote_records] in *.
    fold (remote_key eventId rnd index (originalname file)) in *.
    set (key := remote_key eventId rnd index (originalname file)) in *.
    destruct Hok as [Hnd Hall].
    destruct (Hall key) as [Hfault Hfresh]; [left|].
    unfold bind at 1. unfold storage_upload. rewrite Hfault, Hfresh.
    set (w1 := {| disk := disk w; cloud := _; log := log w ++ [Wrote key] |}).
    destruct (IH (S index) (created ++ [key])
                (records ++ [ {| up_id := randomUUID (id_bits (rnd index));
                                 eventId := eventId; guestName := guestName;
                                 originalName := Some (originalname file);
                                 storagePath := Some key; storedName := None;
                                 mimeType := Some (mimetype file);
                                 byteSize := fsize file;
                                 uploadedAt := uploadedAt |} ]) w1)
      as (w' & Hrun & Hdisk & Hev & Hup & Hlog & Hother).
    { eapply writes_succeed_tail; [split; [exact Hnd | exact Hall]|].
      right. eexists. reflexivity. }
    exists w'. rewrite Hrun, <- !app_assoc. split; [reflexivity|].
    split; [exact Hdisk|]. split; [exact Hev|]. split; [exact Hup|]. split.
    + rewrite Hlog. subst w1. cbn [log map]. rewrite <- app_assoc. reflexivity.
    + intros k Hk. apply not_elem_of_cons in Hk as [Hne Hk].
      rewrite (Hother k Hk). subst w1. cbn [cloud sb_bucket].
      apply lookup_insert_ne. congruence.
Qed.

Lemma remove_all_spec keys :
  forall w,
    exists w',
      remove_all net keys w = (inr tt, w')
      /\ disk w' = disk w
      /\ sb_events (cloud w') = sb_events (cloud w)
      /\ sb_uploads (cloud w') = sb_uploads (cloud w)
      /\ log w' = log w ++ map (removal_event net) keys
      /\ (forall k, sb_bucket (cloud w) !! k = None -> sb_bucket (cloud w') !! k = None)
      /\ (forall k, k ∈ keys -> storage_remove_fails net k = false ->
            sb_bucket (cloud w') !! k = None)
      /\ (forall k, k ∉ keys -> sb_bucket (cloud w') !! k = sb_bucket (cloud w) !! k).
Proof.
  induction keys as [|key rest IH]; intros w.
  - exists w. cbn. rewrite app_nil_r. repeat split; auto.
    intros k Hk. inversion Hk.
  - cbn [remove_all map]. unfold bind at 1, storage_remove.
    assert (Hevent : removal_event net key
                     = if storage_remove_fails net key
                       then RemoveFailed key else Removed key) by reflexivity.
    destruct (storage_remove_fails net key) eqn:Hfail.
    + set (w1 := {| disk := disk w; cloud := cloud w; log := _ |}).
      destruct (IH w1) as (w' & -> & Hdisk & Hev & Hup & Hlog & Hnone & Hgone & Hother).
      exists w'. split; [reflexivity|]. split; [exact Hdisk|].
      split; [exact Hev|]. split; [exact Hup|]. split.
      { rewrite Hlog, Hevent. subst w1. cbn [log].
        rewrite <- app_assoc. reflexivity. }
      split; [exact Hnone|]. split.
      * intros k Hk Hkf. apply elem_of_cons in Hk as [->|Hk]; [congruence|].
        apply Hgone; assumption.
      * intros k Hk. apply not_elem_of_cons in Hk as [_ Hk]. apply Hother, Hk.
    + set (w1 := {| disk := disk w; cloud := _; log := _ |}).
      destruct (IH w1) as (w' & -> & Hdisk & Hev & Hup & Hlog & Hnone & Hgone & Hother).
      exists w'. split; [reflexivity|]. split; [exact Hdisk|].
      split; [exact Hev|]. split; [exact Hup|]. split.
      { rewrite Hlog, Hevent. subst w1. cbn [log].
        rewrite <- app_assoc. reflexivity. }
      split.
      { intros k Hk. apply Hnone. subst w1. cbn [cloud sb_bucket].
        apply lookup_delete_None. auto. }
      split.
      * intros k Hk Hkf. apply elem_of_cons in Hk as [->|Hk].
        { apply Hnone. subst w1. cbn [cloud sb_bucket]. apply lookup_delete_eq. }
        { apply Hgone; assumption. }
      * intros k Hk. apply not_elem_of_cons in Hk as [Hne Hk].
        rewrite (Hother k Hk). subst w1. cbn [cloud sb_bucket].
        apply lookup_delete_ne. congruence.
Qed.

Lemma upload_files_timestamptz eventId guestName' uploadedAt' rnd files :
  forall index created records w,
    sb_timestamptz
      (cloud (snd (upload_files net eventId guestName' uploadedAt' rnd index files
                     created records w)))
    = sb_timestamptz (cloud w).
Proof.
  induction files as [|file rest IH]; intros index created records w; [reflexivity|].
  cbn [upload_files]. unfold bind at 1, storage_upload.
  destruct (storage_upload_error net _); [reflexivity|].
  destruct (sb_bucket (cloud w) !! _); [reflexivity|].
  cbn [ret]. rewrite IH. reflexivity.
Qed.

Lemma remove_all_timestamptz keys :
  forall w,
    sb_timestamptz (cloud (snd (remove_all net keys w))) = sb_timestamptz (cloud w).
Proof.
  induction keys as [|key rest IH]; intros w; [reflexivity|].
  cbn [remove_all]. unfold bind at 1, storage_remove.
  destruct (storage_remove_fails net key); rewrite IH; reflexivity.
Qed.

Lemma remote_records_length eventId guestName uploadedAt rnd index files :
  length (remote_records eventId guestName uploadedAt rnd index files) = length files.
Proof. revert index; induction files; intros; cbn; auto. Qed.

Lemma remote_records_event eventId' guestName uploadedAt rnd index files :
  Forall (fun r => eventId r = eventId')
         (remote_records eventId' guestName uploadedAt rnd index files).
Proof. revert index; induction files; intros; cbn; constructor; auto. Qed.

Lemma local_records_length eventId guestName uploadedAt rnd index files :
  length (local_records eventId guestName uploadedAt rnd index files) = length files.
Proof. revert index; induction files; intros; cbn; auto. Qed.

Lemma local_records_event eventId' guestName uploadedAt rnd index files :
  Forall (fun r => eventId r = eventId')
         (local_records eventId' guestName uploadedAt rnd index files).
Proof. revert index; induction files; intros; cbn; constructor; auto. Qed.

Lemma memory_file_names parts :
  map originalname (map (memory_file cfg) parts) = map in_originalname parts.
Proof. induction parts; cbn; f_equal; auto. Qed.

End RemoteFacts.

Section TransactionFacts.
Context `{Runtime} (cfg : config) (net : supabase_faults).

Lemma insert_remote records w :
  USING_SUPABASE cfg = true ->
  records <> [] ->
  insertUploadRecords cfg net records w
  = match insert_uploads_error net with
    | Some error => (inl error, w)
    | None =>
        (inr tt,
         {| disk := disk w;
            cloud := {| sb_events := sb_events (cloud w);
                        sb_uploads := sb_uploads (cloud w) ++ map to_row records;
                        sb_bucket := sb_bucket (cloud w);
                        sb_timestamptz := sb_timestamptz (cloud w) |};
            log := log w |})
    end.
Proof.
  intros Hmode Hne. unfold insertUploadRecords. rewrite Hmode.
  destruct records; [contradiction | reflexivity].
Qed.

Lemma insert_local records w d :
  USING_SUPABASE cfg = false ->
  records <> [] ->
  db_file (disk w) = Some (Stored d) ->
  insertUploadRecords cfg net records w
  = match db_write_error (disk w) with
    | Some failure =>
        (inl (ErrorInstance (write_message failure)), after_failed_write failure w)
    | None =>
        (inr tt,
         {| disk := {| db_file :=
                         Some (Stored {| events := events d;
                                         uploads := uploads d ++ records |});
                       db_write_error := db_write_error (disk w);
                       files := files (disk w);
                       directories := directories (disk w) |};
            cloud := cloud w; log := log w |})
    end.
Proof.
  intros Hmode Hne Hd. unfold insertUploadRecords. rewrite Hmode.
  destruct records; [contradiction|].
  unfold bind. rewrite (readLocalDb_stored w d Hd). reflexivity.
Qed.

Lemma listUploads_remote eventId' w :
  USING_SUPABASE cfg = true ->
  select_uploads_error net = None ->
  listUploadsForEvent cfg net eventId' w
  = (inr (map (of_row (sb_timestamptz (cloud w)))
            (order_newest_first
               (List.filter (fun row => bool_decide (event_id row = eventId'))
                            (sb_uploads (cloud w))))), w).
Proof.
  intros Hmode Hsel. unfold listUploadsForEvent. rewrite Hmode, Hsel. reflexivity.
Qed.

Lemma listUploads_local eventId' w d :
  USING_SUPABASE cfg = false ->
  db_file (disk w) = Some (Stored d) ->
  listUploadsForEvent cfg net eventId' w
  = (inr (sort_by (fun a b => localeCompare (uploadedAt b) (uploadedAt a))
            (map with_storagePath
               (List.filter (fun item => bool_decide (eventId item = eventId'))
                            (uploads d)))), w).
Proof.
  intros Hmode Hd. unfold listUploadsForEvent, bind. rewrite Hmode.
  rewrite (readLocalDb_stored w d Hd). reflexivity.
Qed.

Lemma listUploads_same_tables eventId' w w' :
  USING_SUPABASE cfg = true ->
  sb_uploads (cloud w') = sb_uploads (cloud w) ->
  sb_timestamptz (cloud w') = sb_timestamptz (cloud w) ->
  fst (listUploadsForEvent cfg net eventId' w')
  = fst (listUploadsForEvent cfg net eventId' w).
Proof.
  intros Hmode Hup Htz. unfold listUploadsForEvent. rewrite Hmode, Hup, Htz.
  destruct (select_uploads_error net); reflexivity.
Qed.

Lemma after_multer_remote_failure eventId guestName uploadedAt rnd files w e :
  USING_SUPABASE cfg = true ->
  files <> [] ->
  writes_succeed net (remote_keys eventId rnd 0 (map originalname files)) w ->
  insert_uploads_error net = Some e ->
  exists w',
    after_multer cfg net eventId guestName uploadedAt rnd (inr files) w
    = (inr {| status := 500; json := JsonError (error_message e) |}, w')
    /\ log w'
       = log w ++ map Wrote (remote_keys eventId rnd 0 (map originalname files))
           ++ map (removal_event net)
                (remote_keys eventId rnd 0 (map originalname files))
    /\ same_metadata w w'
    /\ disk w' = disk w
    /\ (forall k, k ∈ remote_keys eventId rnd 0 (map originalname files) ->
          storage_remove_fails net k = false -> sb_bucket (cloud w') !! k = None)
    /\ (forall k, k ∉ remote_keys eventId rnd 0 (map originalname files) ->
          sb_bucket (cloud w') !! k = sb_bucket (cloud w) !! k)
    /\ sb_timestamptz (cloud w') = sb_timestamptz (cloud w).
Proof.
  intros Hmode Hne Hok Hins.
  destruct files as [|file rest]; [contradiction|].
  cbn [after_multer].
  set (files := file :: rest) in *.
  set (keys := remote_keys eventId rnd 0 (map originalname files)) in *.
  unfold write_and_commit. rewrite Hmode. unfold bind at 1. unfold bind at 1.
  pose proof (upload_files_timestamptz net eventId (sanitizeText guestName 80)
                uploadedAt rnd files 0%nat [] [] w) as Htz1.
  destruct (upload_files_ok net eventId (sanitizeText guestName 80) uploadedAt rnd
              files 0%nat [] [] w Hok)
    as (w1 & Hrun1 & Hdisk1 & Hev1 & Hup1 & Hlog1 & Hother1).
  rewrite Hrun1 in Htz1 |- *. cbn [snd] in Htz1.
  cbn [app]. unfold bind at 1, caught, try_catch, bind.
  rewrite insert_remote, Hins by (try assumption; subst files; discriminate).
  cbn [ret].
  assert (Hkeys : bool_decide (keys = []) = false).
  { apply bool_decide_eq_false. subst keys files. discriminate. }
  fold keys. rewrite Hkeys. cbn [negb andb].
  pose proof (remove_all_timestamptz net keys w1) as Htz2.
  destruct (remove_all_spec net keys w1)
    as (w2 & Hrun2 & Hdisk2 & Hev2 & Hup2 & Hlog2 & _ & Hgone2 & Hother2).
  rewrite Hrun2 in Htz2 |- *. cbn [snd] in Htz2.
  exists w2. split; [reflexivity|]. split.
  { rewrite Hlog2, Hlog1, <- app_assoc. reflexivity. }
  split.
  { unfold same_metadata. rewrite Hdisk2, Hdisk1, Hev2, Hev1, Hup2, Hup1.
    repeat split. }
  split; [congruence|]. split; [exact Hgone2|].
  split; [|congruence].
  intros k Hk. rewrite (Hother2 k Hk). apply Hother1, Hk.
Qed.

Lemma after_multer_local_failure eventId guestName uploadedAt rnd parsed w d failure :
  USING_SUPABASE cfg = false ->
  parsed <> [] ->
  db_file (disk w) = Some (Stored d) ->
  db_write_error (disk w) = Some failure ->
  after_multer cfg net eventId guestName uploadedAt rnd (inr parsed) w
  = (inr {| status := 500; json := JsonError (write_message failure) |},
     after_failed_write failure w).
Proof.
  intros Hmode Hne Hd Hw.
  destruct parsed as [|file rest]; [contradiction|].
  cbn [after_multer].
  unfold write_and_commit. rewrite Hmode.
  unfold bind at 1. unfold bind at 1. unfold caught, try_catch. unfold bind at 1.
  rewrite (insert_local _ w d Hmode) by (try assumption; discriminate).
  rewrite Hw. reflexivity.
Qed.

End TransactionFacts.

Section Compensation.
Context `{Runtime} (cfg : config) (net : supabase_faults).

(** C1, as the code has it, for a batch the middleware accepts, sent to
    an existing event.  On the remote backend, when every payload was
    written and the insert into the [uploads] table fails, [remove] is
    called once for every key written (a failing removal is not
    reported), the answer is status 500 with the commit error's message
    when the error is an [Error] and with a fixed message otherwise,
    neither metadata store changes, so [listUploadsForEvent] returns what
    it returned before, and every key whose removal succeeded is gone
    from the bucket.  On the local backend, when the database file cannot
    be written, the answer is status 500 with the write error's message
    and nothing is removed: every file the disk engine wrote for the
    batch is still on disk.  When the write failed before the file was
    opened the metadata is unchanged; when it failed after that, the
    database file is left empty or cut short, so that it no longer holds
    any event or upload. *)
Theorem commit_failure_compensation (req : upload_request) (uploadedAt : jsstring)
    (rnd : nat -> entropy) (w : world) :
  let keys :=
    remote_keys (param_eventId req) rnd 0 (map in_originalname (body_files req)) in
  let paths := disk_paths cfg (param_eventId req) rnd 0 (body_files req) in
  event_exists cfg net (param_eventId req) w ->
  valid_batch cfg (body_files req) ->
  (forall e,
     USING_SUPABASE cfg = true ->
     writes_succeed net keys w ->
     insert_uploads_error net = Some e ->
     exists w',
       upload_route cfg net req uploadedAt rnd w
       = (inr {| status := 500; json := JsonError (error_message e) |}, w')
       /\ log w' = log w ++ map Wrote keys ++ map (removal_event net) keys
       /\ same_metadata w w'
       /\ disk w' = disk w
       /\ (forall k, k ∈ keys -> storage_remove_fails net k = false ->
             sb_bucket (cloud w') !! k = None)
       /\ (forall k, k ∉ keys ->
             sb_bucket (cloud w') !! k = sb_bucket (cloud w) !! k)
       /\ (forall eventId',
             fst (listUploadsForEvent cfg net eventId' w')
             = fst (listUploadsForEvent cfg net eventId' w)))
  /\ (forall failure,
        USING_SUPABASE cfg = false ->
        db_write_error (disk w) = Some failure ->
        exists w',
          upload_route cfg net req uploadedAt rnd w
          = (inr {| status := 500; json := JsonError (write_message failure) |}, w')
          /\ log w' = log w ++ map Wrote paths
          /\ cloud w' = cloud w
          /\ (forall p, p ∈ paths -> is_Some (files (disk w') !! p))
          /\ (file_opened failure = false ->
                same_metadata w w'
                /\ forall eventId',
                     fst (listUploadsForEvent cfg net eventId' w')
                     = fst (listUploadsForEvent cfg net eventId' w))
          /\ (file_opened failure = true ->
                db_file (disk w') = Some Unparseable
                /\ stored_events w' = []
                /\ stored_uploads w' = [])).
Proof.
  intros keys paths Hev Hbatch.
  pose proof (valid_batch_accepted cfg _ Hbatch) as Hvalid.
  destruct Hbatch as (Hne & Hmax & _).
  destruct (findEventById_exists cfg net _ w Hev) as [event Hfind].
  split.
  - intros e Hmode Hok Hins.
    unfold upload_route, try_catch. unfold bind at 1. rewrite Hfind, Hmode.
    unfold bind at 1.
    rewrite (multer_memory_valid cfg (param_eventId req) rnd (body_late req)
               (body_files req) Hvalid)
      by (cbn; lia).
    cbn [rev app].
    subst keys. rewrite <- (memory_file_names cfg (body_files req)) in *.
    destruct (after_multer_remote_failure cfg net (param_eventId req)
                (body_guestName req) uploadedAt rnd
                (map (memory_file cfg) (body_files req)) w e Hmode)
      as (w' & -> & Hlog & Hmeta & Hdisk & Hgone & Hother & Htz); try assumption.
    { destruct (body_files req); [contradiction | discriminate]. }
    exists w'. split; [reflexivity|]. split; [exact Hlog|].
    split; [exact Hmeta|]. split; [exact Hdisk|]. split; [exact Hgone|].
    split; [exact Hother|].
    intros eventId'. apply listUploads_same_tables; [exact Hmode | apply Hmeta | exact Htz].
  - intros failure Hmode Hw.
    unfold event_exists in Hev. rewrite Hmode in Hev.
    destruct Hev as (ev & Hin & _). unfold stored_events in Hin.
    destruct (db_file (disk w)) as [[| |d]|] eqn:Hd; try (inversion Hin; fail).
    unfold upload_route, try_catch. unfold bind at 1. rewrite Hfind, Hmode.
    unfold bind at 1.
    destruct (multer_disk_valid cfg (param_eventId req) rnd (body_late req)
                (body_files req) Hvalid 0%nat [] w)
      as (w1 & -> & Hmeta & Hcloud & Hlog & _ & Hthere); [cbn; lia|].
    cbn [rev app].
    pose proof Hmeta as (Hd1 & Hw1 & _).
    rewrite (after_multer_local_failure cfg net (param_eventId req)
               (body_guestName req) uploadedAt rnd _ w1 d failure Hmode);
      [| | congruence | congruence].
    2:{ destruct (body_files req); [contradiction | discriminate]. }
    destruct (after_failed_write_facts failure w1)
      as (Hfw & Hff & Hfd & Hfc & Hfl & Hfdb).
    exists (after_failed_write failure w1). split; [reflexivity|].
    split; [rewrite Hfl; exact Hlog|].
    split; [rewrite Hfc; exact Hcloud|].
    split; [intros p Hp; rewrite Hff; apply Hthere, Hp|].
    split.
    + intros Hopen. unfold after_failed_write. rewrite Hopen.
      split; [exact Hmeta|]. intros eventId'.
      rewrite (listUploads_local cfg net eventId' w d Hmode Hd).
      rewrite (listUploads_local cfg net eventId' w1 d Hmode) by congruence.
      reflexivity.
    + intros Hopen. unfold after_failed_write, stored_events, stored_uploads.
      rewrite Hopen. cbn. auto.
Qed.

End Compensation.

Lemma commit_failure_compensation_witness :
  (exists w',
     upload_route remote_cfg insert_rejected (sample_request [png_file])
       sample_time sample_rnd sample_world
     = (inr {| status := 500; json := JsonError (lit "Dosya yuklenemedi.") |}, w')
     /\ log w' = [Wrote sample_key; Removed sample_key]
     /\ sb_bucket (cloud w') !! sample_key = None)
  /\ (exists w',
        upload_route local_cfg no_faults (sample_request [png_file])
          sample_time sample_rnd full_disk_world
        = (inr {| status := 500;
                  json := JsonError (lit "ENOSPC: no space left on device, write") |},
           w')
        /\ log w' = [Wrote sample_path]
        /\ is_Some (files (disk w') !! sample_path)
        /\ db_file (disk w') = Some Unparseable).
Proof.
  split.
  - destruct (commit_failure_compensation (H := ascii_runtime) remote_cfg
                insert_rejected (sample_request [png_file]) sample_time
                sample_rnd sample_world) as [Hremote _].
    + split; [reflexivity|]. exists (to_event_row sample_event).
      split; [left | reflexivity].
    + split; [discriminate|]. split; [cbn; lia|].
      repeat constructor.
    + destruct (Hremote (PlainObject (lit "permission denied for table uploads")))
        as (w' & Hrun & Hlog & _ & _ & Hgone & _).
      * reflexivity.
      * split; [repeat constructor; inversion 1|].
        intros key Hkey. split; reflexivity.
      * reflexivity.
      * exists w'. split; [exact Hrun|]. split; [exact Hlog|].
        apply Hgone; [left | reflexivity].
  - destruct (commit_failure_compensation (H := ascii_runtime) local_cfg
                no_faults (sample_request [png_file]) sample_time
                sample_rnd full_disk_world) as [_ Hlocal].
    + exists sample_event. split; [left | reflexivity].
    + split; [discriminate|]. split; [cbn; lia|].
      repeat constructor.
    + destruct (Hlocal {| write_message := lit "ENOSPC: no space left on device, write";
                          file_opened := true |})
        as (w' & Hrun & Hlog & _ & Hthere & _ & Hcut).
      * reflexivity.
      * reflexivity.
      * exists w'. split; [exact Hrun|]. split; [exact Hlog|].
        split; [apply Hthere; left | apply Hcut; reflexivity].
Defined.

(** C1 as stated fails in three ways.  In local mode a failed write of
    the database file leaves the batch's file on disk, nothing is
    removed, and the database file itself is left empty.  In remote mode
    an object whose removal fails stays in the bucket, and a commit error
    that is not an [Error] reaches the caller as a fixed message only. *)
Lemma commit_failure_leaves_objects :
  (let '(r, w') :=
     upload_route local_cfg no_faults (sample_request [png_file])
       sample_time sample_rnd full_disk_world in
   r = inr {| status := 500;
              json := JsonError (lit "ENOSPC: no space left on device, write") |}
   /\ log w' = [Wrote sample_path]
   /\ files (disk w') !! sample_path = Some [137; 80; 78; 71]
   /\ db_file (disk w') = Some Unparseable)
  /\ (let '(r, w') :=
        upload_route remote_cfg nothing_works (sample_request [png_file])
          sample_time sample_rnd sample_world in
      status <$> (match r with inr a => Some a | inl _ => None end) = Some 500%nat
      /\ log w' = [Wrote sample_key; RemoveFailed sample_key]
      /\ is_Some (sb_bucket (cloud w') !! sample_key))
  /\ (let '(r, _) :=
        upload_route remote_cfg insert_rejected (sample_request [png_file])
          sample_time sample_rnd sample_world in
      r = inr {| status := 500; json := JsonError (lit "Dosya yuklenemedi.") |}).
Proof.
  split; [|split].
  - vm_compute. repeat split.
  - vm_compute. repeat split. eexists. reflexivity.
  - vm_compute. reflexivity.
Qed.

(** ** Ingest followed by listing *)

Lemma filter_all {A} (f : A -> bool) (l : list A) :
  Forall (fun x => f x = true) l -> List.filter f l = l.
Proof.
  induction 1 as [|x r Hx _ IH]; [reflexivity|].
  cbn. rewrite Hx, IH. reflexivity.
Qed.

Section IngestFacts.
Context `{Runtime} (cfg : config) (net : supabase_faults).

Lemma after_multer_local_success eventId guestName uploadedAt rnd parsed w d :
  USING_SUPABASE cfg = false ->
  parsed <> [] ->
  db_file (disk w) = Some (Stored d) ->
  db_write_error (disk w) = None ->
  after_multer cfg net eventId guestName uploadedAt rnd (inr parsed) w
  = (inr {| status := 201; json := JsonUploaded (length parsed) |},
     {| disk := {| db_file :=
                     Some (Stored
                             {| events := events d;
                                uploads :=
                                  uploads d
                                  ++ local_records eventId (sanitizeText guestName 80)
                                       uploadedAt rnd 0 parsed |});
                   db_write_error := db_write_error (disk w);
                   files := files (disk w);
                   directories := directories (disk w) |};
        cloud := cloud w; log := log w |}).
Proof.
  intros Hmode Hne Hd Hw.
  destruct parsed as [|file rest]; [contradiction|].
  cbn [after_multer].
  unfold write_and_commit. rewrite Hmode.
  unfold bind at 1. unfold bind at 1. unfold caught, try_catch. unfold bind at 1.
  rewrite (insert_local cfg net _ w d Hmode) by (try assumption; discriminate).
  rewrite Hw. reflexivity.
Qed.

Lemma after_multer_remote_success eventId guestName uploadedAt rnd files w :
  USING_SUPABASE cfg = true ->
  files <> [] ->
  writes_succeed net (remote_keys eventId rnd 0 (map originalname files)) w ->
  insert_uploads_error net = None ->
  exists w',
    after_multer cfg net eventId guestName uploadedAt rnd (inr files) w
    = (inr {| status := 201; json := JsonUploaded (length files) |}, w')
    /\ sb_uploads (cloud w')
       = sb_uploads (cloud w)
         ++ map to_row (remote_records eventId (sanitizeText guestName 80)
                          uploadedAt rnd 0 files)
    /\ disk w' = disk w
    /\ sb_timestamptz (cloud w') = sb_timestamptz (cloud w).
Proof.
  intros Hmode Hne Hok Hins.
  destruct files as [|file rest]; [contradiction|].
  cbn [after_multer].
  set (files := file :: rest) in *.
  unfold write_and_commit. rewrite Hmode. unfold bind at 1. unfold bind at 1.
  pose proof (upload_files_timestamptz net eventId (sanitizeText guestName 80)
                uploadedAt rnd files 0%nat [] [] w) as Htz1.
  destruct (upload_files_ok net eventId (sanitizeText guestName 80) uploadedAt rnd
              files 0%nat [] [] w Hok)
    as (w1 & Hrun1 & Hdisk1 & Hev1 & Hup1 & Hlog1 & Hother1).
  rewrite Hrun1 in Htz1 |- *. cbn [snd] in Htz1.
  cbn [app]. unfold bind at 1, caught, try_catch, bind.
  rewrite insert_remote, Hins by (try assumption; subst files; discriminate).
  cbn [ret]. eexists. split; [reflexivity|].
  cbn [cloud sb_uploads sb_timestamptz disk]. rewrite Hup1.
  split; [reflexivity|]. split; [exact Hdisk1 | exact Htz1].
Qed.

Lemma disk_files_length eventId rnd index parts :
  length (disk_files cfg eventId rnd index parts) = length parts.
Proof. revert index; induction parts; intros; cbn; auto. Qed.

(** C7: for a valid batch of one to [MAX_FILES_PER_REQUEST] files sent to
    an existing event, when nothing fails up to and including the metadata
    commit, the route answers 201 with [uploadedCount] equal to the number
    of files, and [listUploadsForEvent] for that event afterwards returns
    what it returned before together with exactly that many new records,
    all of that event. *)
Theorem ingest_then_list (req : upload_request) (uploadedAt : jsstring)
    (rnd : nat -> entropy) (w : world) :
  event_exists cfg net (param_eventId req) w ->
  valid_batch cfg (body_files req) ->
  commit_succeeds cfg net (param_eventId req) rnd (body_files req) w ->
  (USING_SUPABASE cfg = true -> select_uploads_error net = None) ->
  exists w' before after new,
    upload_route cfg net req uploadedAt rnd w
    = (inr {| status := 201;
              json := JsonUploaded (length (body_files req)) |}, w')
    /\ listUploadsForEvent cfg net (param_eventId req) w = (inr before, w)
    /\ listUploadsForEvent cfg net (param_eventId req) w' = (inr after, w')
    /\ after ≡ₚ new ++ before
    /\ length new = length (body_files req)
    /\ Forall (fun r => eventId r = param_eventId req) new.
Proof.
  intros Hev Hbatch Hcommit Hsel.
  pose proof (valid_batch_accepted cfg _ Hbatch) as Hvalid.
  destruct Hbatch as (Hne & Hmax & _).
  destruct (findEventById_exists cfg net _ w Hev) as [event Hfind].
  unfold upload_route, try_catch. unfold bind at 1. rewrite Hfind.
  unfold commit_succeeds, event_exists in *.
  destruct (USING_SUPABASE cfg) eqn:Hmode.
  - destruct Hcommit as [Hok Hins]. specialize (Hsel eq_refl).
    unfold bind at 1.
    rewrite (multer_memory_valid cfg (param_eventId req) rnd (body_late req)
               (body_files req) Hvalid)
      by (cbn; lia).
    cbn [rev app].
    rewrite <- (memory_file_names cfg (body_files req)) in Hok.
    destruct (after_multer_remote_success (param_eventId req) (body_guestName req)
                uploadedAt rnd (map (memory_file cfg) (body_files req)) w Hmode)
      as (w' & -> & Hup & Hdisk & Htz); try assumption.
    { destruct (body_files req); [contradiction | discriminate]. }
    set (records := remote_records _ _ _ _ _ _) in Hup.
    exists w'.
    eexists _, _, (map (of_row (sb_timestamptz (cloud w))) (map to_row records)).
    split; [rewrite length_map; reflexivity|].
    split; [apply listUploads_remote; assumption|].
    split; [apply listUploads_remote; assumption|].
    assert (Hrec : Forall (fun r => eventId r = param_eventId req) records)
      by apply remote_records_event.
    split; [|split].
    + rewrite Hup, Htz. unfold order_newest_first.
      rewrite !sort_by_perm, List.filter_app, List.map_app.
      rewrite (filter_all _ (map to_row records)).
      * apply Permutation_app_comm.
      * apply Forall_map. eapply Forall_impl; [exact Hrec|].
        intros r Hr. apply bool_decide_eq_true. exact Hr.
    + rewrite !length_map. subst records.
      rewrite remote_records_length, length_map. reflexivity.
    + apply Forall_map, Forall_map. eapply Forall_impl; [exact Hrec|].
      intros r Hr. exact Hr.
  - destruct Hev as (ev & Hin & _). unfold stored_events in Hin.
    destruct (db_file (disk w)) as [[| |d]|] eqn:Hd; try (inversion Hin; fail).
    unfold bind at 1.
    destruct (multer_disk_valid cfg (param_eventId req) rnd (body_late req)
                (body_files req) Hvalid 0%nat [] w) as (w1 & -> & (Hd1 & Hw1 & _) & _); [cbn; lia|].
    cbn [rev app].
    rewrite (after_multer_local_success (param_eventId req) (body_guestName req)
               uploadedAt rnd _ w1 d Hmode);
      [| | congruence | congruence].
    2:{ destruct (body_files req); [contradiction | discriminate]. }
    set (records := local_records _ _ _ _ _ _).
    eexists _, _, _, (map with_storagePath records).
    split; [rewrite disk_files_length; reflexivity|].
    split; [apply (listUploads_local cfg net _ w d Hmode Hd)|].
    split; [eapply listUploads_local; [exact Hmode | reflexivity]|].
    assert (Hrec : Forall (fun r => eventId r = param_eventId req) records)
      by apply local_records_event.
    split; [|split].
    + cbn [uploads]. rewrite !sort_by_perm, List.filter_app, List.map_app.
      rewrite (filter_all _ records).
      * apply Permutation_app_comm.
      * eapply Forall_impl; [exact Hrec|].
        intros r Hr. apply bool_decide_eq_true. exact Hr.
    + rewrite length_map. subst records.
      rewrite local_records_length, disk_files_length. reflexivity.
    + apply Forall_map. eapply Forall_impl; [exact Hrec|]. intros r Hr. exact Hr.
Qed.

End IngestFacts.

Lemma ingest_then_list_witness :
  exists w' after,
    upload_route local_cfg no_faults (sample_request [png_file; png_file])
      sample_time sample_rnd sample_world
    = (inr {| status := 201; json := JsonUploaded 2 |}, w')
    /\ listUploadsForEvent (H := ascii_runtime) local_cfg no_faults (lit "ab12cd") w'
       = (inr after, w')
    /\ length after = 2%nat.
Proof.
  destruct (ingest_then_list (H := ascii_runtime) local_cfg no_faults
              (sample_request [png_file; png_file]) sample_time sample_rnd
              sample_world)
    as (w' & before & after & new & Hrun & Hbefore & Hafter & Hperm & Hlen & _).
  - exists sample_event. split; [left | reflexivity].
  - split; [discriminate|]. split; [cbn; lia|].
    repeat constructor.
  - reflexivity.
  - discriminate.
  - exists w', after. split; [exact Hrun|]. split; [exact Hafter|].
    vm_compute in Hbefore. injection Hbefore as <-.
    apply Permutation_length in Hperm. rewrite Hperm, length_app, Hlen. reflexivity.
Defined.

Lemma readLocalDb_resets_unreadable_witness :
  exists w',
    readLocalDb lost_db_world = (inr emptyDb, w')
    /\ db_file (disk w') = Some (Stored emptyDb)
    /\ readLocalDb w' = (inr emptyDb, w')
    /\ findEventById local_cfg no_faults (lit "ab12cd") w' = (inr None, w')
    /\ listUploadsForEvent (H := ascii_runtime) local_cfg no_faults (lit "ab12cd") w'
       = (inr [], w').
Proof.
  destruct (readLocalDb_resets_unreadable (H := ascii_runtime) local_cfg no_faults
              lost_db_world) as (w' & Hread & Hfile & _ & _ & Hagain & Hlater).
  - left. reflexivity.
  - reflexivity.
  - destruct (Hlater eq_refl (lit "ab12cd")) as [Hfind Hlist].
    exists w'. repeat split; assumption.
Defined.

Lemma listUploadsForEvent_storagePath_witness :
  exists item,
    item ∈ stored_uploads legacy_world
    /\ eventId item = lit "ab12cd"
    /\ with_storagePath legacy_upload = with_storagePath item
    /\ storagePath (with_storagePath legacy_upload)
       = Some (preferred_storagePath item).
Proof.
  apply (listUploadsForEvent_storagePath (H := ascii_runtime) local_cfg no_faults
           (lit "ab12cd") legacy_world legacy_world [with_storagePath legacy_upload]).
  - reflexivity.
  - reflexivity.
  - left.
Defined.


(** ** The sanitizer on a name that is cut at 80 characters *)

(** C6, at the failing input: 79 letters, a dash and a letter are cut
    after the dash, so the sanitized name ends in a dash. *)
Theorem sanitizeArchiveName_cut_after_dash `{Runtime} :
  sanitizeArchiveName (JSString long_name) = repeat 97 79 ++ [CHAR_DASH]
  /\ last (sanitizeArchiveName (JSString long_name)) = Some CHAR_DASH.
Proof.
  assert (Hs : sanitizeArchiveName (JSString long_name) = repeat 97 79 ++ [CHAR_DASH]).
  { unfold sanitizeArchiveName.
    rewrite normalizeNFKD_ascii by (vm_compute; reflexivity).
    vm_compute. reflexivity. }
  split; [exact Hs|]. rewrite Hs. vm_compute. reflexivity.
Qed.

(** * Properties of the rest of the server *)

(** ** Entry names and text fields *)

Lemma safe_char_not_slash c : is_safe_char c = true -> c <> CHAR_FORWARD_SLASH.
Proof. intros Hc ->. discriminate Hc. Qed.

Lemma Forall_ne_slash_check (s : jsstring) :
  forallb (fun c => negb (c =? CHAR_FORWARD_SLASH)) s = true ->
  Forall (fun c => c <> CHAR_FORWARD_SLASH) s.
Proof.
  intros Hs. apply Forall_forall. intros c Hc ->.
  rewrite forallb_forall in Hs.
  specialize (Hs CHAR_FORWARD_SLASH (proj1 (list_elem_of_In _ _) Hc)).
  discriminate Hs.
Qed.

Section EntryNameSafety.
Context `{Runtime}.

Lemma getExtensionFromMime_no_slash mime :
  Forall (fun c => c <> CHAR_FORWARD_SLASH) (to_string (getExtensionFromMime mime)).
Proof.
  unfold getExtensionFromMime.
  set (key := default [] mime). clearbody key.
  unfold extensions. cbn [own_property].
  repeat (case_bool_decide; [apply Forall_ne_slash_check; reflexivity|]).
  unfold object_prototype_members. cbn [inherited_property].
  repeat (case_bool_decide; [apply Forall_ne_slash_check; vm_compute; reflexivity|]).
  constructor.
Qed.

(** X1: for every input, string or not, the sanitized name is not empty,
    has at most 80 characters, all from [[A-Za-z0-9._-]], has no two
    dashes in a row and no leading dash, and ends in a dash only when it
    has exactly 80 characters. *)
Theorem sanitizeArchiveName_shape (value : jsval) :
  sanitizeArchiveName value <> []
  /\ (length (sanitizeArchiveName value) <= 80)%nat
  /\ Forall (fun c => is_safe_char c = true) (sanitizeArchiveName value)
  /\ has_double_dash (sanitizeArchiveName value) = false
  /\ head (sanitizeArchiveName value) <> Some CHAR_DASH
  /\ (last (sanitizeArchiveName value) = Some CHAR_DASH ->
      length (sanitizeArchiveName value) = 80%nat).
Proof. exact (sanitizeArchiveName_facts value). Qed.

(** X2: whatever the record holds, its archive entry name contains no
    [/].  Nothing more is shown of the name: the extension taken from the
    storage key is appended as it is, so a backslash, for one, can occur
    in it. *)
Theorem buildArchiveEntryName_no_separator (upload : upload) (index : nat) :
  Forall (fun c => c <> CHAR_FORWARD_SLASH) (buildArchiveEntryName upload index).
Proof.
  unfold buildArchiveEntryName.
  set (safeName := sanitizeArchiveName _).
  assert (Hsafe : Forall (fun c => c <> CHAR_FORWARD_SLASH) safeName).
  { destruct (sanitizeArchiveName_facts
                (JSString (or_else (originalName upload)
                             (Path.basename (or_else (storagePath upload) [])))))
      as (_ & _ & Hs & _).
    eapply Forall_impl; [exact Hs|]. intros c Hc. apply safe_char_not_slash, Hc. }
  assert (Hprefix : Forall (fun c => c <> CHAR_FORWARD_SLASH) (entry_prefix index)).
  { eapply Forall_impl; [apply entry_prefix_digits|].
    intros c Hc. apply digit_not_separator, Hc. }
  assert (Hdash : Forall (fun c => c <> CHAR_FORWARD_SLASH) (lit "-"))
    by (repeat constructor; discriminate).
  destruct (Path.extname safeName).
  - apply Forall_app; split; [exact Hprefix|].
    apply Forall_app; split; [exact Hdash|].
    apply Forall_app; split; [exact Hsafe|].
    destruct (Path.extname (or_else (storagePath upload) [])) as [|e ext] eqn:Hext.
    + apply getExtensionFromMime_no_slash.
    + cbn [to_string]. rewrite <- Hext. apply extname_no_slash.
  - apply Forall_app; split; [exact Hprefix|].
    apply Forall_app; split; [exact Hdash | exact Hsafe].
Qed.

End EntryNameSafety.

(** The extension of the storage key reaches the entry name as it is. *)
Example buildArchiveEntryName_backslash :
  buildArchiveEntryName (H := ascii_runtime)
    (sample_upload "x" "ab12cd/k.a\b" "image/png") 0
  = lit "001-x.a\b".
Proof. vm_compute. reflexivity. Qed.

Lemma trim_start_head s c r :
  trim_start s = c :: r -> is_whitespace c = false.
Proof.
  induction s as [|d t IH]; cbn [trim_start]; [discriminate|].
  destruct (is_whitespace d) eqn:Hd; [exact IH|].
  intros [= <- _]. exact Hd.
Qed.

Lemma trim_start_length s : (length (trim_start s) <= length s)%nat.
Proof.
  induction s as [|d t IH]; cbn [trim_start]; [lia|].
  destruct (is_whitespace d); cbn [length]; lia.
Qed.

Lemma trim_start_last s c :
  last (trim_start s) = Some c -> last s = Some c.
Proof.
  induction s as [|d t IH]; cbn [trim_start]; [auto|].
  destruct (is_whitespace d); [|auto].
  intros Hl. specialize (IH Hl). destruct t; [discriminate IH|exact IH].
Qed.

Lemma last_rev_head {A} (l : list A) : last (rev l) = head l.
Proof. destruct l as [|h t]; [reflexivity|]. cbn [rev]. apply last_snoc. Qed.

Lemma head_rev_last {A} (l : list A) : head (rev l) = last l.
Proof. rewrite <- (rev_involutive l) at 2. symmetry. apply last_rev_head. Qed.

Lemma trim_edges s :
  (forall c, head (trim s) = Some c -> is_whitespace c = false)
  /\ (forall c, last (trim s) = Some c -> is_whitespace c = false)
  /\ (length (trim s) <= length s)%nat.
Proof.
  unfold trim. split; [|split].
  - intros c Hc. rewrite head_rev_last in Hc.
    apply trim_start_last in Hc. rewrite last_rev_head in Hc.
    destruct (trim_start s) as [|d t] eqn:Hs; [discriminate Hc|].
    injection Hc as ->. apply (trim_start_head s c t Hs).
  - intros c Hc. rewrite last_rev_head in Hc.
    destruct (trim_start (rev (trim_start s))) as [|d t] eqn:Hs; [discriminate Hc|].
    injection Hc as ->. eapply trim_start_head; eauto.
  - rewrite length_rev.
    etransitivity; [apply trim_start_length|].
    rewrite length_rev. apply trim_start_length.
Qed.

(** X3: [sanitizeText] returns the empty string for anything that is not
    a string; for a string the result has at most [max] characters and
    does not start with white space, and it ends with white space only
    when it was cut at [max] characters. *)
Theorem sanitizeText_facts (value : jsval) (max : nat) :
  let out := sanitizeText value max in
  (length out <= max)%nat
  /\ (forall c, head out = Some c -> is_whitespace c = false)
  /\ (forall c, last out = Some c -> is_whitespace c = true -> length out = max)
  /\ ((forall s, value <> JSString s) -> out = []).
Proof.
  destruct value as [| | | |s|]; cbn [sanitizeText];
    try (repeat split; intros; cbn [length] in *; try lia; try discriminate;
         reflexivity).
  destruct (trim_edges s) as (Hhead & Hlast & Hlen).
  split; [rewrite length_take; lia|]. split; [|split].
  - intros c Hc. apply Hhead. destruct max, (trim s); cbn in *; congruence.
  - intros c Hc Hws.
    destruct (Nat.le_gt_cases (length (trim s)) max) as [Hle|Hgt].
    + rewrite take_ge in Hc by exact Hle. rewrite (Hlast c Hc) in Hws. discriminate.
    + rewrite length_take. lia.
  - intros Hns. exfalso. apply (Hns s). reflexivity.
Qed.

(** ** Path components and URL components *)

Section BasenameFacts.
Variable path : jsstring.

Lemma basename_loop_inv k st :
  (k <= length path)%nat ->
  base_inv path k st ->
  base_final path (Path.basename_loop (rev (take k path)) (Z.of_nat k - 1) st).
Proof.
  revert st; induction k as [|k IH]; intros st Hk (Hstart & Hm & Hend).
  - rewrite take_0. cbn [rev Path.basename_loop]. intros Hen.
    destruct (Hend Hen) as [Hb Hj]. rewrite Hstart. split; [lia|].
    intros j Hr. apply Hj; lia.
  - destruct (lookup_lt_is_Some_2 path k) as [c Hc]; [lia|].
    rewrite (take_S_r _ _ _ Hc), rev_app_distr.
    cbn [rev app Path.basename_loop].
    replace (Z.of_nat (S k) - 1 - 1)%Z with (Z.of_nat k - 1)%Z by lia.
    replace (Z.of_nat (S k) - 1)%Z with (Z.of_nat k) by lia.
    destruct (N.eqb_spec c CHAR_FORWARD_SLASH) as [Hslash|Hslash].
    + destruct (Path.b_matchedSlash st) eqn:Hms; cbn [negb].
      * apply IH; [lia|]. specialize (Hm eq_refl).
        split; [exact Hstart|]. split; [auto|]. intros Hen. contradiction.
      * intros Hen. cbn [Path.b_start Path.b_end] in *.
        destruct (Hend Hen) as [Hb Hj]. split; [lia|].
        intros j Hr. apply Hj; lia.
    + destruct (Z.eqb_spec (Path.b_end st) (-1)) as [Hen|Hen].
      * apply IH; [lia|]. unfold base_inv. cbn.
        split; [exact Hstart|]. split; [discriminate|]. intros _.
        split; [lia|]. intros j H1 H2. assert (j = k) by lia. subst j.
        rewrite Hc. congruence.
      * apply IH; [lia|]. destruct (Hend Hen) as [Hb Hj].
        split; [exact Hstart|]. split; [exact Hm|]. intros _.
        split; [lia|]. intros j H1 H2.
        destruct (Nat.eq_dec j k) as [->|Hne]; [rewrite Hc; congruence|].
        apply Hj; lia.
Qed.

Lemma basename_no_slash :
  Forall (fun c => c <> CHAR_FORWARD_SLASH) (Path.basename path).
Proof.
  unfold Path.basename.
  set (st := Path.basename_loop _ _ _).
  assert (Hf : base_final path st).
  { pose proof (basename_loop_inv (length path)
                  {| Path.b_start := 0; Path.b_end := -1;
                     Path.b_matchedSlash := true |} (le_n _)) as Hloop.
    rewrite firstn_all in Hloop. apply Hloop.
    unfold base_inv; cbn; repeat split; intros; congruence. }
  destruct (Z.eqb_spec (Path.b_end st) (-1)) as [He|He]; [constructor|].
  destruct (Hf He) as [H0 Hj].
  apply Forall_forall. intros c Hin Hc. subst c.
  apply list_elem_of_lookup in Hin as [i Hi].
  unfold slice in Hi. apply lookup_take_Some in Hi as [Hi Hlt].
  rewrite lookup_drop in Hi.
  apply (Hj (Z.to_nat (Path.b_start st) + i)%nat); [lia | exact Hi].
Qed.

End BasenameFacts.

Lemma nth_in_table (table : jsstring) (P : N -> bool) i :
  forallb P (CHAR_ZERO :: table) = true -> P (nth i table CHAR_ZERO) = true.
Proof.
  intros Hall. rewrite forallb_forall in Hall. apply Hall.
  destruct (nth_in_or_default i table CHAR_ZERO) as [Hin | ->]; [right | left]; auto.
Qed.

Lemma hex_digit_lower n : is_lower_hex (hex_digit n) = true.
Proof. apply nth_in_table. reflexivity. Qed.

Lemma upper_hex_digit_safe n : uri_safe (upper_hex_digit n) = true.
Proof. apply nth_in_table. reflexivity. Qed.

Lemma toString_hex_facts bytes :
  length (toString_hex bytes) = (2 * length bytes)%nat
  /\ Forall (fun c => is_lower_hex c = true) (toString_hex bytes).
Proof.
  induction bytes as [|b r [IHl IHf]]; [split; [reflexivity | constructor]|].
  unfold toString_hex in *. cbn [flat_map hex_byte app length] in *. split; [lia|].
  repeat constructor; try apply hex_digit_lower. exact IHf.
Qed.

Lemma randomBytes_length n bits : length (randomBytes n bits) = n.
Proof. unfold randomBytes. rewrite length_map, length_seq. reflexivity. Qed.

Lemma generateShortId_facts bits :
  length (generateShortId bits) = 6%nat
  /\ Forall (fun c => is_lower_hex c = true) (generateShortId bits).
Proof.
  unfold generateShortId.
  destruct (toString_hex_facts (randomBytes 3 bits)) as [Hl Hf].
  rewrite randomBytes_length in Hl. split; assumption.
Qed.

Lemma percent_octets_safe octets :
  Forall (fun c => uri_safe c = true) (flat_map percent_octet octets).
Proof.
  induction octets as [|b r IH]; [constructor|].
  cbn [flat_map percent_octet app].
  repeat constructor; try apply upper_hex_digit_safe. exact IH.
Qed.

Lemma uri_unreserved_safe c : uri_unreserved c = true -> uri_safe c = true.
Proof. intros Hc. unfold uri_safe. rewrite Hc. reflexivity. Qed.

Lemma encodeURIComponent_safe_bounded n :
  forall s out,
    (length s <= n)%nat ->
    encodeURIComponent s = inr out ->
    Forall (fun c => uri_safe c = true) out.
Proof.
  induction n as [|n IH]; intros s out Hn Henc.
  - destruct s; [|cbn in Hn; lia]. injection Henc as <-. constructor.
  - destruct s as [|c r]; [injection Henc as <-; constructor|].
    cbn [length] in Hn. cbn [encodeURIComponent] in Henc.
    destruct (uri_unreserved c) eqn:Hu.
    { destruct (encodeURIComponent r) as [|out'] eqn:Hr; [discriminate|].
      injection Henc as <-. constructor; [apply uri_unreserved_safe, Hu|].
      apply (IH r); [lia | exact Hr]. }
    destruct (is_low_surrogate c); [discriminate|].
    destruct (is_high_surrogate c).
    { destruct r as [|d r']; [discriminate|].
      destruct (is_low_surrogate d); [|discriminate].
      destruct (encodeURIComponent r') as [|out'] eqn:Hr; [discriminate|].
      injection Henc as <-. apply Forall_app; split; [apply percent_octets_safe|].
      apply (IH r'); [cbn [length] in Hn; lia | exact Hr]. }
    destruct (encodeURIComponent r) as [|out'] eqn:Hr; [discriminate|].
    injection Henc as <-. apply Forall_app; split; [apply percent_octets_safe|].
    apply (IH r); [lia | exact Hr].
Qed.

Lemma uri_safe_not_separator c :
  uri_safe c = true ->
  c <> CHAR_FORWARD_SLASH /\ c <> 63 /\ c <> 35 /\ c <> 38 /\ c <> 61.
Proof.
  intros Hc. repeat split; intros ->; discriminate Hc.
Qed.

(** When [encodeURIComponent] returns, its result consists of
    unreserved characters, percent signs and upper-case hexadecimal
    digits only, so it contains none of [/ ? # & =]; and it is the
    argument itself when the argument has unreserved characters only. *)
Lemma encodeURIComponent_safe (s out : jsstring) :
  encodeURIComponent s = inr out ->
  Forall (fun c => uri_safe c = true) out
  /\ Forall (fun c => c <> CHAR_FORWARD_SLASH /\ c <> 63 /\ c <> 35
                      /\ c <> 38 /\ c <> 61) out
  /\ (forallb uri_unreserved s = true -> out = s).
Proof.
  intros Henc.
  assert (Hsafe : Forall (fun c => uri_safe c = true) out)
    by (eapply encodeURIComponent_safe_bounded; [apply le_n | exact Henc]).
  split; [exact Hsafe|]. split.
  - eapply Forall_impl; [exact Hsafe|]. intros c Hc. apply uri_safe_not_separator, Hc.
  - clear Hsafe. revert out Henc. induction s as [|c r IH]; intros out Henc Hall.
    + injection Henc as <-. reflexivity.
    + cbn [forallb] in Hall. apply andb_true_iff in Hall as [Hc Hr].
      cbn [encodeURIComponent] in Henc. rewrite Hc in Henc.
      destruct (encodeURIComponent r) as [|out'] eqn:Hrr; [discriminate|].
      injection Henc as <-. f_equal. apply IH; auto.
Qed.

Lemma encodeURIComponent_safe_witness :
  encodeURIComponent (lit "a b/c?.png") = inr (lit "a%20b%2Fc%3F.png")
  /\ Forall (fun c => uri_safe c = true) (lit "a%20b%2Fc%3F.png").
Proof.
  split; [reflexivity|].
  apply (encodeURIComponent_safe (lit "a b/c?.png") (lit "a%20b%2Fc%3F.png")).
  reflexivity.
Defined.

Example encodeURIComponent_latin : encodeURIComponent [233] = inr (lit "%C3%A9").
Proof. reflexivity. Qed.
Example encodeURIComponent_pair :
  encodeURIComponent [55357; 56832] = inr (lit "%F0%9F%98%80").
Proof. reflexivity. Qed.
Example encodeURIComponent_lone : encodeURIComponent [97; 56832] = inl URIError.
Proof. reflexivity. Qed.
Example generateShortId_sample : generateShortId 11211469 = lit "ab12cd".
Proof. reflexivity. Qed.

(** ** Event creation *)

Lemma draw_free_id_spec fuel draws existing :
  forall k j eventId,
    draw_free_id fuel k draws existing = Some (j, eventId) ->
    (k <= j < k + fuel)%nat
    /\ eventId = generateShortId (draws j)
    /\ has_id eventId existing = false
    /\ forall i, (k <= i < j)%nat ->
         has_id (generateShortId (draws i)) existing = true.
Proof.
  induction fuel as [|fuel IH]; intros k j eventId Hd; [discriminate|].
  cbn [draw_free_id] in Hd.
  destruct (has_id (generateShortId (draws k)) existing) eqn:Hk.
  - destruct (IH _ _ _ Hd) as (Hr & Hid & Hfree & Hbefore).
    split; [lia|]. split; [exact Hid|]. split; [exact Hfree|].
    intros i Hi. destruct (Nat.eq_dec i k) as [->|Hne]; [exact Hk|].
    apply Hbefore. lia.
  - injection Hd as <- <-. split; [lia|]. split; [reflexivity|].
    split; [exact Hk|]. intros i Hi. lia.
Qed.

Lemma draw_free_id_progress fuel draws existing :
  forall k j,
    (k <= j < k + fuel)%nat ->
    has_id (generateShortId (draws j)) existing = false ->
    exists j' eventId, draw_free_id fuel k draws existing = Some (j', eventId).
Proof.
  induction fuel as [|fuel IH]; intros k j Hj Hfree; [lia|].
  cbn [draw_free_id].
  destruct (has_id (generateShortId (draws k)) existing) eqn:Hk; [|eauto].
  apply (IH (S k) j); [|exact Hfree].
  destruct (Nat.eq_dec j k) as [->|Hne]; [congruence | lia].
Qed.

Lemma has_id_events eventId (l : list event) :
  has_id eventId l = existsb (fun event => bool_decide (ev_id event = eventId)) l.
Proof. reflexivity. Qed.

Lemma has_id_rows eventId (l : list event_row) :
  has_id eventId l = existsb (fun row => bool_decide (e_id row = eventId)) l.
Proof. reflexivity. Qed.

Lemma has_id_of_rows timestamptz eventId (rows : list event_row) :
  has_id eventId (map (of_event_row timestamptz) rows) = has_id eventId rows.
Proof.
  rewrite has_id_events, has_id_rows.
  induction rows as [|row rest IH]; [reflexivity|].
  cbn [map existsb of_event_row ev_id]. rewrite IH. reflexivity.
Qed.

Lemma has_id_false_not_in eventId (l : list event) :
  has_id eventId l = false -> eventId ∉ map ev_id l.
Proof.
  intros Hh Hin. apply list_elem_of_In, in_map_iff in Hin as (event & Hid & Hin).
  rewrite has_id_events in Hh.
  assert (Ht : existsb (fun event => bool_decide (ev_id event = eventId)) l = true).
  { apply existsb_exists. exists event. split; [exact Hin|].
    apply bool_decide_eq_true, Hid. }
  congruence.
Qed.

Lemma find_appended {A} (key : A -> jsstring) eventId (x : A) l :
  existsb (fun e => bool_decide (key e = eventId)) l = false ->
  key x = eventId ->
  List.find (fun e => bool_decide (key e = eventId)) (l ++ [x]) = Some x.
Proof.
  intros Hh Hid. induction l as [|y r IH]; cbn [app List.find].
  - rewrite (bool_decide_eq_true_2 _ Hid). reflexivity.
  - cbn [existsb] in Hh. apply orb_false_iff in Hh as [Hx Hr].
    rewrite Hx. apply IH, Hr.
Qed.

Lemma find_other {A} (key : A -> jsstring) eventId (x : A) l :
  key x <> eventId ->
  List.find (fun e => bool_decide (key e = eventId)) (l ++ [x])
  = List.find (fun e => bool_decide (key e = eventId)) l.
Proof.
  intros Hne. induction l as [|y r IH]; cbn [app List.find].
  - rewrite (bool_decide_eq_false_2 _ Hne). reflexivity.
  - destruct (bool_decide (key y = eventId)); [reflexivity | exact IH].
Qed.

Lemma find_of_rows timestamptz eventId (rows : list event_row) :
  List.find (fun e => bool_decide (ev_id e = eventId))
            (map (of_event_row timestamptz) rows)
  = of_event_row timestamptz
      <$> List.find (fun row => bool_decide (e_id row = eventId)) rows.
Proof.
  induction rows as [|row rest IH]; [reflexivity|].
  cbn [map List.find of_event_row ev_id].
  destruct (bool_decide (e_id row = eventId)); [reflexivity | exact IH].
Qed.

(** What an event is after it was stored in the remote table and
    selected again: the same, with the time of creation as the service
    renders it. *)
Lemma of_to_event_row timestamptz (event : event) :
  of_event_row timestamptz (to_event_row event)
  = {| ev_id := ev_id event;
       eventName := eventName event;
       eventDate := eventDate event;
       ownerName := ownerName event;
       adminToken := adminToken event;
       createdAt := timestamptz (createdAt event) |}.
Proof.
  unfold of_event_row, to_event_row. cbn.
  destruct (eventDate event), (ownerName event); reflexivity.
Qed.

Lemma readLocalDb_cases w :
  (exists failure,
     readLocalDb w
     = (inl (ErrorInstance (write_message failure)), after_failed_write failure w)
     /\ db_write_error (disk w) = Some failure /\ db_unreadable w)
  \/ (exists w1,
        readLocalDb w
        = (inr {| events := stored_events w; uploads := stored_uploads w |}, w1)
        /\ db_file (disk w1)
           = Some (Stored {| events := stored_events w; uploads := stored_uploads w |})
        /\ db_write_error (disk w1) = db_write_error (disk w)
        /\ files (disk w1) = files (disk w)
        /\ directories (disk w1) = directories (disk w)
        /\ cloud w1 = cloud w /\ log w1 = log w
        /\ (db_unreadable w -> db_write_error (disk w) = None)
        /\ ((exists d, db_file (disk w) = Some (Stored d)) -> w1 = w)).
Proof.
  destruct (db_file_cases w) as [Hu | [d Hd]].
  - rewrite (readLocalDb_unreadable w Hu).
    assert (Hse : stored_events w = [] /\ stored_uploads w = []).
    { unfold stored_events, stored_uploads.
      destruct Hu as [-> | [-> | ->]]; split; reflexivity. }
    destruct Hse as [-> ->].
    destruct (db_write_error (disk w)) as [failure|] eqn:Hw.
    + left. exists failure. auto.
    + right. eexists. split; [reflexivity|]. cbn.
      repeat split; auto.
      intros [d Hd]. destruct Hu as [Hu | [Hu | Hu]]; congruence.
  - right. exists w. rewrite (readLocalDb_stored w d Hd).
    unfold stored_events, stored_uploads. rewrite Hd. destruct d as [evs ups].
    cbn. repeat split; auto.
    intros [Hu | [Hu | Hu]]; congruence.
Qed.

(** A failed attempt to reset an unreadable database file leaves what
    can be read of the metadata as it was: nothing. *)
Lemma failed_reset_metadata failure w :
  db_unreadable w ->
  stored_events (after_failed_write failure w) = stored_events w
  /\ stored_uploads (after_failed_write failure w) = stored_uploads w.
Proof.
  intros Hu. unfold after_failed_write, stored_events, stored_uploads, with_db_file.
  destruct (file_opened failure); [|auto]. cbn.
  destruct Hu as [-> | [-> | ->]]; auto.
Qed.

Lemma failed_reset_frame cfg failure w :
  db_unreadable w ->
  metadata_of (after_failed_write failure w) = metadata_of w
  /\ files (disk (after_failed_write failure w)) = files (disk w)
  /\ directories (disk (after_failed_write failure w)) = directories (disk w)
  /\ known_events cfg (after_failed_write failure w) = known_events cfg w.
Proof.
  intros Hu. destruct (failed_reset_metadata failure w Hu) as [He Hup].
  destruct (after_failed_write_facts failure w) as (_ & Hf & Hd & Hc & _).
  unfold metadata_of, known_events. rewrite He, Hup, Hc. auto.
Qed.

Section EventCreationFacts.
Context (cfg : config) (net : supabase_faults).

Lemma event_of_shape fields rnd k t :
  length (ev_id (event_of fields rnd k t)) = 6%nat
  /\ Forall (fun c => is_lower_hex c = true) (ev_id (event_of fields rnd k t))
  /\ length (adminToken (event_of fields rnd k t)) = 32%nat
  /\ Forall (fun c => is_lower_hex c = true) (adminToken (event_of fields rnd k t)).
Proof.
  cbn [event_of ev_id adminToken].
  destruct (generateShortId_facts (id_draw rnd k)) as [H1 H2].
  destruct (toString_hex_facts (randomBytes 16 (token_draw rnd t))) as [H3 H4].
  rewrite randomBytes_length in H3. repeat split; assumption.
Qed.

(** X4: in local mode an event that [createEventRecord] returns is built
    from the first drawn identifier no stored event has: the identifier is
    six lower-case hexadecimal digits, the admin token thirty-two; the
    event is appended to the stored events, the stored uploads stay, and
    identifiers that were pairwise different stay pairwise different. *)
Theorem createEventRecord_local_fresh (faults : event_insert_faults) (fuel : nat)
    (fields : event_fields) (rnd : event_entropy) (w w' : world) (event : event) :
  USING_SUPABASE cfg = false ->
  createEventRecord cfg faults fuel fields rnd w = (inr (Some event), w') ->
  exists k,
    event = event_of fields rnd k 0
    /\ (k < fuel)%nat
    /\ has_id (ev_id event) (stored_events w) = false
    /\ (forall i, (i < k)%nat ->
          has_id (generateShortId (id_draw rnd i)) (stored_events w) = true)
    /\ stored_events w' = stored_events w ++ [event]
    /\ stored_uploads w' = stored_uploads w
    /\ (NoDup (map ev_id (stored_events w)) -> NoDup (map ev_id (stored_events w')))
    /\ length (ev_id event) = 6%nat
    /\ Forall (fun c => is_lower_hex c = true) (ev_id event)
    /\ length (adminToken event) = 32%nat
    /\ Forall (fun c => is_lower_hex c = true) (adminToken event).
Proof.
  intros Hmode Hrun. unfold createEventRecord in Hrun. rewrite Hmode in Hrun.
  unfold bind at 1 in Hrun.
  destruct (readLocalDb_cases w) as [(msg & Hread & _) | (w1 & Hread & Hfile & Hwe & _)];
    rewrite Hread in Hrun; [discriminate|].
  cbn [events uploads] in Hrun.
  destruct (draw_free_id fuel 0 (id_draw rnd) (stored_events w)) as [[k eventId]|] eqn:Hd;
    [|discriminate].
  destruct (draw_free_id_spec _ _ _ _ _ _ Hd) as (Hk & -> & Hfree & Hbefore).
  unfold bind, writeLocalDb in Hrun.
  destruct (db_write_error (disk w1)); [discriminate|].
  injection Hrun as <- <-.
  fold (event_of fields rnd k 0).
  destruct (event_of_shape fields rnd k 0) as (S1 & S2 & S3 & S4).
  exists k. split; [reflexivity|]. split; [lia|]. split; [exact Hfree|].
  split; [intros i Hi; apply Hbefore; lia|].
  split; [reflexivity|]. split; [reflexivity|]. split.
  - intros Hnd. unfold stored_events at 1. cbn [disk db_file events].
    rewrite List.map_app. apply NoDup_app. split; [exact Hnd|]. split.
    + intros x Hx Hx'. cbn [map] in Hx'. apply list_elem_of_singleton in Hx'. subst x.
      apply (has_id_false_not_in _ _ Hfree). exact Hx.
    + apply NoDup_singleton.
  - repeat split; assumption.
Qed.

(** X5: in local mode, when the database file can be written and one of
    the first [fuel] drawn identifiers is free, [createEventRecord]
    returns an event. *)
Theorem createEventRecord_local_returns (faults : event_insert_faults) (fuel : nat)
    (fields : event_fields) (rnd : event_entropy) (w : world) (j : nat) :
  USING_SUPABASE cfg = false ->
  db_write_error (disk w) = None ->
  (j < fuel)%nat ->
  has_id (generateShortId (id_draw rnd j)) (stored_events w) = false ->
  exists event w',
    createEventRecord cfg faults fuel fields rnd w = (inr (Some event), w').
Proof.
  intros Hmode Hw Hj Hfree. unfold createEventRecord. rewrite Hmode.
  unfold bind at 1.
  destruct (readLocalDb_cases w) as [(msg & _ & Hw' & _) | (w1 & -> & _ & Hwe & _)];
    [congruence|].
  cbn [events uploads].
  destruct (draw_free_id_progress fuel (id_draw rnd) (stored_events w) 0 j)
    as (j' & eventId & ->); [lia | exact Hfree |].
  unfold bind, writeLocalDb. rewrite Hwe, Hw. eauto.
Qed.

Lemma insert_attempts_step faults fields rnd remaining attempt w :
  insert_attempts faults fields rnd (S remaining) attempt w =
  match faults attempt with
  | Some e =>
      if bool_decide (pg_code e = lit "23505")
      then insert_attempts faults fields rnd remaining (S attempt) w
      else (inl (pg_value e), w)
  | None =>
      if has_id (generateShortId (id_draw rnd attempt)) (sb_events (cloud w))
      then insert_attempts faults fields rnd remaining (S attempt) w
      else (inr (event_of fields rnd attempt attempt),
            with_remote_event w (event_of fields rnd attempt attempt))
  end.
Proof.
  cbn [insert_attempts]. unfold bind, insert_event. cbn [ev_id].
  destruct (faults attempt) as [e|].
  - destruct (bool_decide (pg_code e = lit "23505")); reflexivity.
  - destruct (has_id _ _); [|reflexivity].
    cbn [unique_violation pg_code]. rewrite bool_decide_eq_true_2 by reflexivity.
    reflexivity.
Qed.

Lemma insert_attempts_outcome faults fields rnd remaining :
  forall attempt w,
    (exists k,
       (attempt <= k < attempt + remaining)%nat
       /\ insert_attempts faults fields rnd remaining attempt w
          = (inr (event_of fields rnd k k), with_remote_event w (event_of fields rnd k k))
       /\ faults k = None
       /\ has_id (ev_id (event_of fields rnd k k)) (sb_events (cloud w)) = false
       /\ forall i, (attempt <= i < k)%nat -> refused_as_duplicate faults rnd w i)
    \/ (exists k e,
          (attempt <= k < attempt + remaining)%nat
          /\ insert_attempts faults fields rnd remaining attempt w = (inl (pg_value e), w)
          /\ faults k = Some e
          /\ pg_code e <> lit "23505"
          /\ forall i, (attempt <= i < k)%nat -> refused_as_duplicate faults rnd w i)
    \/ (insert_attempts faults fields rnd remaining attempt w = (inl exhausted_error, w)
        /\ forall i, (attempt <= i < attempt + remaining)%nat ->
             refused_as_duplicate faults rnd w i).
Proof.
  induction remaining as [|remaining IH]; intros attempt w.
  - right. right. split; [reflexivity|]. intros i Hi. lia.
  - rewrite insert_attempts_step.
    assert (Hext : forall k, refused_as_duplicate faults rnd w attempt ->
      (forall i, (S attempt <= i < k)%nat -> refused_as_duplicate faults rnd w i) ->
      forall i, (attempt <= i < k)%nat -> refused_as_duplicate faults rnd w i).
    { intros k Hr Hrest i Hi. destruct (Nat.eq_dec i attempt) as [->|Hne]; [exact Hr|].
      apply Hrest. lia. }
    assert (Hnext : refused_as_duplicate faults rnd w attempt ->
      (exists k,
         (attempt <= k < attempt + S remaining)%nat
         /\ insert_attempts faults fields rnd remaining (S attempt) w
            = (inr (event_of fields rnd k k), with_remote_event w (event_of fields rnd k k))
         /\ faults k = None
         /\ has_id (ev_id (event_of fields rnd k k)) (sb_events (cloud w)) = false
         /\ forall i, (attempt <= i < k)%nat -> refused_as_duplicate faults rnd w i)
      \/ (exists k e,
            (attempt <= k < attempt + S remaining)%nat
            /\ insert_attempts faults fields rnd remaining (S attempt) w
               = (inl (pg_value e), w)
            /\ faults k = Some e
            /\ pg_code e <> lit "23505"
            /\ forall i, (attempt <= i < k)%nat -> refused_as_duplicate faults rnd w i)
      \/ (insert_attempts faults fields rnd remaining (S attempt) w
            = (inl exhausted_error, w)
          /\ forall i, (attempt <= i < attempt + S remaining)%nat ->
               refused_as_duplicate faults rnd w i)).
    { intros Hr.
      destruct (IH (S attempt) w)
        as [(k & Hk & Hrun & Hfk & Hfree & Hbefore)
           | [(k & e' & Hk & Hrun & Hfk & Hcode' & Hbefore) | (Hrun & Hall)]].
      - left. exists k. split; [lia|]. split; [exact Hrun|]. split; [exact Hfk|].
        split; [exact Hfree|]. apply Hext; assumption.
      - right. left. exists k, e'. split; [lia|]. split; [exact Hrun|].
        split; [exact Hfk|]. split; [exact Hcode'|]. apply Hext; assumption.
      - right. right. split; [exact Hrun|]. apply Hext; [exact Hr|].
        intros i Hi. apply Hall. lia. }
    destruct (faults attempt) as [e|] eqn:Hf.
    + case_bool_decide as Hcode.
      * apply Hnext. left. eauto.
      * right. left. exists attempt, e. split; [lia|]. split; [reflexivity|].
        split; [exact Hf|]. split; [exact Hcode|]. intros i Hi. lia.
    + destruct (has_id (generateShortId (id_draw rnd attempt)) (sb_events (cloud w)))
        eqn:Htaken.
      * apply Hnext. right. auto.
      * left. exists attempt. split; [lia|]. split; [reflexivity|].
        split; [exact Hf|]. split; [exact Htaken|]. intros i Hi. lia.
Qed.

(** X6: in remote mode [createEventRecord] ends in one of three ways.  It
    returns the event of the first attempt (of at most ten) whose insert
    was not answered with a unique violation, and the [events] table gains
    exactly that row.  Or that first attempt was answered with another
    error: the error is thrown and nothing is stored.  Or all ten attempts
    were answered with a unique violation: the retry message is thrown and
    nothing is stored. *)
Theorem createEventRecord_remote_outcome (faults : event_insert_faults) (fuel : nat)
    (fields : event_fields) (rnd : event_entropy) (w : world) :
  USING_SUPABASE cfg = true ->
  (exists k,
     (k < 10)%nat
     /\ createEventRecord cfg faults fuel fields rnd w
        = (inr (Some (event_of fields rnd k k)),
           with_remote_event w (event_of fields rnd k k))
     /\ faults k = None
     /\ has_id (ev_id (event_of fields rnd k k)) (sb_events (cloud w)) = false
     /\ forall i, (i < k)%nat -> refused_as_duplicate faults rnd w i)
  \/ (exists k e,
        (k < 10)%nat
        /\ createEventRecord cfg faults fuel fields rnd w = (inl (pg_value e), w)
        /\ faults k = Some e
        /\ pg_code e <> lit "23505"
        /\ forall i, (i < k)%nat -> refused_as_duplicate faults rnd w i)
  \/ (createEventRecord cfg faults fuel fields rnd w = (inl exhausted_error, w)
      /\ forall i, (i < 10)%nat -> refused_as_duplicate faults rnd w i).
Proof.
  intros Hmode. unfold createEventRecord. rewrite Hmode. unfold bind.
  destruct (insert_attempts_outcome faults fields rnd 10 0 w)
    as [(k & Hk & Hrun & Hfk & Hfree & Hbefore)
       | [(k & e & Hk & Hrun & Hfk & Hcode & Hbefore) | (Hrun & Hall)]];
    rewrite Hrun.
  - left. exists k. split; [lia|]. split; [reflexivity|]. split; [exact Hfk|].
    split; [exact Hfree|]. intros i Hi. apply Hbefore. lia.
  - right. left. exists k, e. split; [lia|]. split; [reflexivity|].
    split; [exact Hfk|]. split; [exact Hcode|]. intros i Hi. apply Hbefore. lia.
  - right. right. split; [reflexivity|]. intros i Hi. apply Hall. lia.
Qed.

Lemma createEventRecord_stored (faults : event_insert_faults) (fuel : nat)
    (fields : event_fields) (rnd : event_entropy) (w w' : world) (event : event) :
  createEventRecord cfg faults fuel fields rnd w = (inr (Some event), w') ->
  has_id (ev_id event) (known_events cfg w) = false
  /\ if USING_SUPABASE cfg
     then sb_events (cloud w') = sb_events (cloud w) ++ [to_event_row event]
          /\ sb_timestamptz (cloud w') = sb_timestamptz (cloud w)
     else db_file (disk w')
          = Some (Stored {| events := stored_events w ++ [event];
                            uploads := stored_uploads w |}).
Proof.
  intros Hrun. unfold known_events. destruct (USING_SUPABASE cfg) eqn:Hmode.
  - unfold createEventRecord in Hrun. rewrite Hmode in Hrun. unfold bind in Hrun.
    destruct (insert_attempts_outcome faults fields rnd 10 0 w)
      as [(k & Hk & Hrun' & Hfk & Hfree & Hbefore)
         | [(k & e & Hk & Hrun' & _) | (Hrun' & _)]];
      rewrite Hrun' in Hrun; try discriminate.
    injection Hrun as <- <-. rewrite has_id_of_rows.
    split; [exact Hfree | split; reflexivity].
  - unfold createEventRecord in Hrun. rewrite Hmode in Hrun.
    unfold bind at 1 in Hrun.
    destruct (readLocalDb_cases w) as [(msg & Hread & _) | (w1 & Hread & _)];
      rewrite Hread in Hrun; [discriminate|].
    cbn [events uploads] in Hrun.
    destruct (draw_free_id fuel 0 (id_draw rnd) (stored_events w)) as [[k eventId]|] eqn:Hd;
      [|discriminate].
    destruct (draw_free_id_spec _ _ _ _ _ _ Hd) as (Hk & -> & Hfree & Hbefore).
    unfold bind, writeLocalDb in Hrun.
    destruct (db_write_error (disk w1)); [discriminate|].
    injection Hrun as <- <-. split; [exact Hfree | reflexivity].
Qed.

(** X7: an event that [createEventRecord] returned is found by
    [findEventById] under its identifier afterwards, with the same
    identifier, name, date, owner and admin token; its time of creation
    is the one returned in local mode, and in remote mode the stored time
    as the service renders it.  Every other identifier is looked up as
    among the events known before.  In remote mode this is provided the
    select is answered. *)
Theorem create_then_find (faults : event_insert_faults) (fuel : nat)
    (fields : event_fields) (rnd : event_entropy) (w w' : world) (event : event) :
  createEventRecord cfg faults fuel fields rnd w = (inr (Some event), w') ->
  (USING_SUPABASE cfg = true -> select_event_error net = None) ->
  (exists found,
     findEventById cfg net (ev_id event) w' = (inr (Some found), w')
     /\ ev_id found = ev_id event
     /\ eventName found = eventName event
     /\ eventDate found = eventDate event
     /\ ownerName found = ownerName event
     /\ adminToken found = adminToken event
     /\ createdAt found
        = if USING_SUPABASE cfg
          then sb_timestamptz (cloud w') (createdAt event)
          else createdAt event)
  /\ forall other, other <> ev_id event ->
       findEventById cfg net other w'
       = (inr (List.find (fun e => bool_decide (ev_id e = other)) (known_events cfg w)),
          w').
Proof.
  intros Hrun Hnet.
  destruct (createEventRecord_stored _ _ _ _ _ _ _ Hrun) as [Hfree Hst].
  unfold findEventById, known_events in *.
  destruct (USING_SUPABASE cfg).
  - destruct Hst as [Hst Htz]. rewrite has_id_of_rows, has_id_rows in Hfree.
    rewrite (Hnet eq_refl), Hst. split.
    + rewrite (find_appended e_id _ (to_event_row event) _ Hfree eq_refl).
      eexists. split; [reflexivity|]. rewrite of_to_event_row. cbn.
      repeat split; reflexivity.
    + intros other Hne.
      rewrite (find_other e_id) by (cbn; congruence).
      rewrite find_of_rows, Htz.
      destruct (List.find _ (sb_events (cloud w))); reflexivity.
  - unfold bind. rewrite (readLocalDb_stored w' _ Hst). cbn [ret events].
    rewrite has_id_events in Hfree. split.
    + rewrite (find_appended ev_id _ event _ Hfree eq_refl).
      exists event. repeat split; reflexivity.
    + intros other Hne. rewrite (find_other ev_id) by congruence. reflexivity.
Qed.

Lemma createEventRecord_events (faults : event_insert_faults) (fuel : nat)
    (fields : event_fields) (rnd : event_entropy) (w : world) :
  exists r w',
    createEventRecord cfg faults fuel fields rnd w = (r, w')
    /\ match r with
       | inr (Some event) =>
           exists stored,
             known_events cfg w' = known_events cfg w ++ [stored]
             /\ has_id (ev_id event) (known_events cfg w) = false
             /\ ev_id stored = ev_id event
             /\ adminToken stored = adminToken event
             /\ eventName stored = f_eventName fields
             /\ eventDate stored = f_eventDate fields
             /\ ownerName stored = f_ownerName fields
       | inr None =>
           known_events cfg w' = known_events cfg w
           /\ USING_SUPABASE cfg = false
           /\ forall i, (i < fuel)%nat ->
                has_id (generateShortId (id_draw rnd i)) (stored_events w) = true
       | inl _ =>
           known_events cfg w' = known_events cfg w \/ database_emptied cfg w w'
       end.
Proof.
  unfold known_events, createEventRecord, database_emptied.
  destruct (USING_SUPABASE cfg) eqn:Hmode.
  - unfold bind.
    destruct (insert_attempts_outcome faults fields rnd 10 0 w)
      as [(k & Hk & Hrun & Hfk & Hfree & Hbefore)
         | [(k & e & Hk & Hrun & _) | (Hrun & _)]];
      rewrite Hrun; eexists _, _; (split; [reflexivity|]); cbn [ret]; auto.
    exists (of_event_row (sb_timestamptz (cloud w)) (to_event_row (event_of fields rnd k k))).
    cbn [with_remote_event cloud sb_events sb_timestamptz].
    rewrite List.map_app, has_id_of_rows. split; [reflexivity|].
    split; [exact Hfree|]. rewrite of_to_event_row. cbn. repeat split; reflexivity.
  - unfold bind at 1.
    destruct (readLocalDb_cases w) as [(failure & Hread & Hw & Hu) | (w1 & Hread & Hfile & Hwe & _ & _ & Hcloud & _)];
      rewrite Hread.
    { eexists _, _. split; [reflexivity|]. left.
      apply (failed_reset_metadata failure w Hu). }
    assert (Hev1 : stored_events w1 = stored_events w).
    { unfold stored_events at 1. rewrite Hfile. reflexivity. }
    cbn [events uploads].
    destruct (draw_free_id fuel 0 (id_draw rnd) (stored_events w)) as [[k eventId]|] eqn:Hd.
    + destruct (draw_free_id_spec _ _ _ _ _ _ Hd) as (Hk & -> & Hfree & Hbefore).
      unfold bind, writeLocalDb.
      destruct (db_write_error (disk w1)) as [failure|] eqn:Hw1.
      * eexists _, _. split; [reflexivity|].
        destruct (file_opened failure) eqn:Hopen.
        { right. split; [reflexivity|].
          split; [exists failure; split; [congruence | exact Hopen]|].
          split; [reflexivity|]. cbn [cloud]. rewrite Hcloud. split; reflexivity. }
        { left. exact Hev1. }
      * eexists _, _. split; [reflexivity|]. cbn [ret].
        eexists. split; [reflexivity|]. split; [exact Hfree|].
        repeat split; reflexivity.
    + eexists _, _. split; [reflexivity|]. cbn [ret].
      split; [exact Hev1|]. split; [reflexivity|].
      intros i Hi.
      assert (Hall : forall fuel' k,
                draw_free_id fuel' k (id_draw rnd) (stored_events w) = None ->
                forall i, (k <= i < k + fuel')%nat ->
                  has_id (generateShortId (id_draw rnd i)) (stored_events w) = true).
      { clear. induction fuel' as [|fuel' IH]; intros k Hnone i Hi; [lia|].
        cbn [draw_free_id] in Hnone.
        destruct (has_id (generateShortId (id_draw rnd k)) (stored_events w)) eqn:Hk;
          [|discriminate].
        destruct (Nat.eq_dec i k) as [->|Hne]; [exact Hk|].
        apply (IH (S k) Hnone). lia. }
      apply (Hall fuel 0%nat Hd). lia.
Qed.

End EventCreationFacts.

Lemma createEventRecord_local_fresh_witness :
  exists event w',
    createEventRecord local_cfg no_insert_faults 4 sample_fields sample_event_entropy
      sample_world = (inr (Some event), w')
    /\ ev_id event = lit "ab12ce"
    /\ stored_events w' = [sample_event; event].
Proof.
  destruct (createEventRecord local_cfg no_insert_faults 4 sample_fields
              sample_event_entropy sample_world) as [[t|[event|]] w'] eqn:Hrun;
    try (vm_compute in Hrun; discriminate).
  destruct (createEventRecord_local_fresh local_cfg no_insert_faults 4 sample_fields
              sample_event_entropy sample_world w' event eq_refl Hrun)
    as (k & Hev & Hk & Hfree & Hbefore & Hst & _).
  exists event, w'. split; [reflexivity|]. split; [|exact Hst].
  vm_compute in Hrun. injection Hrun as <- _. reflexivity.
Defined.

Lemma createEventRecord_local_returns_witness :
  exists event w',
    createEventRecord local_cfg no_insert_faults 4 sample_fields colliding_entropy
      sample_world = (inr (Some event), w').
Proof.
  apply (createEventRecord_local_returns local_cfg no_insert_faults 4 sample_fields
           colliding_entropy sample_world 2); [reflexivity | reflexivity | lia |].
  vm_compute. reflexivity.
Defined.

Lemma createEventRecord_remote_outcome_witness :
  createEventRecord remote_cfg always_duplicate 0 sample_fields sample_event_entropy
    sample_world = (inl exhausted_error, sample_world).
Proof.
  destruct (createEventRecord_remote_outcome remote_cfg always_duplicate 0 sample_fields
              sample_event_entropy sample_world eq_refl)
    as [(k & _ & _ & Hfk & _) | [(k & e & _ & _ & Hfk & Hcode & _) | (Hrun & _)]].
  - discriminate Hfk.
  - injection Hfk as <-. exfalso. apply Hcode. reflexivity.
  - exact Hrun.
Defined.

Lemma create_then_find_witness :
  exists event w' found,
    createEventRecord remote_cfg no_insert_faults 0 sample_fields sample_event_entropy
      sample_world = (inr (Some event), w')
    /\ findEventById remote_cfg no_faults (ev_id event) w' = (inr (Some found), w')
    /\ adminToken found = adminToken event
    /\ createdAt event = lit "2024-05-01T09:00:00.000Z"
    /\ createdAt found = lit "2024-05-01T09:00:00+00:00"
    /\ findEventById remote_cfg no_faults (lit "ab12cd") w'
       = (inr (Some (of_event_row utc_rendering (to_event_row sample_event))), w').
Proof.
  assert (Hrun : exists event w',
            createEventRecord remote_cfg no_insert_faults 0 sample_fields
              sample_event_entropy sample_world = (inr (Some event), w')
            /\ ev_id event = lit "ab12ce"
            /\ createdAt event = lit "2024-05-01T09:00:00.000Z"
            /\ sb_timestamptz (cloud w') = utc_rendering)
    by (vm_compute; eexists _, _; repeat split; reflexivity).
  destruct Hrun as (event & w' & Hrun & Hid & Hat & Htz).
  destruct (create_then_find remote_cfg no_faults no_insert_faults 0 sample_fields
              sample_event_entropy sample_world w' event Hrun (fun _ => eq_refl))
    as [(found & Hfind & _ & _ & _ & _ & Htoken & Hcreated) Hother].
  exists event, w', found. split; [exact Hrun|]. split; [exact Hfind|].
  split; [exact Htoken|]. split; [exact Hat|].
  split; [rewrite Hcreated; cbn [USING_SUPABASE remote_cfg]; rewrite Htz, Hat; reflexivity|].
  rewrite Hother; [reflexivity|]. rewrite Hid. discriminate.
Defined.

(** ** The event creation route *)

Section CreateRouteFacts.
Context (cfg : config) (BASE_URL : option jsstring).

(** X8: the creation route, with the identifier loop of the local
    branch run for at most [fuel] draws.  No answer is reached only in
    local mode, for a name that is not empty, when every one of the first
    [fuel] drawn identifiers is taken; the known events are then as
    before.  When the route answers with the links of a new event,
    exactly that event was added to the known events, under an identifier
    none of them had, with the trimmed and bounded form fields, a name
    that is not empty, and links built from the base URL, the identifier
    and the event's admin token.  Every other answer is an error with
    status 400 or 500: 400 exactly when the trimmed name is empty, and
    then nothing at all was touched; with 500 the known events are as
    before, unless in local mode the write of the database file failed
    after the file was opened, which leaves the file without content. *)
Theorem create_event_route_outcome (faults : event_insert_faults) (fuel : nat)
    (req : create_request) (rnd : event_entropy) (w : world) :
  exists r w',
    create_event_route cfg BASE_URL faults fuel req rnd w = (inr r, w')
    /\ match r with
       | Some (Created id joinUrl adminUrl) =>
           exists event,
             known_events cfg w' = known_events cfg w ++ [event]
             /\ has_id id (known_events cfg w) = false
             /\ ev_id event = id
             /\ eventName event = sanitizeText (c_eventName req) 120
             /\ eventName event <> []
             /\ eventDate event = sanitizeText (c_eventDate req) 40
             /\ ownerName event = sanitizeText (c_ownerName req) 80
             /\ joinUrl = getBaseUrl BASE_URL (c_http req) ++ lit "/e/" ++ id
             /\ adminUrl = getBaseUrl BASE_URL (c_http req) ++ lit "/admin/" ++ id
                             ++ lit "?token=" ++ adminToken event
       | Some (CreateError status _) =>
           (status = 400%nat \/ status = 500%nat)
           /\ (status = 400%nat <-> sanitizeText (c_eventName req) 120 = [])
           /\ (status = 400%nat -> w' = w)
           /\ (known_events cfg w' = known_events cfg w \/ database_emptied cfg w w')
       | None =>
           known_events cfg w' = known_events cfg w
           /\ sanitizeText (c_eventName req) 120 <> []
           /\ USING_SUPABASE cfg = false
           /\ forall i, (i < fuel)%nat ->
                has_id (generateShortId (id_draw rnd i)) (stored_events w) = true
       end
    /\ (USING_SUPABASE cfg = true
        \/ sanitizeText (c_eventName req) 120 = []
        \/ (exists j, (j < fuel)%nat
                      /\ has_id (generateShortId (id_draw rnd j)) (stored_events w)
                         = false) ->
        exists answer, r = Some answer).
Proof.
  enough (Hmain : exists r w',
    create_event_route cfg BASE_URL faults fuel req rnd w = (inr r, w')
    /\ match r with
       | Some (Created id joinUrl adminUrl) =>
           exists event,
             known_events cfg w' = known_events cfg w ++ [event]
             /\ has_id id (known_events cfg w) = false
             /\ ev_id event = id
             /\ eventName event = sanitizeText (c_eventName req) 120
             /\ eventName event <> []
             /\ eventDate event = sanitizeText (c_eventDate req) 40
             /\ ownerName event = sanitizeText (c_ownerName req) 80
             /\ joinUrl = getBaseUrl BASE_URL (c_http req) ++ lit "/e/" ++ id
             /\ adminUrl = getBaseUrl BASE_URL (c_http req) ++ lit "/admin/" ++ id
                             ++ lit "?token=" ++ adminToken event
       | Some (CreateError status _) =>
           (status = 400%nat \/ status = 500%nat)
           /\ (status = 400%nat <-> sanitizeText (c_eventName req) 120 = [])
           /\ (status = 400%nat -> w' = w)
           /\ (known_events cfg w' = known_events cfg w \/ database_emptied cfg w w')
       | None =>
           known_events cfg w' = known_events cfg w
           /\ sanitizeText (c_eventName req) 120 <> []
           /\ USING_SUPABASE cfg = false
           /\ forall i, (i < fuel)%nat ->
                has_id (generateShortId (id_draw rnd i)) (stored_events w) = true
       end).
  { destruct Hmain as (r & w' & Hrun & Hr). exists r, w'.
    split; [exact Hrun|]. split; [exact Hr|].
    destruct r as [answer|]; [eauto|].
    destruct Hr as (_ & Hname & Hmode & Htaken).
    intros [Hremote | [Hempty | (j & Hj & Hfree)]].
    - congruence.
    - contradiction.
    - rewrite (Htaken j Hj) in Hfree. discriminate. }
  unfold create_event_route, try_catch.
  destruct (sanitizeText (c_eventName req) 120) as [|c name] eqn:Hname.
  { eexists _, _. split; [reflexivity|]. cbn. repeat split; auto. }
  unfold bind.
  destruct (createEventRecord_events cfg faults fuel
              {| f_eventName := c :: name;
                 f_eventDate := sanitizeText (c_eventDate req) 40;
                 f_ownerName := sanitizeText (c_ownerName req) 80 |} rnd w)
    as (r & w' & Hrun & Hr).
  rewrite Hrun. destruct r as [e|[event|]].
  - eexists _, _. split; [reflexivity|]. cbn [ret].
    split; [right; reflexivity|]. split; [split; discriminate|].
    split; [discriminate | exact Hr].
  - eexists _, _. split; [reflexivity|]. cbn [ret].
    destruct Hr as (stored & Hev & Hfree & Hid & Htoken & Hn & Hd & Ho).
    cbn [f_eventName f_eventDate f_ownerName] in *.
    exists stored. rewrite Hn, Htoken. repeat split; auto; discriminate.
  - eexists _, _. split; [reflexivity|]. cbn [ret].
    destruct Hr as (Hev & Hmode & Htaken).
    split; [exact Hev|]. split; [discriminate|]. split; [exact Hmode | exact Htaken].
Qed.

End CreateRouteFacts.

Example create_event_route_sample :
  exists w',
    create_event_route local_cfg (Some (lit "https://dugun.example/")) no_insert_faults 4
      {| c_http := {| protocol := lit "http"; host := Some (lit "localhost:3000") |};
         c_eventName := JSString (lit "  Nisan  ");
         c_eventDate := JSUndefined;
         c_ownerName := JSNumber 7 |}
      sample_event_entropy sample_world
    = (inr (Some (Created (lit "ab12ce")
                    (lit "https://dugun.example/e/ab12ce")
                    (lit "https://dugun.example/admin/ab12ce?token=0000000000000000123456789abcdef0"))),
       w').
Proof. eexists. vm_compute. reflexivity. Qed.

(** ** The upload route, for every request *)

Lemma same_metadata_of w w' : same_metadata w w' -> metadata_of w' = metadata_of w.
Proof.
  intros (A & _ & B & C). unfold metadata_of, stored_events, stored_uploads.
  rewrite A, B, C. reflexivity.
Qed.

Section EngineFrame.
Context (cfg : config) (engine : StorageEngine).
Hypothesis handle_frame :
  forall eventId e file data w,
    exists info w',
      _handleFile engine eventId e file data w = (inr info, w')
      /\ same_metadata w w'.
Hypothesis remove_frame :
  forall file w,
    exists w', _removeFile engine file w = (inr tt, w')
               /\ same_metadata w w'.

Lemma remove_uploaded_frame l :
  forall w,
    exists w', remove_uploaded engine l w = (inr tt, w')
               /\ same_metadata w w'.
Proof.
  induction l as [|f r IH]; intros w; cbn [remove_uploaded].
  - exists w. split; [reflexivity | apply same_metadata_refl].
  - unfold bind at 1. destruct (remove_frame f w) as (w1 & -> & H1).
    destruct (IH w1) as (w' & -> & H'). exists w'.
    split; [reflexivity | eapply same_metadata_trans; eauto].
Qed.

Lemma handle_late_frame eventId rnd parts :
  forall index w,
    exists stored w',
      handle_late cfg engine eventId rnd index parts w = (inr stored, w')
      /\ same_metadata w w'.
Proof.
  induction parts as [|file rest IH]; intros index w; cbn [handle_late].
  - eexists _, w. split; [reflexivity | apply same_metadata_refl].
  - destruct (MAX_FILES_PER_REQUEST cfg <=? index)%nat.
    { eexists _, w. split; [reflexivity | apply same_metadata_refl]. }
    destruct (fileFilter (in_mimetype file)); [apply IH|].
    unfold bind at 1.
    destruct (handle_frame eventId (rnd index) file
                (take_N (fileSizeLimit cfg) (in_data file)) w)
      as (info & w1 & -> & H1).
    unfold bind. destruct (IH (S index) w1) as (stored & w' & -> & H').
    eexists _, w'. split; [reflexivity | eapply same_metadata_trans; eauto].
Qed.

Lemma abort_frame eventId rnd late error index rest uploaded w :
  exists w',
    abort cfg engine eventId rnd late error index rest uploaded w
    = (inr (inl error), w')
    /\ same_metadata w w'.
Proof.
  unfold abort. unfold bind at 1.
  destruct (handle_late_frame eventId rnd
              (take (late_removed late) (take (late_handled late) rest)) index w)
    as (stored & w1 & -> & H1).
  unfold bind at 1.
  destruct (remove_uploaded_frame (rev uploaded ++ stored) w1) as (w2 & -> & H2).
  unfold bind.
  destruct (handle_late_frame eventId rnd
              (drop (late_removed late) (take (late_handled late) rest))
              (index + length (take (late_removed late)
                                 (take (late_handled late) rest))) w2)
    as (stored' & w3 & -> & H3).
  exists w3. split; [reflexivity|].
  eapply same_metadata_trans; [|exact H3]. eapply same_metadata_trans; eauto.
Qed.

Lemma multer_array_frame eventId rnd late parts :
  forall index uploaded w,
    exists r w',
      multer_array cfg engine eventId rnd late index parts uploaded w = (inr r, w')
      /\ same_metadata w w'
      /\ match r with
         | inr files =>
             length files = (length uploaded + length parts)%nat
             /\ (parts = [] \/ index + length parts <= MAX_FILES_PER_REQUEST cfg)%nat
             /\ Forall (fun file => refused_file cfg file = false) parts
         | inl _ =>
             (parts <> [] /\ MAX_FILES_PER_REQUEST cfg < index + length parts)%nat
             \/ Exists (fun file => refused_file cfg file = true) parts
         end.
Proof.
  induction parts as [|file rest IH]; intros index uploaded w.
  - exists (inr (rev uploaded)), w. cbn [multer_array ret length].
    split; [reflexivity|]. split; [apply same_metadata_refl|].
    rewrite length_rev. split; [lia|]. split; [left; reflexivity | constructor].
  - cbn [multer_array length].
    destruct (Nat.leb_spec (MAX_FILES_PER_REQUEST cfg) index) as [Hmax|Hmax].
    { unfold bind.
      destruct (remove_uploaded_frame (rev uploaded) w) as (w' & -> & Hm).
      eexists _, _. split; [reflexivity|]. split; [exact Hm|].
      left. split; [discriminate | lia]. }
    unfold fileFilter, refused_file.
    destruct (validType (in_mimetype file)) eqn:Htype; cbn [negb].
    + unfold bind at 1.
      destruct (handle_frame eventId (rnd index) file
                  (take_N (fileSizeLimit cfg) (in_data file)) w)
        as (info & w1 & -> & H1).
      destruct (reaches_limit cfg (in_data file)) eqn:Hsize.
      * destruct (abort_frame eventId rnd late (ErrorInstance (lit "File too large"))
                    (S index) rest (info :: uploaded) w1) as (w' & -> & Hm).
        eexists _, _. split; [reflexivity|].
        split; [eapply same_metadata_trans; eauto|].
        right. left. unfold refused_file. rewrite Htype, Hsize. reflexivity.
      * destruct (IH (S index) (info :: uploaded) w1) as (r & w' & -> & Hm & Hr).
        exists r, w'. split; [reflexivity|].
        split; [eapply same_metadata_trans; eauto|].
        destruct r as [err|files].
        { destruct Hr as [[Hne Hr]|Hr]; [left; split; [discriminate | lia]|].
          right. right. exact Hr. }
        { destruct Hr as (Hlen & Hcount & Hall). cbn [length] in Hlen.
          split; [lia|]. split.
          - right. destruct Hcount as [->|Hcount]; cbn [length]; lia.
          - constructor; [|exact Hall].
            unfold refused_file. rewrite Htype, Hsize. reflexivity. }
    + destruct (abort_frame eventId rnd late
                  (ErrorInstance (lit "Sadece foto veya video yuklenebilir."))
                  (S index) rest uploaded w) as (w' & -> & Hm).
      eexists _, _. split; [reflexivity|]. split; [exact Hm|].
      right. left. unfold refused_file. rewrite Htype. reflexivity.
Qed.

End EngineFrame.

Section RouteFrame.
Context (cfg : config) (net : supabase_faults).

Lemma uploadSupabase_frame eventId rnd late parts w :
  exists r w',
    uploadSupabase cfg eventId rnd late 0 parts [] w = (inr r, w')
    /\ same_metadata w w'
    /\ match r with
       | inr files =>
           length files = length parts
           /\ (length parts <= MAX_FILES_PER_REQUEST cfg)%nat
           /\ Forall (fun file => refused_file cfg file = false) parts
       | inl _ =>
           (MAX_FILES_PER_REQUEST cfg < length parts)%nat
           \/ Exists (fun file => refused_file cfg file = true) parts
       end.
Proof.
  destruct (multer_array_frame cfg memoryStorage) with
    (eventId := eventId) (rnd := rnd) (late := late) (parts := parts)
    (index := 0%nat) (uploaded := @nil multer_file) (w := w)
    as (r & w' & Hrun & Hm & Hr).
  - intros. eexists _, _. split; [reflexivity | apply same_metadata_refl].
  - intros. eexists. split; [reflexivity | apply same_metadata_refl].
  - exists r, w'. split; [exact Hrun|]. split; [exact Hm|].
    destruct r as [err|files]; cbn [length] in Hr.
    + destruct Hr as [[_ Hr]|Hr]; [left; lia | right; exact Hr].
    + destruct Hr as (Hlen & Hcount & Hall). split; [lia|]. split; [|exact Hall].
      destruct Hcount as [->|Hcount]; cbn [length]; lia.
Qed.

Lemma uploadLocal_frame eventId rnd late parts w :
  exists r w',
    uploadLocal cfg eventId rnd late 0 parts [] w = (inr r, w')
    /\ same_metadata w w'
    /\ match r with
       | inr files =>
           length files = length parts
           /\ (length parts <= MAX_FILES_PER_REQUEST cfg)%nat
           /\ Forall (fun file => refused_file cfg file = false) parts
       | inl _ =>
           (MAX_FILES_PER_REQUEST cfg < length parts)%nat
           \/ Exists (fun file => refused_file cfg file = true) parts
       end.
Proof.
  destruct (multer_array_frame cfg (uploadDiskStorage cfg)) with
    (eventId := eventId) (rnd := rnd) (late := late) (parts := parts)
    (index := 0%nat) (uploaded := @nil multer_file) (w := w)
    as (r & w' & Hrun & Hm & Hr).
  - intros. eexists _, _. rewrite handleFile_disk_run.
    split; [reflexivity | repeat split].
  - intros file w0. cbn [_removeFile uploadDiskStorage].
    destruct (fpath file); eexists; (split; [reflexivity | repeat split]).
  - exists r, w'. split; [exact Hrun|]. split; [exact Hm|].
    destruct r as [err|files]; cbn [length] in Hr.
    + destruct Hr as [[_ Hr]|Hr]; [left; lia | right; exact Hr].
    + destruct Hr as (Hlen & Hcount & Hall). split; [lia|]. split; [|exact Hall].
      destruct Hcount as [->|Hcount]; cbn [length]; lia.
Qed.

Lemma findEventById_frame eventId w :
  exists r w',
    findEventById cfg net eventId w = (r, w')
    /\ metadata_of w' = metadata_of w
    /\ db_write_error (disk w') = db_write_error (disk w)
    /\ match r with
       | inr found =>
           found = List.find (fun e => bool_decide (ev_id e = eventId))
                             (known_events cfg w)
       | inl _ => True
       end.
Proof.
  unfold findEventById, known_events. destruct (USING_SUPABASE cfg).
  - rewrite find_of_rows.
    destruct (select_event_error net); [eexists _, _; repeat split; reflexivity|].
    destruct (List.find _ (sb_events (cloud w))); eexists _, _; repeat split; reflexivity.
  - unfold bind.
    destruct (readLocalDb_cases w)
      as [(failure & -> & _ & Hu) | (w1 & -> & Hfile & Hwe & _ & _ & Hcloud & _)].
    + destruct (failed_reset_metadata failure w Hu) as [He Hup].
      destruct (after_failed_write_facts failure w) as (Hw & _ & _ & Hc & _).
      eexists _, _. split; [reflexivity|]. split; [|split; [exact Hw | exact I]].
      unfold metadata_of. rewrite He, Hup, Hc. reflexivity.
    + eexists _, _. split; [reflexivity|]. split; [|split; [exact Hwe | reflexivity]].
      unfold metadata_of, stored_events, stored_uploads. rewrite Hfile, Hcloud.
      reflexivity.
Qed.

Lemma insertUploadRecords_frame records w :
  exists r w',
    insertUploadRecords cfg net records w = (r, w')
    /\ match r with
       | inr _ => metadata_of w' = metadata_with cfg w records
       | inl _ => metadata_of w' = metadata_of w \/ database_emptied cfg w w'
       end.
Proof.
  unfold insertUploadRecords, metadata_with, database_emptied.
  destruct records as [|record rest].
  - exists (inr tt), w. split; [reflexivity|]. unfold metadata_of.
    cbn [map]. rewrite !app_nil_r. destruct (USING_SUPABASE cfg); reflexivity.
  - destruct (USING_SUPABASE cfg).
    + destruct (insert_uploads_error net); eexists _, _; (split; [reflexivity|]);
        [left|]; reflexivity.
    + unfold bind.
      destruct (readLocalDb_cases w)
        as [(failure & -> & _ & Hu) | (w1 & -> & Hfile & Hwe & _ & _ & Hcloud & _)].
      * destruct (failed_reset_metadata failure w Hu) as [He Hup].
        destruct (after_failed_write_facts failure w) as (_ & _ & _ & Hc & _).
        eexists _, _. split; [reflexivity|]. left.
        unfold metadata_of. rewrite He, Hup, Hc. reflexivity.
      * unfold writeLocalDb. cbn [events uploads].
        destruct (db_write_error (disk w1)) as [failure|] eqn:Hw1;
          eexists _, _; (split; [reflexivity|]).
        { destruct (file_opened failure) eqn:Hopen.
          - right. split; [reflexivity|].
            split; [exists failure; split; [congruence | exact Hopen]|].
            split; [reflexivity|]. cbn [cloud]. rewrite Hcloud. split; reflexivity.
          - left. unfold metadata_of, stored_events, stored_uploads.
            rewrite Hfile, Hcloud. reflexivity. }
        { unfold metadata_of, stored_events, stored_uploads. cbn [disk db_file cloud].
          rewrite Hcloud. reflexivity. }
Qed.

Lemma upload_files_frame eventId guestName uploadedAt rnd files :
  forall index created records w,
    exists created' records' err w',
      upload_files net eventId guestName uploadedAt rnd index files created records w
      = (inr (created', records', err), w')
      /\ metadata_of w' = metadata_of w
      /\ (err = None ->
          records' = records
                     ++ remote_records eventId guestName uploadedAt rnd index files).
Proof.
  induction files as [|file rest IH]; intros index created records w.
  - eexists _, _, _, _. split; [reflexivity|]. split; [reflexivity|].
    intros _. cbn. rewrite app_nil_r. reflexivity.
  - cbn [upload_files remote_records]. unfold bind at 1, storage_upload.
    fold (remote_key eventId rnd index (originalname file)).
    destruct (storage_upload_error net _).
    { eexists _, _, _, _. split; [reflexivity|]. split; [reflexivity | discriminate]. }
    destruct (sb_bucket (cloud w) !! _).
    { eexists _, _, _, _. split; [reflexivity|]. split; [reflexivity | discriminate]. }
    match goal with
    | |- context [upload_files _ _ _ _ _ _ _ ?c ?r ?w1] =>
        destruct (IH (S index) c r w1) as (created' & records' & err & w' & -> & Hm & Hr)
    end.
    eexists _, _, _, _. split; [reflexivity|]. split; [exact Hm|].
    intros Herr. rewrite (Hr Herr), <- app_assoc. reflexivity.
Qed.

Lemma remove_all_frame keys w :
  exists w', remove_all net keys w = (inr tt, w') /\ metadata_of w' = metadata_of w.
Proof.
  destruct (remove_all_spec net keys w) as (w' & Hrun & Hdisk & Hev & Hup & _).
  exists w'. split; [exact Hrun|].
  unfold metadata_of, stored_events, stored_uploads. rewrite Hdisk, Hev, Hup.
  reflexivity.
Qed.

Lemma remote_records_fields eventId' guestName' uploadedAt' rnd index files :
  Forall (fun r => eventId r = eventId' /\ guestName r = guestName'
                   /\ uploadedAt r = uploadedAt')
         (remote_records eventId' guestName' uploadedAt' rnd index files).
Proof. revert index; induction files; intros; cbn; constructor; auto. Qed.

Lemma local_records_fields eventId' guestName' uploadedAt' rnd index files :
  Forall (fun r => eventId r = eventId' /\ guestName r = guestName'
                   /\ uploadedAt r = uploadedAt')
         (local_records eventId' guestName' uploadedAt' rnd index files).
Proof. revert index; induction files; intros; cbn; constructor; auto. Qed.

Lemma after_multer_frame id guest now rnd files w :
  files <> [] ->
  exists resp w',
    after_multer cfg net id guest now rnd (inr files) w = (inr resp, w')
    /\ ((resp = {| status := 201; json := JsonUploaded (length files) |}
         /\ exists records,
              length records = length files
              /\ Forall (fun r => eventId r = id
                                  /\ guestName r = sanitizeText guest 80
                                  /\ uploadedAt r = now) records
              /\ metadata_of w' = metadata_with cfg w records)
        \/ (status resp = 500%nat
            /\ (exists msg, json resp = JsonError msg)
            /\ (metadata_of w' = metadata_of w \/ database_emptied cfg w w'))).
Proof.
  intros Hne. destruct files as [|file rest]; [contradiction|].
  cbn [after_multer]. set (files := file :: rest).
  unfold bind at 1, write_and_commit.
  destruct (USING_SUPABASE cfg) eqn:Hmode.
  - unfold bind at 1.
    destruct (upload_files_frame id (sanitizeText guest 80) now rnd
                files 0 [] [] w) as (created & records & err & w1 & -> & Hm1 & Hrec).
    destruct err as [error|].
    + cbn [ret]. unfold bind.
      destruct (remove_all_frame created w1) as (w2 & Hrm & Hm2).
      destruct (true && negb (bool_decide (created = []))).
      * rewrite Hrm. eexists _, _. split; [reflexivity|]. right.
        split; [reflexivity|]. split; [eauto | left; congruence].
      * eexists _, _. split; [reflexivity|]. right.
        split; [reflexivity|]. split; [eauto | left; congruence].
    + specialize (Hrec eq_refl). cbn [app] in Hrec. subst records.
      unfold bind at 1, caught, try_catch. unfold bind at 1.
      destruct (insertUploadRecords_frame
                  (remote_records id (sanitizeText guest 80) now rnd 0 files)
                  w1) as (r & w2 & -> & Hr).
      destruct r as [error|[]]; cbn [ret].
      * assert (Hr' : metadata_of w2 = metadata_of w1).
        { destruct Hr as [Hr | (Hlocal & _)]; [exact Hr | congruence]. }
        unfold bind.
        destruct (remove_all_frame created w2) as (w3 & Hrm & Hm3).
        destruct (true && negb (bool_decide (created = []))).
        { rewrite Hrm. eexists _, _. split; [reflexivity|]. right.
          split; [reflexivity|]. split; [eauto | left; congruence]. }
        { eexists _, _. split; [reflexivity|]. right.
          split; [reflexivity|]. split; [eauto | left; congruence]. }
      * eexists _, _. split; [reflexivity|]. left. split; [reflexivity|].
        eexists. split; [apply remote_records_length|].
        split; [apply remote_records_fields|].
        rewrite Hr. unfold metadata_with, metadata_of in *. rewrite Hmode.
        injection Hm1 as -> -> -> ->. reflexivity.
  - unfold bind at 1, caught, try_catch. unfold bind at 1.
    destruct (insertUploadRecords_frame
                (local_records id (sanitizeText guest 80) now rnd 0 files)
                w) as (r & w2 & -> & Hr).
    destruct r as [error|[]]; cbn [ret].
    + unfold bind. cbn [andb ret]. eexists _, _. split; [reflexivity|]. right.
      split; [reflexivity|]. split; [eauto | exact Hr].
    + eexists _, _. split; [reflexivity|]. left. split; [reflexivity|].
      eexists. split; [apply local_records_length|].
      split; [apply local_records_fields | exact Hr].
Qed.

Lemma middleware_frame eventId rnd late parts w :
  exists r w',
    (if USING_SUPABASE cfg then uploadSupabase cfg else uploadLocal cfg)
      eventId rnd late 0%nat parts [] w = (inr r, w')
    /\ same_metadata w w'
    /\ match r with
       | inr files =>
           length files = length parts
           /\ (length parts <= MAX_FILES_PER_REQUEST cfg)%nat
           /\ Forall (fun file => refused_file cfg file = false) parts
       | inl _ =>
           (MAX_FILES_PER_REQUEST cfg < length parts)%nat
           \/ Exists (fun file => refused_file cfg file = true) parts
       end.
Proof.
  destruct (USING_SUPABASE cfg); [apply uploadSupabase_frame | apply uploadLocal_frame].
Qed.

Lemma upload_route_outcome (req : upload_request) (now : jsstring)
    (rnd : nat -> entropy) (w : world) :
  exists resp w',
    upload_route cfg net req now rnd w = (inr resp, w')
    /\ ((resp = {| status := 201; json := JsonUploaded (length (body_files req)) |}
         /\ ~ refused_batch cfg (body_files req)
         /\ List.find (fun e => bool_decide (ev_id e = param_eventId req))
                      (known_events cfg w) <> None
         /\ exists records,
              length records = length (body_files req)
              /\ Forall (fun r => eventId r = param_eventId req
                                  /\ guestName r = sanitizeText (body_guestName req) 80
                                  /\ uploadedAt r = now) records
              /\ metadata_of w' = metadata_with cfg w records)
        \/ ((exists msg, json resp = JsonError msg)
            /\ ((status resp = 400%nat /\ metadata_of w' = metadata_of w)
                \/ (status resp = 404%nat
                    /\ List.find (fun e => bool_decide (ev_id e = param_eventId req))
                                 (known_events cfg w) = None
                    /\ metadata_of w' = metadata_of w)
                \/ (status resp = 500%nat
                    /\ (metadata_of w' = metadata_of w
                        \/ database_emptied cfg w w'))))).
Proof.
  unfold upload_route, try_catch. unfold bind at 1.
  destruct (findEventById_frame (param_eventId req) w)
    as (found & w1 & -> & Hm1 & Hwe1 & Hfound).
  destruct found as [error|[event|]].
  - eexists _, _. split; [reflexivity|]. right. cbn [ret status json].
    split; [eauto|]. right. right. split; [reflexivity | left; exact Hm1].
  - assert (Hmw : forall records,
              metadata_with cfg w1 records = metadata_with cfg w records).
    { intros records. unfold metadata_with, metadata_of in *.
      injection Hm1 as -> -> -> ->. reflexivity. }
    destruct (middleware_frame (param_eventId req) rnd (body_late req)
                (body_files req) w1)
      as (r & w2 & Hrun & Hsame & Hr).
    pose proof (same_metadata_of _ _ Hsame) as Hm2.
    unfold bind. rewrite Hrun.
    assert (Hw2 : forall records,
              metadata_with cfg w2 records = metadata_with cfg w records).
    { intros records. rewrite <- Hmw. unfold metadata_with, metadata_of in *.
      injection Hm2 as -> -> -> ->. reflexivity. }
    destruct r as [err|files].
    + eexists _, _. split; [reflexivity|]. right. cbn [after_multer ret status json].
      split; [eauto|]. left. split; [reflexivity | congruence].
    + destruct Hr as (Hlen & Hcount & Hall).
      destruct files as [|file rest] eqn:Hfiles.
      * eexists _, _. split; [reflexivity|]. right. cbn [after_multer ret status json].
        split; [eauto|]. left. split; [reflexivity | congruence].
      * rewrite <- Hfiles in *.
        destruct (after_multer_frame (param_eventId req) (body_guestName req) now rnd
                    files w2) as (resp & w3 & -> & Hresp);
          [rewrite Hfiles; discriminate|].
        exists resp, w3. split; [reflexivity|].
        destruct Hresp as [(-> & records & Hrl & Hrf & Hrm)
                          | (Hst & Hmsg & Hrm)].
        { left. rewrite Hlen. split; [reflexivity|]. split.
          - intros [Hnil | [Hmany | Hex]].
            + rewrite Hnil, Hfiles in Hlen. discriminate.
            + lia.
            + apply Exists_exists in Hex as (x & Hx & Hrx).
              rewrite Forall_forall in Hall. rewrite (Hall x Hx) in Hrx. discriminate.
          - split; [rewrite <- Hfound; discriminate|].
            exists records. split; [congruence|]. split; [exact Hrf|].
            rewrite Hrm. apply Hw2. }
        { right. split; [exact Hmsg|]. right. right. split; [exact Hst|].
          destruct Hrm as [Hrm | (Hlocal & (failure & Hfail & Hopen) & Hfile & He & Hu)].
          - left. congruence.
          - right. split; [exact Hlocal|].
            destruct Hsame as (_ & Hwe2 & _).
            split; [exists failure; split; [congruence | exact Hopen]|].
            split; [exact Hfile|].
            unfold metadata_of in Hm1, Hm2.
            injection Hm1 as _ _ He1 Hu1. injection Hm2 as _ _ He2 Hu2.
            split; congruence. }
  - eexists _, _. split; [reflexivity|]. right. cbn [ret status json].
    split; [eauto|]. right. left. split; [reflexivity|].
    split; [symmetry; exact Hfound | exact Hm1].
Qed.

(** X9: whenever the upload route answers, the status is 201, 400, 404
    or 500, and all of the batch is committed or nothing.  With 201 the
    event is known, the batch is not refused, and the metadata of the
    active backend gained exactly one record per file, each with the
    event's identifier, the trimmed guest name and the time of the
    request.  With 404 the event is unknown.  With 400 and 404 the
    metadata of both backends is as it was.  With 500 it is as it was,
    unless in local mode the write of the database file failed after the
    file was opened, which leaves the file without content: no record of
    the batch is stored then either, and the events and uploads stored
    before are lost. *)
Theorem upload_route_all_or_nothing (req : upload_request) (now : jsstring)
    (rnd : nat -> entropy) (w : world) (resp : response) (w' : world) :
  upload_route cfg net req now rnd w = (inr resp, w') ->
  (resp = {| status := 201; json := JsonUploaded (length (body_files req)) |}
   /\ ~ refused_batch cfg (body_files req)
   /\ List.find (fun e => bool_decide (ev_id e = param_eventId req))
                (known_events cfg w) <> None
   /\ exists records,
        length records = length (body_files req)
        /\ Forall (fun r => eventId r = param_eventId req
                            /\ guestName r = sanitizeText (body_guestName req) 80
                            /\ uploadedAt r = now) records
        /\ metadata_of w' = metadata_with cfg w records)
  \/ ((exists msg, json resp = JsonError msg)
      /\ ((status resp = 400%nat /\ metadata_of w' = metadata_of w)
          \/ (status resp = 404%nat
              /\ List.find (fun e => bool_decide (ev_id e = param_eventId req))
                           (known_events cfg w) = None
              /\ metadata_of w' = metadata_of w)
          \/ (status resp = 500%nat
              /\ (metadata_of w' = metadata_of w
                  \/ (database_emptied cfg w w'
                      /\ stored_events w' = []
                      /\ stored_uploads w' = []))))).
Proof.
  intros Hrun.
  destruct (upload_route_outcome req now rnd w) as (resp0 & w0 & Hrun0 & Hcases).
  rewrite Hrun in Hrun0. injection Hrun0 as <- <-.
  destruct Hcases as [Hok | (Hmsg & [H400 | [H404 | (H500 & Hmeta)]])].
  - left. exact Hok.
  - right. split; [exact Hmsg|]. left. exact H400.
  - right. split; [exact Hmsg|]. right. left. exact H404.
  - right. split; [exact Hmsg|]. right. right. split; [exact H500|].
    destruct Hmeta as [Hmeta | Hemptied]; [left; exact Hmeta|].
    right. split; [exact Hemptied|].
    destruct Hemptied as (_ & _ & Hfile & _).
    unfold stored_events, stored_uploads. rewrite Hfile. split; reflexivity.
Qed.

(** X10: for a known event, a batch that is refused (no file, more files
    than allowed, or a file that is not an image or a video or reaches
    the size limit) is answered with 400 and leaves the metadata of both
    backends as it was. *)
Theorem refused_batch_rejected (req : upload_request) (now : jsstring)
    (rnd : nat -> entropy) (w : world) :
  event_exists cfg net (param_eventId req) w ->
  refused_batch cfg (body_files req) ->
  exists msg w',
    upload_route cfg net req now rnd w
    = (inr {| status := 400; json := JsonError msg |}, w')
    /\ metadata_of w' = metadata_of w.
Proof.
  intros Hev Href. unfold upload_route, try_catch. unfold bind at 1.
  destruct (findEventById_exists cfg net _ _ Hev) as (event & ->).
  destruct (middleware_frame (param_eventId req) rnd (body_late req)
              (body_files req) w)
    as (r & w2 & Hrun & Hsame & Hr).
  pose proof (same_metadata_of _ _ Hsame) as Hm2.
  unfold bind. rewrite Hrun. destruct r as [err|files].
  - eexists _, _. split; [reflexivity | exact Hm2].
  - destruct Hr as (Hlen & Hcount & Hall). destruct files as [|file rest].
    + eexists _, _. split; [reflexivity | exact Hm2].
    + exfalso. destruct Href as [Hnil | [Hmany | Hex]].
      * rewrite Hnil in Hlen. discriminate.
      * lia.
      * apply Exists_exists in Hex as (x & Hx & Hrx).
        rewrite Forall_forall in Hall. rewrite (Hall x Hx) in Hrx. discriminate.
Qed.

End RouteFrame.

Lemma upload_route_all_or_nothing_witness :
  exists resp w',
    upload_route local_cfg no_faults (sample_request [png_file]) sample_time sample_rnd
      full_disk_world = (inr resp, w')
    /\ status resp = 500%nat
    /\ database_emptied local_cfg full_disk_world w'
    /\ stored_events full_disk_world = [sample_event]
    /\ stored_events w' = [].
Proof.
  assert (Hrun : exists resp w',
            upload_route local_cfg no_faults (sample_request [png_file]) sample_time
              sample_rnd full_disk_world = (inr resp, w')
            /\ status resp = 500%nat
            /\ stored_events w' = [])
    by (vm_compute; eexists _, _; repeat split; reflexivity).
  destruct Hrun as (resp & w' & Hrun & Hst & Hev).
  exists resp, w'. split; [exact Hrun|]. split; [exact Hst|].
  destruct (upload_route_all_or_nothing local_cfg no_faults
              (sample_request [png_file]) sample_time sample_rnd full_disk_world
              resp w' Hrun)
    as [(Hresp & _)
       | (_ & [(H400 & _) | [(H404 & _) | (_ & [Hmeta | (Hemptied & _ & _)])]])].
  - rewrite Hresp in Hst. discriminate Hst.
  - rewrite Hst in H400. discriminate H400.
  - rewrite Hst in H404. discriminate H404.
  - exfalso. unfold metadata_of in Hmeta. injection Hmeta as Hse _ _ _.
    rewrite Hev in Hse. discriminate Hse.
  - split; [exact Hemptied|]. split; [reflexivity | exact Hev].
Defined.

Lemma refused_batch_rejected_witness :
  exists msg w',
    upload_route local_cfg no_faults (sample_request (repeat png_file 21)) sample_time
      sample_rnd sample_world
    = (inr {| status := 400; json := JsonError msg |}, w')
    /\ metadata_of w' = metadata_of sample_world.
Proof.
  apply (refused_batch_rejected local_cfg no_faults
           (sample_request (repeat png_file 21)) sample_time sample_rnd sample_world).
  - exists sample_event. split; [left | reflexivity].
  - right. left. cbn. lia.
Defined.

(** ** Listing and the pages that need the admin token *)

Lemma find_Some_facts {A} (f : A -> bool) l x :
  List.find f l = Some x -> x ∈ l /\ f x = true.
Proof.
  intros Hf. apply List.find_some in Hf as [Hin Hx].
  split; [apply list_elem_of_In, Hin | exact Hx].
Qed.

Section ListingFacts.
Context `{Runtime} (cfg : config) (net : supabase_faults).

Lemma selected_uploads_event w id :
  Forall (fun item => eventId item = id) (selected_uploads cfg w id).
Proof.
  unfold selected_uploads. destruct (USING_SUPABASE cfg).
  - apply List.Forall_forall. intros x Hx.
    apply in_map_iff in Hx as (row & <- & Hrow).
    apply filter_In in Hrow as [_ Hrow]. apply bool_decide_eq_true in Hrow. exact Hrow.
  - apply List.Forall_forall. intros x Hx.
    apply in_map_iff in Hx as (item & <- & Hitem).
    apply filter_In in Hitem as [_ Hitem]. apply bool_decide_eq_true in Hitem.
    exact Hitem.
Qed.

Lemma listUploadsForEvent_frame id w :
  exists r w',
    listUploadsForEvent cfg net id w = (r, w')
    /\ metadata_of w' = metadata_of w
    /\ files (disk w') = files (disk w)
    /\ directories (disk w') = directories (disk w)
    /\ match r with
       | inr listed => listed ≡ₚ selected_uploads cfg w id
       | inl _ => True
       end.
Proof.
  unfold listUploadsForEvent, selected_uploads. destruct (USING_SUPABASE cfg).
  - destruct (select_uploads_error net); eexists _, _;
      (split; [reflexivity|]); repeat split.
    unfold order_newest_first. apply Permutation_map, sort_by_perm.
  - unfold bind.
    destruct (readLocalDb_cases w)
      as [(failure & -> & _ & Hu) | (w1 & -> & Hfile & _ & Hfiles & Hdirs & Hcloud & _)].
    + destruct (failed_reset_frame cfg failure w Hu) as (Hm & Hf & Hd & _).
      eexists _, _. repeat split; auto.
    + eexists _, _. split; [reflexivity|]. split.
      { unfold metadata_of, stored_events, stored_uploads. rewrite Hfile, Hcloud.
        reflexivity. }
      split; [exact Hfiles|]. split; [exact Hdirs|].
      cbn [ret uploads]. apply sort_by_perm.
Qed.

End ListingFacts.

Section AuthorizationFacts.
Context `{Runtime} (cfg : config) (net : supabase_faults).

Lemma findEventById_gate id w :
  exists r w',
    findEventById cfg net id w = (r, w')
    /\ metadata_of w' = metadata_of w
    /\ files (disk w') = files (disk w)
    /\ directories (disk w') = directories (disk w)
    /\ known_events cfg w' = known_events cfg w
    /\ match r with
       | inr (Some event) =>
           List.find (fun e => bool_decide (ev_id e = id)) (known_events cfg w)
           = Some event
           /\ ev_id event = id
       | inr None =>
           List.find (fun e => bool_decide (ev_id e = id)) (known_events cfg w) = None
       | inl _ => True
       end.
Proof.
  assert (Hfound : forall l found,
    found = List.find (fun e => bool_decide (ev_id e = id)) l ->
    match found with
    | Some event =>
        List.find (fun e => bool_decide (ev_id e = id)) l = Some event /\ ev_id event = id
    | None => List.find (fun e => bool_decide (ev_id e = id)) l = None
    end).
  { intros l [event|] Hf; [|auto]. split; [auto|].
    symmetry in Hf. apply find_Some_facts in Hf as [_ Hid].
    apply bool_decide_eq_true in Hid. exact Hid. }
  unfold findEventById. destruct (USING_SUPABASE cfg) eqn:Hmode.
  - assert (Hk : known_events cfg w
                 = map (of_event_row (sb_timestamptz (cloud w))) (sb_events (cloud w)))
      by (unfold known_events; rewrite Hmode; reflexivity).
    destruct (select_event_error net);
      [eexists _, _; (split; [reflexivity|]); repeat split|].
    destruct (List.find (fun row => bool_decide (e_id row = id)) (sb_events (cloud w)))
      as [row|] eqn:Hrow;
      eexists _, _; (split; [reflexivity|]); do 4 (split; [reflexivity|]).
    + apply (Hfound (known_events cfg w)
               (Some (of_event_row (sb_timestamptz (cloud w)) row))).
      rewrite Hk, find_of_rows, Hrow. reflexivity.
    + rewrite Hk, find_of_rows, Hrow. reflexivity.
  - unfold known_events. rewrite Hmode. unfold bind.
    destruct (readLocalDb_cases w)
      as [(failure & -> & _ & Hu) | (w1 & -> & Hfile & _ & Hfiles & Hdirs & Hcloud & _)].
    + destruct (failed_reset_frame cfg failure w Hu) as (Hm & Hf & Hd & Hk).
      unfold known_events in Hk. rewrite Hmode in Hk.
      eexists _, _. repeat split; auto.
    + assert (Hev : stored_events w1 = stored_events w).
      { unfold stored_events at 1. rewrite Hfile. reflexivity. }
      eexists _, _. split; [reflexivity|]. split.
      { unfold metadata_of, stored_events, stored_uploads. rewrite Hfile, Hcloud.
        reflexivity. }
      split; [exact Hfiles|]. split; [exact Hdirs|]. split; [exact Hev|].
      cbn [ret events]. apply Hfound. reflexivity.
Qed.

Lemma zip_signed_views data uploads :
  forall index,
    map view_of (zip_signed data index uploads) = uploads
    /\ forall i view,
         zip_signed data index uploads !! i = Some view ->
         viewUrl view = or_else (mjoin (data ≫= (fun l => l !! (index + i)%nat))) [].
Proof.
  induction uploads as [|item rest IH]; intros index; cbn [zip_signed map].
  - split; [reflexivity|]. intros i view Hi. discriminate.
  - destruct (IH (S index)) as [Hmap Hurl]. split; [f_equal; exact Hmap|].
    intros [|i] view Hi.
    + injection Hi as <-. cbn [viewUrl]. rewrite Nat.add_0_r. reflexivity.
    + cbn in Hi. rewrite (Hurl i view Hi). do 4 f_equal. lia.
Qed.

Lemma local_views_views token uploads :
  forall views,
    local_views token uploads = inr views ->
    map view_of views = uploads
    /\ Forall (fun view =>
                 exists event_part path_part token_part,
                   viewUrl view
                   = lit "/admin/file/" ++ event_part ++ lit "/" ++ path_part
                       ++ lit "?token=" ++ token_part
                   /\ encodeURIComponent (eventId (view_of view)) = inr event_part
                   /\ encodeURIComponent
                        (match storagePath (view_of view) with
                         | Some p => p
                         | None => lit "undefined"
                         end) = inr path_part
                   /\ encodeURIComponent token = inr token_part
                   /\ Forall (fun c => uri_safe c = true)
                             (event_part ++ path_part ++ token_part)) views.
Proof.
  induction uploads as [|item rest IH]; intros views Hv; cbn [local_views] in Hv.
  - injection Hv as <-. split; [reflexivity | constructor].
  - destruct (encodeURIComponent (eventId item)) as [|event_part] eqn:He; [discriminate|].
    destruct (encodeURIComponent _) as [|path_part] eqn:Hp in Hv; [discriminate|].
    destruct (encodeURIComponent token) as [|token_part] eqn:Ht; [discriminate|].
    destruct (local_views token rest) as [|views'] eqn:Hr; [discriminate|].
    injection Hv as <-. destruct (IH views' eq_refl) as [Hmap Hall].
    split; [cbn [map view_of]; f_equal; exact Hmap|].
    constructor; [|exact Hall].
    exists event_part, path_part, token_part. cbn [viewUrl view_of].
    split; [reflexivity|]. split; [exact He|]. split; [exact Hp|].
    split; [reflexivity|].
    repeat (apply Forall_app; split);
      eapply encodeURIComponent_safe_bounded; try apply le_n; eassumption.
Qed.

Lemma attachViewUrls_shape (createSignedUrls : list (option jsstring) -> signed_batch)
    (uploads : list upload) (token : jsstring) (views : list upload_view) :
  attachViewUrls cfg createSignedUrls uploads token = inr views ->
  map view_of views = uploads.
Proof.
  unfold attachViewUrls. intros Hv. destruct uploads as [|item rest].
  { injection Hv as <-. reflexivity. }
  set (uploads := item :: rest) in *. destruct (USING_SUPABASE cfg).
  - destruct (batch_error _) in Hv; [discriminate|]. injection Hv as <-.
    apply (zip_signed_views _ uploads 0).
  - apply (local_views_views token uploads views Hv).
Qed.

(** X11: when [attachViewUrls] returns, the views are the given uploads
    in their order, one each.  In local mode the URL of a view is
    [/admin/file/], the encoded event identifier, a slash, the encoded
    storage path, [?token=] and the encoded token, and the three encoded
    parts consist of unreserved characters, percent signs and upper-case
    hexadecimal digits only.  In remote mode the URL of the view at a
    position is the signed URL the service returned for that position,
    or the empty string when there is none. *)
Theorem attachViewUrls_views (createSignedUrls : list (option jsstring) -> signed_batch)
    (uploads : list upload) (token : jsstring) (views : list upload_view) :
  attachViewUrls cfg createSignedUrls uploads token = inr views ->
  map view_of views = uploads
  /\ (USING_SUPABASE cfg = false ->
      Forall (fun view =>
                exists event_part path_part token_part,
                  viewUrl view
                  = lit "/admin/file/" ++ event_part ++ lit "/" ++ path_part
                      ++ lit "?token=" ++ token_part
                  /\ encodeURIComponent (eventId (view_of view)) = inr event_part
                  /\ encodeURIComponent
                       (match storagePath (view_of view) with
                        | Some p => p
                        | None => lit "undefined"
                        end) = inr path_part
                  /\ encodeURIComponent token = inr token_part
                  /\ Forall (fun c => uri_safe c = true)
                            (event_part ++ path_part ++ token_part)) views)
  /\ (USING_SUPABASE cfg = true ->
      forall i view,
        views !! i = Some view ->
        viewUrl view
        = or_else (mjoin (batch_data (createSignedUrls (map storagePath uploads))
                            ≫= (fun l => l !! i))) []).
Proof.
  unfold attachViewUrls. intros Hv. destruct uploads as [|item rest].
  { injection Hv as <-. split; [reflexivity|]. split; [constructor|].
    intros _ i view Hi. discriminate. }
  set (uploads := item :: rest) in *. destruct (USING_SUPABASE cfg).
  - destruct (batch_error _) in Hv; [discriminate|]. injection Hv as <-.
    destruct (zip_signed_views
                (batch_data (createSignedUrls (map storagePath uploads))) uploads 0)
      as [Hmap Hurl].
    split; [exact Hmap|]. split; [discriminate|]. intros _ i view Hi.
    apply (Hurl i view Hi).
  - destruct (local_views_views token uploads views Hv) as [Hmap Hall].
    split; [exact Hmap|]. split; [intros _; exact Hall | discriminate].
Qed.

Lemma findEventById_selected id w id' :
  selected_uploads cfg (snd (findEventById cfg net id w)) id'
  = selected_uploads cfg w id'.
Proof.
  unfold findEventById, selected_uploads. destruct (USING_SUPABASE cfg).
  - destruct (select_event_error net); [|destruct (List.find _ _)]; reflexivity.
  - unfold bind.
    destruct (readLocalDb_cases w)
      as [(failure & -> & _ & Hu) | (w1 & -> & Hfile & _)]; cbn [snd ret].
    + destruct (failed_reset_metadata failure w Hu) as [_ ->]. reflexivity.
    + unfold stored_uploads at 1. rewrite Hfile. reflexivity.
Qed.

(** X12: the admin page is rendered only for a known event whose admin
    token the request carries.  It then shows that event, the uploads of
    that event and of no other, the join link built from the base URL
    and the identifier, and the QR code of that link; the metadata of
    both backends is as it was. *)
Theorem admin_route_authorized (BASE_URL : option jsstring)
    (toDataURL : jsstring -> thrown + jsstring)
    (createSignedUrls : list (option jsstring) -> signed_batch)
    (req : http_request) (id : jsstring) (token_param : jsval) (w w' : world)
    (event : event) (joinUrl qrDataUrl : jsstring) (views : list upload_view) :
  admin_route cfg net BASE_URL toDataURL createSignedUrls req id token_param w
  = (inr (AdminPage event joinUrl qrDataUrl views), w') ->
  authorized cfg w id token_param event
  /\ map view_of views ≡ₚ selected_uploads cfg w id
  /\ Forall (fun view => eventId (view_of view) = id) views
  /\ joinUrl = getBaseUrl BASE_URL req ++ lit "/e/" ++ id
  /\ toDataURL joinUrl = inr qrDataUrl
  /\ metadata_of w' = metadata_of w.
Proof.
  unfold admin_route, try_catch. unfold bind at 1.
  pose proof (findEventById_selected id w id) as Hselected.
  destruct (findEventById_gate id w) as (found & w1 & Hrun1 & Hm1 & _ & _ & _ & Hfound).
  rewrite Hrun1 in Hselected |- *. cbn [snd] in Hselected.
  destruct found as [error|[ev|]]; cbn [ret]; try discriminate.
  destruct Hfound as [Hfind Hid].
  case_bool_decide as Htoken; cbn [negb ret]; [|discriminate].
  destruct (toDataURL _) as [error|qr] eqn:Hqr; cbn [throw]; [discriminate|].
  unfold bind.
  destruct (listUploadsForEvent_frame cfg net id w1)
    as (listed & w2 & -> & Hm2 & _ & _ & Hlisted).
  destruct listed as [error|listed]; cbn [ret]; [discriminate|].
  destruct (attachViewUrls _ _ _ _) as [error|withUrls] eqn:Hviews; cbn [throw ret];
    [discriminate|].
  intros Hrun. injection Hrun as <- <- <- <- <-.
  pose proof (attachViewUrls_shape _ _ _ _ Hviews) as Hmap.
  split; [split; [exact Hfind | split; [exact Hid | exact Htoken]]|].
  assert (Hperm : map view_of withUrls ≡ₚ selected_uploads cfg w id).
  { rewrite Hmap, Hlisted, Hselected. reflexivity. }
  split; [exact Hperm|]. split.
  - apply List.Forall_map with (f := view_of) (P := fun item => eventId item = id).
    rewrite Hperm. apply selected_uploads_event.
  - split; [reflexivity|]. split; [exact Hqr | congruence].
Qed.

Lemma appendSupabase_from_bound reads uploads :
  forall index archive,
    exists entries,
      fst (appendSupabaseUploadsToArchive_from reads index archive uploads)
      = archive ++ entries
      /\ (length entries <= length uploads)%nat.
Proof.
  induction uploads as [|item rest IH]; intros index archive;
    cbn [appendSupabaseUploadsToArchive_from length].
  - exists (@nil archive_entry). rewrite app_nil_r. split; [reflexivity | cbn [length]; lia].
  - assert (Hstop : forall e : option thrown,
              exists entries,
                fst (archive, e) = archive ++ entries
                /\ (length entries <= S (length rest))%nat).
    { intros e. exists (@nil archive_entry). rewrite app_nil_r. split; [reflexivity | cbn; lia]. }
    destruct (sign_error _); [apply Hstop|].
    destruct (signedUrl _) as [[|c url]|]; [apply Hstop | | apply Hstop].
    destruct (fetch reads (c :: url)) as [error|response]; [apply Hstop|].
    destruct (ok response); [|apply Hstop].
    destruct (response_stream response) as [data|]; [|apply Hstop].
    destruct (IH (S index)
                (archive ++ [ {| source := FromStream data;
                                 name := buildArchiveEntryName item index |} ]))
      as (entries & -> & Hlen).
    eexists (_ :: entries). rewrite <- app_assoc. split; [reflexivity | cbn; lia].
Qed.

Lemma appendLocal_from_bound fs id uploads :
  forall index archive,
    exists entries,
      fst (appendLocalUploadsToArchive_from cfg fs id index archive uploads)
      = archive ++ entries
      /\ (length entries <= length uploads)%nat.
Proof.
  induction uploads as [|item rest IH]; intros index archive;
    cbn [appendLocalUploadsToArchive_from length].
  - exists (@nil archive_entry). rewrite app_nil_r. split; [reflexivity | cbn [length]; lia].
  - destruct (storagePath item) as [key|].
    + destruct (existsSync fs _); cbn [negb].
      * destruct (IH (S index)
                    (archive ++ [ {| source := FromFile (Path.join [UPLOADS_DIR cfg; id; key]);
                                     name := buildArchiveEntryName item index |} ]))
          as (entries & -> & Hlen).
        eexists (_ :: entries). rewrite <- app_assoc. split; [reflexivity | cbn; lia].
      * destruct (IH (S index) archive) as (entries & -> & Hlen).
        exists entries. split; [reflexivity | cbn [length]; lia].
    + exists (@nil archive_entry). rewrite app_nil_r. split; [reflexivity | cbn; lia].
Qed.

Lemma selected_uploads_local_paths w id :
  USING_SUPABASE cfg = false ->
  Forall (fun item => is_Some (storagePath item)) (selected_uploads cfg w id).
Proof.
  intros Hmode. unfold selected_uploads. rewrite Hmode.
  apply List.Forall_forall. intros x Hx.
  apply in_map_iff in Hx as (item & <- & _). cbn [with_storagePath storagePath]. eauto.
Qed.

(** X13: a ZIP download is started only for a known event whose admin
    token the request carries and which has at least one upload.  The
    archive is named after the sanitized event name and the identifier,
    holds at most one entry per upload of that event, and in local mode
    appending the entries raises no error; the metadata of both backends
    is as it was. *)
Theorem download_route_authorized (reads : supabase_reads) (id : jsstring)
    (token_param : jsval) (w w' : world) (r : download_result)
    (zipFileName : jsstring) (entries : list archive_entry) :
  download_route cfg net reads id token_param w = (inr r, w') ->
  disclosed r = Some (zipFileName, entries) ->
  exists event listed,
    authorized cfg w id token_param event
    /\ listed ≡ₚ selected_uploads cfg w id
    /\ listed <> []
    /\ zipFileName
       = sanitizeArchiveName (JSString (or_else (Some (eventName event)) (lit "anilar")))
           ++ lit "-" ++ id ++ lit ".zip"
    /\ (length entries <= length listed)%nat
    /\ (USING_SUPABASE cfg = false -> r = ZipStream zipFileName entries)
    /\ metadata_of w' = metadata_of w.
Proof.
  unfold download_route, try_catch. unfold bind at 1.
  pose proof (findEventById_selected id w id) as Hselected.
  destruct (findEventById_gate id w) as (found & w1 & Hrun1 & Hm1 & _ & _ & _ & Hfound).
  rewrite Hrun1 in Hselected |- *. cbn [snd] in Hselected.
  destruct found as [error|[ev|]]; cbn [ret].
  1, 3: intros Hrun; injection Hrun as <- _; discriminate.
  destruct Hfound as [Hfind Hid].
  case_bool_decide as Htoken; cbn [negb ret];
    [|intros Hrun; injection Hrun as <- _; discriminate].
  unfold bind.
  destruct (listUploadsForEvent_frame cfg net id w1)
    as (listed & w2 & -> & Hm2 & _ & _ & Hlisted).
  destruct listed as [error|listed]; cbn [ret];
    [intros Hrun; injection Hrun as <- _; discriminate|].
  destruct listed as [|item rest] eqn:Hl;
    [intros Hrun; injection Hrun as <- _; discriminate|].
  rewrite <- Hl in *.
  rewrite Hselected in Hlisted.
  assert (Hne : listed <> []) by (rewrite Hl; discriminate).
  assert (Hbound : exists extra,
    fst (if USING_SUPABASE cfg
         then appendSupabaseUploadsToArchive reads [] listed
         else appendLocalUploadsToArchive cfg (disk w2) [] id listed) = extra
    /\ (length extra <= length listed)%nat
    /\ (USING_SUPABASE cfg = false ->
        snd (appendLocalUploadsToArchive cfg (disk w2) [] id listed) = None)).
  { destruct (USING_SUPABASE cfg) eqn:Hmode.
    - destruct (appendSupabase_from_bound reads listed 0 []) as (extra & He & Hlen).
      exists extra. split; [exact He|]. split; [exact Hlen | discriminate].
    - destruct (appendLocal_from_bound (disk w2) id listed 0 []) as (extra & He & Hlen).
      exists extra. split; [exact He|]. split; [exact Hlen|]. intros _.
      unfold appendLocalUploadsToArchive. rewrite appendLocal_from_spec; [reflexivity|].
      rewrite Hlisted. apply selected_uploads_local_paths, Hmode. }
  destruct Hbound as (extra & Hextra & Hlen & Hlocal).
  destruct (if USING_SUPABASE cfg
            then appendSupabaseUploadsToArchive reads [] listed
            else appendLocalUploadsToArchive cfg (disk w2) [] id listed)
    as [archive [error|]] eqn:Happ; cbn [fst] in Hextra; subst archive;
    intros Hrun; injection Hrun as <- <-; intros Hd; injection Hd as <- <-;
    exists ev, listed;
    (split; [split; [exact Hfind | split; [exact Hid | exact Htoken]]|]);
    (split; [exact Hlisted|]); (split; [exact Hne|]); (split; [reflexivity|]);
    (split; [exact Hlen|]); (split; [|congruence]).
  - intros Hmode. rewrite Hmode in Happ. specialize (Hlocal Hmode).
    rewrite Happ in Hlocal. discriminate.
  - reflexivity.
Qed.

(** X14: the file route serves a path only in local mode, for a known
    event whose admin token the request carries.  The path is the
    uploads directory joined with the event identifier and the last
    segment of the requested name, which holds no slash, and something
    exists at that path; the metadata is as it was. *)
Theorem file_route_authorized (id fileName_param : jsstring) (token_param : jsval)
    (w w' : world) (filePath : jsstring) :
  file_route cfg net id fileName_param token_param w = (inr (FileServed filePath), w') ->
  USING_SUPABASE cfg = false
  /\ (exists event, authorized cfg w id token_param event)
  /\ filePath = Path.join [UPLOADS_DIR cfg; id; Path.basename fileName_param]
  /\ Forall (fun c => c <> CHAR_FORWARD_SLASH) (Path.basename fileName_param)
  /\ existsSync (disk w) filePath = true
  /\ metadata_of w' = metadata_of w.
Proof.
  unfold file_route. destruct (USING_SUPABASE cfg) eqn:Hmode; [discriminate|].
  destruct (findEventById_gate id w)
    as (found & w1 & -> & Hm1 & Hfiles & Hdirs & _ & Hfound).
  destruct found as [error|[ev|]]; try discriminate.
  destruct Hfound as [Hfind Hid].
  case_bool_decide as Htoken; cbn [negb]; [|discriminate].
  destruct (existsSync (disk w1) _) eqn:Hex; cbn [negb]; [|discriminate].
  intros Hrun. injection Hrun as <- <-.
  split; [reflexivity|]. split; [exists ev; repeat split; assumption|].
  split; [reflexivity|]. split; [apply basename_no_slash|]. split; [|exact Hm1].
  unfold existsSync in *. rewrite <- Hfiles, <- Hdirs. exact Hex.
Qed.

(** X15: the page shown after creation is rendered only for a known
    event whose admin token the request carries; it shows that event,
    the join link and the admin link built from the base URL, the
    identifier and that token, and the QR code of the join link. *)
Theorem created_route_authorized (BASE_URL : option jsstring)
    (toDataURL : jsstring -> thrown + jsstring) (req : http_request) (id : jsstring)
    (token_param : jsval) (w w' : world) (event : event)
    (joinUrl adminUrl qrDataUrl token : jsstring) :
  created_route cfg net BASE_URL toDataURL req id token_param w
  = (inr (CreatedPage event joinUrl adminUrl qrDataUrl token), w') ->
  authorized cfg w id token_param event
  /\ token = adminToken event
  /\ joinUrl = getBaseUrl BASE_URL req ++ lit "/e/" ++ id
  /\ adminUrl = getBaseUrl BASE_URL req ++ lit "/admin/" ++ id ++ lit "?token="
                  ++ adminToken event
  /\ toDataURL joinUrl = inr qrDataUrl
  /\ metadata_of w' = metadata_of w.
Proof.
  unfold created_route, try_catch. unfold bind.
  destruct (findEventById_gate id w) as (found & w1 & -> & Hm1 & _ & _ & _ & Hfound).
  destruct found as [error|[ev|]]; cbn [ret]; try discriminate.
  destruct Hfound as [Hfind Hid].
  case_bool_decide as Htoken; cbn [negb ret]; [|discriminate].
  destruct (toDataURL _) as [error|qr] eqn:Hqr; cbn [throw ret]; [discriminate|].
  intros Hrun. injection Hrun as <- <- <- <- <- <-.
  split; [split; [exact Hfind | split; [exact Hid | exact Htoken]]|].
  split; [symmetry; exact Htoken|]. split; [reflexivity|].
  split; [rewrite Htoken; reflexivity|]. split; [exact Hqr | exact Hm1].
Qed.

Lemma read_routes_outcome (BASE_URL : option jsstring)
    (toDataURL : jsstring -> thrown + jsstring)
    (createSignedUrls : list (option jsstring) -> signed_batch)
    (reads : supabase_reads) (req : http_request) (id fileName_param : jsstring)
    (token_param : jsval) (w : world) :
  (exists r w',
     admin_route cfg net BASE_URL toDataURL createSignedUrls req id token_param w
     = (inr r, w')
     /\ metadata_of w' = metadata_of w)
  /\ (exists r w',
        download_route cfg net reads id token_param w = (inr r, w')
        /\ metadata_of w' = metadata_of w)
  /\ (exists r w',
        file_route cfg net id fileName_param token_param w = (inr r, w')
        /\ metadata_of w' = metadata_of w
        /\ (USING_SUPABASE cfg = true ->
            r = FileSent 404 (lit "Bu endpoint local depolama icindir.") /\ w' = w))
  /\ (exists r w',
        created_route cfg net BASE_URL toDataURL req id token_param w = (inr r, w')
        /\ metadata_of w' = metadata_of w)
  /\ (exists r w',
        event_route cfg net id w = (inr r, w')
        /\ metadata_of w' = metadata_of w
        /\ match r with
           | EventPage event size =>
               List.find (fun e => bool_decide (ev_id e = id)) (known_events cfg w)
               = Some event
               /\ size = MAX_FILE_SIZE_MB cfg
           | PageSent status _ =>
               status = 404%nat
               /\ List.find (fun e => bool_decide (ev_id e = id)) (known_events cfg w)
                  = None
           | CreatedPage _ _ _ _ _ => False
           | PagePassedOn _ => True
           end).
Proof.
  destruct (findEventById_gate id w) as (found & w1 & Hfind & Hm1 & _ & _ & _ & Hfound).
  destruct (listUploadsForEvent_frame cfg net id w1)
    as (listed & w2 & Hlist & Hm2 & _ & _ & _).
  assert (Hm12 : metadata_of w2 = metadata_of w) by congruence.
  split; [|split; [|split; [|split]]].
  - unfold admin_route, try_catch. unfold bind at 1. rewrite Hfind.
    destruct found as [error|[ev|]]; cbn [ret]; try (eexists _, _; split; [reflexivity|]; exact Hm1).
    case_bool_decide; cbn [negb ret]; [|eexists _, _; split; [reflexivity | exact Hm1]].
    destruct (toDataURL _); cbn [throw ret];
      [eexists _, _; split; [reflexivity | exact Hm1]|].
    unfold bind. rewrite Hlist.
    destruct listed as [error|listed]; cbn [ret];
      [eexists _, _; split; [reflexivity | exact Hm12]|].
    destruct (attachViewUrls _ _ _ _); cbn [throw ret];
      eexists _, _; (split; [reflexivity | exact Hm12]).
  - unfold download_route, try_catch. unfold bind at 1. rewrite Hfind.
    destruct found as [error|[ev|]]; cbn [ret]; try (eexists _, _; split; [reflexivity|]; exact Hm1).
    case_bool_decide; cbn [negb ret]; [|eexists _, _; split; [reflexivity | exact Hm1]].
    unfold bind. rewrite Hlist.
    destruct listed as [error|[|item rest]]; cbn [ret];
      try (eexists _, _; split; [reflexivity | exact Hm12]).
    destruct (if USING_SUPABASE cfg then _ else _) as [archive [error|]];
      eexists _, _; (split; [reflexivity | exact Hm12]).
  - unfold file_route. destruct (USING_SUPABASE cfg).
    { eexists _, _. split; [reflexivity|]. split; [reflexivity|]. auto. }
    rewrite Hfind.
    destruct found as [error|[ev|]];
      try (eexists _, _; split; [reflexivity|]; split; [exact Hm1 | discriminate]).
    case_bool_decide; cbn [negb];
      [|eexists _, _; split; [reflexivity|]; split; [exact Hm1 | discriminate]].
    destruct (existsSync _ _); cbn [negb];
      eexists _, _; (split; [reflexivity|]); (split; [exact Hm1 | discriminate]).
  - unfold created_route, try_catch. unfold bind. rewrite Hfind.
    destruct found as [error|[ev|]]; cbn [ret]; try (eexists _, _; split; [reflexivity|]; exact Hm1).
    case_bool_decide; cbn [negb ret]; [|eexists _, _; split; [reflexivity | exact Hm1]].
    destruct (toDataURL _); cbn [throw ret];
      eexists _, _; (split; [reflexivity | exact Hm1]).
  - unfold event_route, try_catch. unfold bind. rewrite Hfind.
    destruct found as [error|[ev|]]; cbn [ret];
      eexists _, _; (split; [reflexivity|]); (split; [exact Hm1|]).
    + exact I.
    + split; [apply Hfound | reflexivity].
    + split; [reflexivity | exact Hfound].
Qed.

(** X16: none of the five GET routes changes the events or upload
    records of either backend, whatever the result of the route is: a
    page, an error status, an error passed on to the error middleware,
    or, for the file route, an error of the lookup that nobody handles.
    In remote mode the file route answers 404 and touches nothing.  When
    the join page is rendered, its event is the known event of the asked
    identifier, and when the join route answers with a status, the status
    is 404 and no known event has the identifier; when the lookup of the
    event does not throw, the join route renders the page of the known
    event of that identifier if there is one and answers 404 if there is
    none. *)
Theorem read_routes_preserve_metadata (BASE_URL : option jsstring)
    (toDataURL : jsstring -> thrown + jsstring)
    (createSignedUrls : list (option jsstring) -> signed_batch)
    (reads : supabase_reads) (req : http_request) (id fileName_param : jsstring)
    (token_param : jsval) (w : world) :
  metadata_of
    (snd (admin_route cfg net BASE_URL toDataURL createSignedUrls req id token_param w))
  = metadata_of w
  /\ metadata_of (snd (download_route cfg net reads id token_param w)) = metadata_of w
  /\ metadata_of (snd (file_route cfg net id fileName_param token_param w))
     = metadata_of w
  /\ (USING_SUPABASE cfg = true ->
      file_route cfg net id fileName_param token_param w
      = (inr (FileSent 404 (lit "Bu endpoint local depolama icindir.")), w))
  /\ metadata_of (snd (created_route cfg net BASE_URL toDataURL req id token_param w))
     = metadata_of w
  /\ metadata_of (snd (event_route cfg net id w)) = metadata_of w
  /\ (forall event size,
        fst (event_route cfg net id w) = inr (EventPage event size) ->
        List.find (fun e => bool_decide (ev_id e = id)) (known_events cfg w) = Some event
        /\ size = MAX_FILE_SIZE_MB cfg)
  /\ (forall status text,
        fst (event_route cfg net id w) = inr (PageSent status text) ->
        status = 404%nat
        /\ List.find (fun e => bool_decide (ev_id e = id)) (known_events cfg w) = None)
  /\ (forall found,
        fst (findEventById cfg net id w) = inr found ->
        fst (event_route cfg net id w)
        = inr (match List.find (fun e => bool_decide (ev_id e = id))
                               (known_events cfg w) with
               | Some event => EventPage event (MAX_FILE_SIZE_MB cfg)
               | None => PageSent 404 (lit "Etkinlik bulunamadi.")
               end)).
Proof.
  assert (Hlookup : forall found,
            fst (findEventById cfg net id w) = inr found ->
            fst (event_route cfg net id w)
            = inr (match List.find (fun e => bool_decide (ev_id e = id))
                                   (known_events cfg w) with
                   | Some event => EventPage event (MAX_FILE_SIZE_MB cfg)
                   | None => PageSent 404 (lit "Etkinlik bulunamadi.")
                   end)).
  { intros found Hf. unfold event_route, try_catch, bind.
    destruct (findEventById_gate id w) as (r & w1 & Hrun & _ & _ & _ & _ & Hfound).
    rewrite Hrun in Hf |- *. cbn [fst] in Hf. subst r.
    destruct found as [event|]; cbn [ret fst].
    - destruct Hfound as [-> _]. reflexivity.
    - rewrite Hfound. reflexivity. }
  destruct (read_routes_outcome BASE_URL toDataURL createSignedUrls reads req id
              fileName_param token_param w)
    as ((r1 & w1 & -> & H1) & (r2 & w2 & -> & H2) & (r3 & w3 & -> & H3 & Hremote)
        & (r4 & w4 & Hrun4 & H4) & (r5 & w5 & Hrun5 & H5 & Hjoin)).
  rewrite Hrun4. rewrite Hrun5 in Hlookup |- *.
  cbn [fst snd] in *.
  split; [exact H1|]. split; [exact H2|]. split; [exact H3|].
  split; [intros Hmode; destruct (Hremote Hmode) as [-> ->]; reflexivity|].
  split; [exact H4|]. split; [exact H5|]. split; [|split].
  - intros event size Hr. injection Hr as ->. exact Hjoin.
  - intros status text Hr. injection Hr as ->. exact Hjoin.
  - exact Hlookup.
Qed.

(** X17: whenever [listUploadsForEvent] returns, its result is, up to
    order, the records the active backend holds under the asked
    identifier, each carrying that identifier: no record of another
    event is listed and none of this event is left out.  Reading changes
    neither the metadata nor the stored files. *)
Theorem listUploadsForEvent_selects (id : jsstring) (w w' : world)
    (listed : list upload) :
  listUploadsForEvent cfg net id w = (inr listed, w') ->
  listed ≡ₚ selected_uploads cfg w id
  /\ Forall (fun item => eventId item = id) listed
  /\ (forall item, item ∈ selected_uploads cfg w id -> item ∈ listed)
  /\ metadata_of w' = metadata_of w
  /\ files (disk w') = files (disk w).
Proof.
  intros Hrun.
  destruct (listUploadsForEvent_frame cfg net id w)
    as (r & w2 & Hrun' & Hm & Hfiles & _ & Hr).
  rewrite Hrun in Hrun'. injection Hrun' as <- <-.
  split; [exact Hr|]. split; [rewrite Hr; apply selected_uploads_event|].
  split; [intros item Hin; rewrite Hr; exact Hin|]. split; [exact Hm | exact Hfiles].
Qed.

End AuthorizationFacts.

Lemma attachViewUrls_views_witness :
  exists views,
    attachViewUrls local_cfg signs_nothing export_uploads (lit "a b") = inr views
    /\ map view_of views = export_uploads
    /\ map viewUrl views
       = [ lit "/admin/file/ab12cd/1700000000000-00000000-0000-4000-8123-456789abcdef.png?token=a%20b";
           lit "/admin/file/ab12cd/1700000000001-00000000-0000-4000-8123-456789abcdf0.png?token=a%20b" ].
Proof.
  destruct (attachViewUrls local_cfg signs_nothing export_uploads (lit "a b"))
    as [e|views] eqn:Hrun; [vm_compute in Hrun; discriminate|].
  exists views. split; [reflexivity|].
  split; [apply (attachViewUrls_views local_cfg signs_nothing export_uploads (lit "a b")
                   views Hrun)|].
  vm_compute in Hrun. injection Hrun as <-. reflexivity.
Defined.

Lemma admin_route_authorized_witness :
  exists event joinUrl qrDataUrl views w',
    admin_route (H := ascii_runtime) local_cfg no_faults None sample_qr signs_nothing
      sample_http (lit "ab12cd") sample_token gallery_world
    = (inr (AdminPage event joinUrl qrDataUrl views), w')
    /\ authorized local_cfg gallery_world (lit "ab12cd") sample_token event
    /\ joinUrl = getBaseUrl None sample_http ++ lit "/e/" ++ lit "ab12cd".
Proof.
  assert (Hrun : exists event joinUrl qrDataUrl views w',
            admin_route (H := ascii_runtime) local_cfg no_faults None sample_qr
              signs_nothing sample_http (lit "ab12cd") sample_token gallery_world
            = (inr (AdminPage event joinUrl qrDataUrl views), w')).
  { vm_compute. eexists _, _, _, _, _. reflexivity. }
  destruct Hrun as (event & joinUrl & qr & views & w' & Hrun).
  destruct (admin_route_authorized (H := ascii_runtime) local_cfg no_faults None
              sample_qr signs_nothing sample_http (lit "ab12cd") sample_token
              gallery_world w' event joinUrl qr views Hrun)
    as (Hauth & _ & _ & Hjoin & _).
  exists event, joinUrl, qr, views, w'. split; [exact Hrun|].
  split; [exact Hauth | exact Hjoin].
Defined.

Lemma download_route_authorized_witness :
  exists r w' event,
    download_route (H := ascii_runtime) local_cfg no_faults reads_fine (lit "ab12cd")
      sample_token gallery_world = (inr r, w')
    /\ disclosed r = Some (lit "Dugun-ab12cd.zip", [])
    /\ authorized local_cfg gallery_world (lit "ab12cd") sample_token event.
Proof.
  assert (Hrun : exists r w',
            download_route (H := ascii_runtime) local_cfg no_faults reads_fine
              (lit "ab12cd") sample_token gallery_world = (inr r, w')
            /\ disclosed r = Some (lit "Dugun-ab12cd.zip", [])).
  { vm_compute. eexists _, _. split; reflexivity. }
  destruct Hrun as (r & w' & Hrun & Hd).
  destruct (download_route_authorized (H := ascii_runtime) local_cfg no_faults
              reads_fine (lit "ab12cd") sample_token gallery_world w' r _ _ Hrun Hd)
    as (event & listed & Hauth & _).
  exists r, w', event. split; [exact Hrun|]. split; [exact Hd | exact Hauth].
Defined.

Lemma file_route_authorized_witness :
  exists w',
    file_route local_cfg no_faults (lit "ab12cd") (lit "photos/..") sample_token
      gallery_world
    = (inr (FileServed (lit "/srv/app/uploads")), w')
    /\ existsSync (disk gallery_world) (lit "/srv/app/uploads") = true.
Proof.
  assert (Hrun : exists w',
            file_route local_cfg no_faults (lit "ab12cd") (lit "photos/..") sample_token
              gallery_world
            = (inr (FileServed (lit "/srv/app/uploads")), w')).
  { vm_compute. eexists. reflexivity. }
  destruct Hrun as (w' & Hrun).
  destruct (file_route_authorized local_cfg no_faults (lit "ab12cd") (lit "photos/..")
              sample_token gallery_world w' (lit "/srv/app/uploads") Hrun)
    as (_ & _ & _ & _ & Hex & _).
  exists w'. split; [exact Hrun | exact Hex].
Defined.

Lemma created_route_authorized_witness :
  exists event joinUrl adminUrl qrDataUrl token w',
    created_route remote_cfg no_faults (Some (lit "https://dugun.example/")) sample_qr
      sample_http (lit "ab12cd") sample_token sample_world
    = (inr (CreatedPage event joinUrl adminUrl qrDataUrl token), w')
    /\ adminUrl
       = getBaseUrl (Some (lit "https://dugun.example/")) sample_http
           ++ lit "/admin/" ++ lit "ab12cd" ++ lit "?token=" ++ adminToken event.
Proof.
  assert (Hrun : exists event joinUrl adminUrl qrDataUrl token w',
            created_route remote_cfg no_faults (Some (lit "https://dugun.example/"))
              sample_qr sample_http (lit "ab12cd") sample_token sample_world
            = (inr (CreatedPage event joinUrl adminUrl qrDataUrl token), w')).
  { vm_compute. eexists _, _, _, _, _, _. reflexivity. }
  destruct Hrun as (event & joinUrl & adminUrl & qr & token & w' & Hrun).
  destruct (created_route_authorized remote_cfg no_faults
              (Some (lit "https://dugun.example/")) sample_qr sample_http
              (lit "ab12cd") sample_token sample_world w' event joinUrl adminUrl qr
              token Hrun) as (_ & _ & _ & Hadmin & _).
  exists event, joinUrl, adminUrl, qr, token, w'. split; [exact Hrun | exact Hadmin].
Defined.

Lemma listUploadsForEvent_selects_witness :
  exists listed w',
    listUploadsForEvent (H := ascii_runtime) local_cfg no_faults (lit "ab12cd")
      gallery_world = (inr listed, w')
    /\ listed ≡ₚ selected_uploads local_cfg gallery_world (lit "ab12cd").
Proof.
  assert (Hrun : exists listed w',
            listUploadsForEvent (H := ascii_runtime) local_cfg no_faults (lit "ab12cd")
              gallery_world = (inr listed, w')).
  { vm_compute. eexists _, _. reflexivity. }
  destruct Hrun as (listed & w' & Hrun).
  destruct (listUploadsForEvent_selects (H := ascii_runtime) local_cfg no_faults
              (lit "ab12cd") gallery_world w' listed Hrun) as (Hperm & _).
  exists listed, w'. split; [exact Hrun | exact Hperm].
Defined.

(** ** Start-up of the local backend *)

Section BootstrapFacts.
Context (cfg : config).

(** X18: [bootstrapLocal] never replaces a database file that is there,
    readable or not, and whether it succeeds or fails the events and
    upload records, the stored files and the remote side are as before
    and no directory is lost.  It fails in three ways only: the data
    directory cannot be created, and then nothing was touched; the
    uploads directory cannot be created, with the database file as it
    was; or there is no database file and the empty one cannot be
    written, which leaves no file or, when the write failed after the
    file was opened, a file without content.  When it succeeds both
    directories and a database file exist, the file is the empty
    database if there was none, and running it again changes nothing. *)
Theorem bootstrapLocal_keeps_database (DATA_DIR : jsstring)
    (mkdir_error : jsstring -> option thrown) (w : world) :
  exists r w',
    bootstrapLocal cfg DATA_DIR mkdir_error w = (r, w')
    /\ metadata_of w' = metadata_of w
    /\ files (disk w') = files (disk w)
    /\ cloud w' = cloud w
    /\ (forall dir, dir ∈ directories (disk w) -> dir ∈ directories (disk w'))
    /\ (is_Some (db_file (disk w)) -> db_file (disk w') = db_file (disk w))
    /\ (mkdir_error DATA_DIR = None -> mkdir_error (UPLOADS_DIR cfg) = None ->
        is_Some (db_file (disk w)) -> r = inr tt)
    /\ match r with
       | inr _ =>
           mkdir_error DATA_DIR = None
           /\ mkdir_error (UPLOADS_DIR cfg) = None
           /\ DATA_DIR ∈ directories (disk w')
           /\ UPLOADS_DIR cfg ∈ directories (disk w')
           /\ is_Some (db_file (disk w'))
           /\ (db_file (disk w) = None -> db_file (disk w') = Some (Stored emptyDb))
           /\ bootstrapLocal cfg DATA_DIR mkdir_error w' = (inr tt, w')
       | inl e =>
           (mkdir_error DATA_DIR = Some e /\ w' = w)
           \/ (mkdir_error DATA_DIR = None
               /\ mkdir_error (UPLOADS_DIR cfg) = Some e
               /\ DATA_DIR ∈ directories (disk w')
               /\ db_file (disk w') = db_file (disk w))
           \/ (mkdir_error DATA_DIR = None
               /\ mkdir_error (UPLOADS_DIR cfg) = None
               /\ db_file (disk w) = None
               /\ exists failure,
                    db_write_error (disk w) = Some failure
                    /\ e = ErrorInstance (write_message failure)
                    /\ db_file (disk w')
                       = if file_opened failure then Some Unparseable else None)
       end.
Proof.
  assert (Hidem : forall dirs : gset jsstring,
            {[ UPLOADS_DIR cfg ]} ∪ ({[ DATA_DIR ]}
              ∪ ({[ UPLOADS_DIR cfg ]} ∪ ({[ DATA_DIR ]} ∪ dirs)))
            = {[ UPLOADS_DIR cfg ]} ∪ ({[ DATA_DIR ]} ∪ dirs))
    by (intros dirs; apply set_eq; intros x; set_unfold; tauto).
  assert (Hmeta : forall w' : world,
            cloud w' = cloud w ->
            (db_file (disk w') = db_file (disk w)
             \/ (db_file (disk w) = None
                 /\ (db_file (disk w') = Some Unparseable
                     \/ db_file (disk w') = Some (Stored emptyDb)))) ->
            metadata_of w' = metadata_of w).
  { intros w' Hc Hf. unfold metadata_of, stored_events, stored_uploads. rewrite Hc.
    destruct Hf as [-> | (-> & [-> | ->])]; reflexivity. }
  unfold bootstrapLocal, mkdir_or_throw.
  destruct (mkdir_error DATA_DIR) as [e1|] eqn:H1.
  { exists (inl e1), w. split; [reflexivity|]. split; [reflexivity|].
    split; [reflexivity|]. split; [reflexivity|]. split; [auto|]. split; [auto|].
    split; [discriminate|]. left. auto. }
  unfold bind at 1. cbn [mkdirSync].
  destruct (mkdir_error (UPLOADS_DIR cfg)) as [e2|] eqn:H2.
  { eexists (inl e2), _. split; [reflexivity|].
    split; [apply Hmeta; [reflexivity | left; reflexivity]|].
    split; [reflexivity|]. split; [reflexivity|].
    cbn [disk directories db_file].
    split; [intros dir Hdir; set_unfold; tauto|]. split; [auto|].
    split; [discriminate|]. right. left.
    split; [reflexivity|]. split; [reflexivity|].
    split; [set_unfold; tauto | reflexivity]. }
  unfold bind. cbn [mkdirSync disk db_file].
  destruct (db_file (disk w)) as [content|] eqn:Hfile.
  - eexists (inr tt), _. split; [reflexivity|].
    split; [apply Hmeta; [reflexivity | left; reflexivity]|].
    split; [reflexivity|]. split; [reflexivity|].
    cbn [disk directories db_file db_write_error files cloud log].
    split; [intros dir Hdir; set_unfold; tauto|]. split; [auto|].
    split; [auto|].
    split; [reflexivity|]. split; [reflexivity|].
    split; [set_unfold; tauto|]. split; [set_unfold; tauto|].
    split; [eauto|]. split; [discriminate|].
    rewrite Hidem. reflexivity.
  - unfold writeLocalDb. cbn [disk db_write_error].
    destruct (db_write_error (disk w)) as [failure|] eqn:Hwrite.
    + eexists (inl _), _. split; [reflexivity|].
      split.
      { apply Hmeta; [destruct (file_opened failure); reflexivity|].
        destruct (file_opened failure);
          [right; split; [reflexivity | left; reflexivity] | left; reflexivity]. }
      split; [destruct (file_opened failure); reflexivity|].
      split; [destruct (file_opened failure); reflexivity|].
      split.
      { intros dir Hdir. destruct (file_opened failure);
          cbn [disk directories]; set_unfold; tauto. }
      split; [intros [x Hx]; discriminate|].
      split; [intros _ _ [x Hx]; discriminate|].
      right. right. split; [reflexivity|]. split; [reflexivity|].
      split; [reflexivity|]. exists failure. split; [reflexivity|].
      split; [reflexivity|].
      destruct (file_opened failure); cbn [disk db_file]; auto.
    + eexists (inr tt), _. split; [reflexivity|].
      split; [apply Hmeta; [reflexivity | right; split; [reflexivity | right; reflexivity]]|].
      split; [reflexivity|]. split; [reflexivity|].
      cbn [disk directories db_file db_write_error files cloud log].
      split; [intros dir Hdir; set_unfold; tauto|].
      split; [intros [x Hx]; discriminate|].
      split; [auto|].
      split; [reflexivity|]. split; [reflexivity|].
      split; [set_unfold; tauto|]. split; [set_unfold; tauto|].
      split; [eauto|]. split; [reflexivity|].
      rewrite Hidem. reflexivity.
Qed.

End BootstrapFacts.

(** ** Binary storage after an upload *)

Section RemoteTrace.
Context (cfg : config) (net : supabase_faults).

Lemma upload_files_trace eventId guestName' uploadedAt' rnd files :
  forall index created records w,
    exists new records' err w',
      upload_files net eventId guestName' uploadedAt' rnd index files created records w
      = (inr (created ++ new, records', err), w')
      /\ disk w' = disk w
      /\ sb_events (cloud w') = sb_events (cloud w)
      /\ sb_uploads (cloud w') = sb_uploads (cloud w)
      /\ log w' = log w ++ map Wrote new
      /\ NoDup new
      /\ (forall k, k ∈ new -> sb_bucket (cloud w) !! k = None)
      /\ (forall k, k ∉ new -> sb_bucket (cloud w') !! k = sb_bucket (cloud w) !! k)
      /\ (err = None ->
          new = remote_keys eventId rnd index (map originalname files)
          /\ records' = records
                        ++ remote_records eventId guestName' uploadedAt' rnd index files
          /\ forall i file,
               files !! i = Some file ->
               sb_bucket (cloud w') !! remote_key eventId rnd (index + i) (originalname file)
               = Some {| contentType := mimetype file;
                         body := default [] (buffer file) |}).
Proof.
  induction files as [|file rest IH]; intros index created records w.
  - exists [], records, None, w. cbn [upload_files ret map]. rewrite !app_nil_r.
    split; [reflexivity|]. repeat split; auto.
    all: solve [ constructor
               | intros k Hk; inversion Hk
               | cbn; rewrite ?app_nil_r; reflexivity
               | intros i file Hi; discriminate ].
  - cbn [upload_files remote_records map remote_keys].
    fold (remote_key eventId rnd index (originalname file)).
    set (key := remote_key eventId rnd index (originalname file)).
    unfold bind at 1, storage_upload.
    assert (Hstop : forall e : thrown,
      exists new records' err w',
        (inr (created, records, Some e), w)
        = (inr (created ++ new, records', err) : thrown + _, w')
        /\ disk w' = disk w
        /\ sb_events (cloud w') = sb_events (cloud w)
        /\ sb_uploads (cloud w') = sb_uploads (cloud w)
        /\ log w' = log w ++ map Wrote new
        /\ NoDup new
        /\ (forall k, k ∈ new -> sb_bucket (cloud w) !! k = None)
        /\ (forall k, k ∉ new -> sb_bucket (cloud w') !! k = sb_bucket (cloud w) !! k)
        /\ (err = None ->
            new = key :: remote_keys eventId rnd (S index) (map originalname rest)
            /\ records'
               = records
                 ++ {| up_id := randomUUID (id_bits (rnd index));
                       eventId := eventId;
                       guestName := guestName';
                       originalName := Some (originalname file);
                       storagePath := Some key;
                       storedName := None;
                       mimeType := Some (mimetype file);
                       byteSize := fsize file;
                       uploadedAt := uploadedAt' |}
                    :: remote_records eventId guestName' uploadedAt' rnd (S index) rest
            /\ forall i file0,
                 (file :: rest) !! i = Some file0 ->
                 sb_bucket (cloud w') !! remote_key eventId rnd (index + i)
                                          (originalname file0)
                 = Some {| contentType := mimetype file0;
                           body := default [] (buffer file0) |})).
    { intros e. exists [], records, (Some e), w. rewrite !app_nil_r.
      split; [reflexivity|]. repeat split; auto; try discriminate.
      all: solve [ constructor | intros k Hk; inversion Hk ]. }
    destruct (storage_upload_error net key) as [e|]; [apply Hstop|].
    destruct (sb_bucket (cloud w) !! key) eqn:Hfresh; [apply Hstop|].
    cbn [ret]. clear Hstop.
    match goal with
    | |- context [upload_files _ _ _ _ _ _ _ ?c ?r ?w1] =>
        destruct (IH (S index) c r w1)
          as (new & records' & err & w' & Hrun & Hdisk & Hev & Hup & Hlog & Hnd
              & Hnone & Hother & Hok)
    end.
    cbn [disk cloud sb_events sb_uploads sb_bucket log] in *.
    rewrite Hrun. exists (key :: new), records', err, w'.
    rewrite <- app_assoc. split; [reflexivity|].
    split; [exact Hdisk|]. split; [exact Hev|]. split; [exact Hup|].
    assert (Hkey : key ∉ new).
    { intros Hin. specialize (Hnone key Hin). rewrite lookup_insert_eq in Hnone.
      discriminate. }
    split; [rewrite Hlog, <- app_assoc; reflexivity|].
    split; [constructor; assumption|].
    split.
    { intros k Hk. apply elem_of_cons in Hk as [->|Hk]; [exact Hfresh|].
      specialize (Hnone k Hk). rewrite lookup_insert_ne in Hnone; [exact Hnone|].
      intros ->. contradiction. }
    split.
    { intros k Hk. apply not_elem_of_cons in Hk as [Hne Hk].
      rewrite (Hother k Hk). apply lookup_insert_ne. congruence. }
    intros Herr. destruct (Hok Herr) as (-> & -> & Hcontent).
    split; [reflexivity|]. split; [rewrite <- app_assoc; reflexivity|].
    intros [|i] file0 Hi.
    + injection Hi as <-. rewrite Nat.add_0_r. fold key.
      rewrite (Hother key Hkey). apply lookup_insert_eq.
    + cbn in Hi. replace (index + S i)%nat with (S index + i)%nat by lia.
      apply Hcontent, Hi.
Qed.

Lemma after_multer_remote_trace id guest now rnd files w :
  USING_SUPABASE cfg = true ->
  files <> [] ->
  exists resp w' new,
    after_multer cfg net id guest now rnd (inr files) w = (inr resp, w')
    /\ disk w' = disk w
    /\ sb_events (cloud w') = sb_events (cloud w)
    /\ NoDup new
    /\ (forall k, k ∈ new -> sb_bucket (cloud w) !! k = None)
    /\ ((status resp = 201%nat
         /\ new = remote_keys id rnd 0 (map originalname files)
         /\ log w' = log w ++ map Wrote new
         /\ (forall k, k ∉ new -> sb_bucket (cloud w') !! k = sb_bucket (cloud w) !! k)
         /\ forall i file,
              files !! i = Some file ->
              sb_bucket (cloud w') !! remote_key id rnd i (originalname file)
              = Some {| contentType := mimetype file;
                        body := default [] (buffer file) |})
        \/ (status resp = 500%nat
            /\ sb_uploads (cloud w') = sb_uploads (cloud w)
            /\ log w' = log w ++ map Wrote new ++ map (removal_event net) new
            /\ forall k,
                 (k ∈ new -> storage_remove_fails net k = false) ->
                 sb_bucket (cloud w') !! k = sb_bucket (cloud w) !! k)).
Proof.
  intros Hmode Hne. destruct files as [|file rest]; [contradiction|].
  cbn [after_multer]. set (files := file :: rest).
  unfold bind at 1, write_and_commit. rewrite Hmode. unfold bind at 1.
  destruct (upload_files_trace id (sanitizeText guest 80) now rnd files 0 [] [] w)
    as (new & records & err & w1 & -> & Hdisk & Hev & Hup & Hlog & Hnd & Hnone
        & Hother & Hok).
  cbn [app].
  assert (Hfail : forall (error : thrown) w2,
    disk w2 = disk w1 -> cloud w2 = cloud w1 -> log w2 = log w1 ->
    exists resp w',
      (do! (if true && negb (bool_decide (new = []))
            then remove_all net new else ret tt) in
       ret {| status := 500; json := JsonError (error_message error) |}) w2
      = (inr resp, w')
      /\ disk w' = disk w
      /\ sb_events (cloud w') = sb_events (cloud w)
      /\ status resp = 500%nat
      /\ sb_uploads (cloud w') = sb_uploads (cloud w)
      /\ log w' = log w ++ map Wrote new ++ map (removal_event net) new
      /\ forall k,
           (k ∈ new -> storage_remove_fails net k = false) ->
           sb_bucket (cloud w') !! k = sb_bucket (cloud w) !! k).
  { intros error w2 Hd2 Hc2 Hl2. unfold bind. cbn [andb].
    case_bool_decide as Hnew; cbn [negb ret].
    - subst new. eexists _, _. split; [reflexivity|].
      split; [congruence|]. split; [congruence|]. split; [reflexivity|].
      split; [congruence|]. split; [cbn [map]; rewrite Hl2, Hlog; reflexivity|].
      intros k _. rewrite Hc2. apply Hother. intros Hk. inversion Hk.
    - destruct (remove_all_spec net new w2)
        as (w3 & -> & Hd3 & He3 & Hu3 & Hl3 & Hn3 & Hgone & Hrest).
      eexists _, _. split; [reflexivity|].
      split; [congruence|]. split; [congruence|]. split; [reflexivity|].
      split; [congruence|].
      split; [rewrite Hl3, Hl2, Hlog, <- app_assoc; reflexivity|].
      intros k Hk. destruct (decide (k ∈ new)) as [Hin|Hout].
      + rewrite (Hgone k Hin (Hk Hin)). symmetry. apply Hnone, Hin.
      + rewrite (Hrest k Hout), Hc2. apply Hother, Hout. }
  destruct err as [error|].
  - cbn [ret].
    destruct (Hfail error w1 eq_refl eq_refl eq_refl)
      as (resp & w' & -> & Hd & He & Hst & Hu & Hl & Hb).
    exists resp, w', new. split; [reflexivity|]. split; [exact Hd|].
    split; [exact He|]. split; [exact Hnd|]. split; [exact Hnone|].
    right. auto.
  - destruct (Hok eq_refl) as (Hnew & -> & Hcontent). cbn [app].
    unfold bind at 1, caught, try_catch. unfold bind at 1.
    rewrite insert_remote by (exact Hmode || (subst files; discriminate)).
    destruct (insert_uploads_error net) as [error|]; cbn [ret].
    + destruct (Hfail error w1 eq_refl eq_refl eq_refl)
        as (resp & w' & -> & Hd & He & Hst & Hu & Hl & Hb).
      exists resp, w', new. split; [reflexivity|]. split; [exact Hd|].
      split; [exact He|]. split; [exact Hnd|]. split; [exact Hnone|].
      right. auto.
    + eexists _, _, new. split; [reflexivity|]. cbn [disk cloud sb_events sb_bucket log].
      split; [exact Hdisk|]. split; [exact Hev|]. split; [exact Hnd|].
      split; [exact Hnone|]. left. split; [reflexivity|]. split; [exact Hnew|].
      split; [exact Hlog|]. split; [exact Hother|]. exact Hcontent.
Qed.

Lemma after_multer_remote_timestamptz id guest now rnd files w :
  USING_SUPABASE cfg = true ->
  sb_timestamptz (cloud (snd (after_multer cfg net id guest now rnd (inr files) w)))
  = sb_timestamptz (cloud w).
Proof.
  intros Hmode. destruct files as [|file rest]; [reflexivity|].
  cbn [after_multer]. unfold write_and_commit. rewrite Hmode.
  unfold bind at 1. unfold bind at 1.
  pose proof (upload_files_timestamptz net id (sanitizeText guest 80) now rnd
                (file :: rest) 0 [] [] w) as Hup.
  destruct (upload_files net id (sanitizeText guest 80) now rnd 0 (file :: rest) [] [] w)
    as [[e|[[created records] err]] w1]; cbn [snd] in Hup; [exact Hup|].
  assert (Hrm : forall (error : thrown) w2,
            sb_timestamptz (cloud w2) = sb_timestamptz (cloud w) ->
            sb_timestamptz
              (cloud (snd ((do! (if true && negb (bool_decide (created = []))
                                 then remove_all net created else ret tt) in
                            ret {| status := 500;
                                   json := JsonError (error_message error) |}) w2)))
            = sb_timestamptz (cloud w)).
  { intros error w2 H2. unfold bind.
    destruct (true && negb (bool_decide (created = []))); [|exact H2].
    pose proof (remove_all_timestamptz net created w2) as H3.
    destruct (remove_all net created w2) as [[e|[]] w3]; unfold ret; cbn [snd] in *;
      congruence. }
  destruct err as [error|]; [apply Hrm, Hup|].
  unfold bind at 1, caught, try_catch. unfold bind at 1.
  unfold insertUploadRecords. rewrite Hmode.
  destruct records as [|record records]; cbn [ret]; [exact Hup|].
  destruct (insert_uploads_error net) as [error|]; cbn [ret]; [apply Hrm, Hup | exact Hup].
Qed.

(** X19: in remote mode a request that is not answered with 201 leaves
    no stored object behind where removal works.  The disk and the two
    tables are untouched; the log shows the keys the request wrote, each
    once, followed by one removal call for each of them in the same
    order; every key whose removal does not fail is in the bucket exactly
    what it was before, and when no removal fails the whole remote side
    is as before. *)
Theorem remote_failure_leaves_no_object (req : upload_request) (now : jsstring)
    (rnd : nat -> entropy) (w w' : world) (resp : response) :
  USING_SUPABASE cfg = true ->
  upload_route cfg net req now rnd w = (inr resp, w') ->
  status resp <> 201%nat ->
  disk w' = disk w
  /\ sb_events (cloud w') = sb_events (cloud w)
  /\ sb_uploads (cloud w') = sb_uploads (cloud w)
  /\ exists new,
       NoDup new
       /\ log w' = log w ++ map Wrote new ++ map (removal_event net) new
       /\ (forall k, (k ∈ new -> storage_remove_fails net k = false) ->
                     sb_bucket (cloud w') !! k = sb_bucket (cloud w) !! k)
       /\ ((forall k, k ∈ new -> storage_remove_fails net k = false) ->
           cloud w' = cloud w).
Proof.
  intros Hmode Hrun Hst.
  assert (Hsame : forall resp0,
            (inr resp0 : thrown + response, w) = (inr resp, w') ->
            disk w' = disk w
            /\ sb_events (cloud w') = sb_events (cloud w)
            /\ sb_uploads (cloud w') = sb_uploads (cloud w)
            /\ exists new,
                 NoDup new
                 /\ log w' = log w ++ map Wrote new ++ map (removal_event net) new
                 /\ (forall k, (k ∈ new -> storage_remove_fails net k = false) ->
                               sb_bucket (cloud w') !! k = sb_bucket (cloud w) !! k)
                 /\ ((forall k, k ∈ new -> storage_remove_fails net k = false) ->
                     cloud w' = cloud w)).
  { intros resp0 Heq. injection Heq as _ <-. repeat split.
    exists []. cbn [map app]. rewrite app_nil_r. repeat split; auto. constructor. }
  unfold upload_route, try_catch in Hrun. unfold bind at 1 in Hrun.
  unfold findEventById in Hrun. rewrite Hmode in Hrun.
  destruct (select_event_error net); [apply (Hsame _ Hrun)|].
  destruct (List.find _ _) as [event|]; [|apply (Hsame _ Hrun)].
  unfold bind in Hrun.
  destruct (multer_memory_world cfg (param_eventId req) rnd (body_late req)
              (body_files req) 0 [] w)
    as (parsed & Hm).
  rewrite Hm in Hrun. destruct parsed as [err|[|file rest]];
    [apply (Hsame _ Hrun) | apply (Hsame _ Hrun) |].
  destruct (after_multer_remote_trace (param_eventId req) (body_guestName req) now rnd
              (file :: rest) w Hmode) as (resp1 & w1 & new & Ham & Hd & He & Hnd & Hnone & Hcase);
    [discriminate|].
  pose proof (after_multer_remote_timestamptz (param_eventId req) (body_guestName req)
                now rnd (file :: rest) w Hmode) as Htz.
  rewrite Ham in Hrun, Htz. cbn [snd] in Htz. injection Hrun as <- <-.
  destruct Hcase as [(H201 & _) | (_ & Hu & Hl & Hb)]; [contradiction|].
  split; [exact Hd|]. split; [exact He|]. split; [exact Hu|].
  exists new. split; [exact Hnd|]. split; [exact Hl|]. split; [exact Hb|].
  intros Hall.
  destruct (cloud w1) as [e1 u1 b1 t1] eqn:Hc1, (cloud w) as [e0 u0 b0 t0] eqn:Hc0.
  cbn [sb_events sb_uploads sb_bucket sb_timestamptz] in *. subst e1 u1 t1. f_equal.
  apply map_eq. intros k. apply Hb. intros Hk. apply Hall, Hk.
Qed.

Lemma findEventById_storage id w r w1 :
  findEventById cfg net id w = (r, w1) ->
  files (disk w1) = files (disk w) /\ cloud w1 = cloud w.
Proof.
  unfold findEventById. destruct (USING_SUPABASE cfg).
  - destruct (select_event_error net); [|destruct (List.find _ _)];
      intros Hrun; injection Hrun as _ <-; auto.
  - unfold bind.
    destruct (readLocalDb_cases w)
      as [(failure & -> & _) | (w0 & -> & _ & _ & Hfiles & _ & Hcloud & _)];
      intros Hrun; injection Hrun as _ <-; auto.
    destruct (after_failed_write_facts failure w) as (_ & Hf & _ & Hc & _). auto.
Qed.

Lemma insertUploadRecords_storage records w r w1 :
  insertUploadRecords cfg net records w = (r, w1) ->
  files (disk w1) = files (disk w) /\ sb_bucket (cloud w1) = sb_bucket (cloud w).
Proof.
  unfold insertUploadRecords. destruct records as [|record rest].
  { intros Hrun. injection Hrun as _ <-. auto. }
  destruct (USING_SUPABASE cfg).
  - destruct (insert_uploads_error net); intros Hrun; injection Hrun as _ <-; auto.
  - unfold bind.
    destruct (readLocalDb_cases w)
      as [(failure & -> & _) | (w0 & -> & _ & _ & Hfiles & _ & Hcloud & _)].
    + intros Hrun. injection Hrun as _ <-.
      destruct (after_failed_write_facts failure w) as (_ & Hf & _ & Hc & _).
      rewrite Hf, Hc. auto.
    + unfold writeLocalDb. destruct (db_write_error (disk w0)) as [[msg []]|];
        intros Hrun; injection Hrun as _ <-; cbn [disk files cloud];
        rewrite Hcloud; auto.
Qed.

Lemma after_multer_local_files id guest now rnd parsed w resp w' :
  USING_SUPABASE cfg = false ->
  after_multer cfg net id guest now rnd (inr parsed) w = (inr resp, w') ->
  files (disk w') = files (disk w).
Proof.
  intros Hmode. destruct parsed as [|file rest]; cbn [after_multer].
  { intros Hrun. injection Hrun as _ <-. reflexivity. }
  unfold bind at 1, write_and_commit. rewrite Hmode.
  unfold bind at 1, caught, try_catch. unfold bind at 1.
  destruct (insertUploadRecords cfg net _ w) as [[error|[]] w1] eqn:Hins;
    apply insertUploadRecords_storage in Hins as [Hfiles _]; cbn [ret];
    unfold bind; cbn [andb ret]; intros Hrun; injection Hrun as _ <-; exact Hfiles.
Qed.

Lemma multer_disk_content id rnd late parts :
  Forall (fun file => refused_file cfg file = false) parts ->
  forall index uploaded w,
    (index + length parts <= MAX_FILES_PER_REQUEST cfg)%nat ->
    NoDup (disk_paths cfg id rnd index parts) ->
    exists w',
      uploadLocal cfg id rnd late index parts uploaded w
      = (inr (inr (rev uploaded ++ disk_files cfg id rnd index parts)), w')
      /\ (forall q, q ∉ disk_paths cfg id rnd index parts ->
            files (disk w') !! q = files (disk w) !! q)
      /\ forall i part,
           parts !! i = Some part ->
           files (disk w')
             !! Path.join [Path.join [UPLOADS_DIR cfg; id];
                           generated_name (rnd (index + i)%nat) (in_originalname part)]
           = Some (in_data part).
Proof.
  unfold uploadLocal, disk_paths.
  induction 1 as [|file rest Hfile _ IH]; intros index uploaded w Hmax Hnd.
  - exists w. cbn. rewrite app_nil_r. split; [reflexivity|]. split; [auto|].
    intros i part Hi. discriminate.
  - destruct (accepted_file_valid cfg file Hfile) as [Htype Hsize].
    cbn [multer_array length disk_files] in *.
    destruct (Nat.leb_spec (MAX_FILES_PER_REQUEST cfg) index) as [Hle|_]; [lia|].
    unfold fileFilter. rewrite Htype. cbn [negb].
    unfold bind at 1. rewrite handleFile_disk_run.
    rewrite Hsize.
    rewrite (below_limit_whole cfg _ Hsize).
    set (p := Path.join [Path.join [UPLOADS_DIR cfg; id];
                         generated_name (rnd index) (in_originalname file)]) in *.
    assert (Hinfo : disk_file cfg id rnd index file
                    = {| originalname := in_originalname file;
                         mimetype := in_mimetype file;
                         fsize := N.of_nat (length (in_data file));
                         filename := Some (generated_name (rnd index)
                                             (in_originalname file));
                         fpath := Some p;
                         buffer := None |}).
    { unfold disk_file. rewrite (below_limit_whole cfg _ Hsize). reflexivity. }
    rewrite <- Hinfo.
    assert (Hpaths : omap fpath (disk_file cfg id rnd index file
                                 :: disk_files cfg id rnd (S index) rest)
                     = p :: omap fpath (disk_files cfg id rnd (S index) rest)).
    { rewrite Hinfo. reflexivity. }
    rewrite Hpaths in *.
    apply NoDup_cons in Hnd as [Hfresh Hnd].
    match goal with
    | |- context [multer_array _ _ _ _ _ _ _ _ ?w1] =>
        destruct (IH (S index) (disk_file cfg id rnd index file :: uploaded) w1)
          as (w' & Hrun & Hother & Hcontent); [lia | exact Hnd |]
    end.
    rewrite Hrun. exists w'. cbn [rev]. rewrite <- app_assoc.
    split; [reflexivity|]. cbn [disk files] in Hother.
    split.
    + intros q Hq. apply not_elem_of_cons in Hq as [Hne Hq].
      rewrite (Hother q Hq). apply lookup_insert_ne. congruence.
    + intros [|i] part Hi.
      * injection Hi as <-. rewrite Nat.add_0_r. fold p. rewrite (Hother _ Hfresh).
        apply lookup_insert_eq.
      * cbn in Hi. replace (index + S i)%nat with (S index + i)%nat by lia.
        apply Hcontent, Hi.
Qed.

(** X20: after a request that was answered with 201 the bytes of every
    file of the batch are stored under the generated name, whole and
    unchanged: in remote mode as the object under the event's identifier,
    a slash and the generated name, with the declared content type; in
    local mode as the file of that name in the event's directory,
    provided the generated names of the batch differ from each other. *)
Theorem accepted_upload_stores_bytes (req : upload_request) (now : jsstring)
    (rnd : nat -> entropy) (w w' : world) (resp : response) :
  upload_route cfg net req now rnd w = (inr resp, w') ->
  status resp = 201%nat ->
  (USING_SUPABASE cfg = false ->
   NoDup (disk_paths cfg (param_eventId req) rnd 0 (body_files req))) ->
  forall i part,
    body_files req !! i = Some part ->
    if USING_SUPABASE cfg then
      sb_bucket (cloud w')
        !! remote_key (param_eventId req) rnd i (in_originalname part)
      = Some {| contentType := in_mimetype part; body := in_data part |}
    else
      files (disk w')
        !! Path.join [Path.join [UPLOADS_DIR cfg; param_eventId req];
                      generated_name (rnd i) (in_originalname part)]
      = Some (in_data part).
Proof.
  intros Hrun Hst Hnd i part Hi.
  unfold upload_route, try_catch in Hrun. unfold bind at 1 in Hrun.
  destruct (findEventById cfg net (param_eventId req) w) as [found w1] eqn:Hfind.
  apply findEventById_storage in Hfind as [Hfiles1 Hcloud1].
  destruct found as [error|[event|]]; cbn [ret] in Hrun;
    try (injection Hrun as <- _; discriminate Hst).
  unfold bind in Hrun.
  destruct (middleware_frame cfg (param_eventId req) rnd (body_late req)
              (body_files req) w1)
    as (parsed & w2 & Hmw & _ & Hparsed).
  destruct parsed as [err|accepted];
    [rewrite Hmw in Hrun; injection Hrun as <- _; discriminate Hst|].
  destruct Hparsed as (Hlen & Hcount & Hvalid).
  assert (Hne : accepted <> []).
  { intros ->. rewrite Hmw in Hrun. injection Hrun as <- _. discriminate Hst. }
  destruct (USING_SUPABASE cfg) eqn:Hmode.
  - rewrite (multer_memory_valid cfg (param_eventId req) rnd (body_late req)
               (body_files req) Hvalid)
      in Hmw by (cbn; lia).
    injection Hmw as <- <-. cbn [rev app] in *.
    rewrite (multer_memory_valid cfg (param_eventId req) rnd (body_late req)
               (body_files req) Hvalid)
      in Hrun by (cbn; lia).
    cbn [rev app] in Hrun.
    destruct (after_multer_remote_trace (param_eventId req) (body_guestName req) now rnd
                (map (memory_file cfg) (body_files req)) w1 Hmode Hne)
      as (resp1 & w3 & new & Ham & _ & _ & _ & _ & Hcase).
    rewrite Ham in Hrun. injection Hrun as <- <-.
    destruct Hcase as [(_ & _ & _ & _ & Hcontent) | (H500 & _)];
      [|rewrite H500 in Hst; discriminate].
    specialize (Hcontent i (memory_file cfg part)).
    rewrite list_lookup_fmap, Hi in Hcontent. specialize (Hcontent eq_refl).
    cbn [memory_file originalname mimetype buffer default] in Hcontent.
    rewrite Hcontent. do 2 f_equal. apply below_limit_whole.
    rewrite Forall_forall in Hvalid.
    apply (accepted_file_valid cfg part), Hvalid.
    eapply list_elem_of_lookup_2, Hi.
  - specialize (Hnd eq_refl).
    destruct (multer_disk_content (param_eventId req) rnd (body_late req)
                (body_files req) Hvalid 0 [] w1)
      as (w2' & Hmd & _ & Hcontent); [cbn; lia | exact Hnd |].
    rewrite Hmd in Hmw. injection Hmw as <- <-. rewrite Hmd in Hrun.
    cbn [rev app] in Hrun.
    destruct (after_multer cfg net _ _ _ _ _ w2') as [[error|resp1] w3] eqn:Ham;
      [cbn [ret] in Hrun; injection Hrun as <- _; discriminate Hst|].
    injection Hrun as <- <-.
    rewrite (after_multer_local_files _ _ _ _ _ _ _ _ Hmode Ham).
    apply (Hcontent i part Hi).
Qed.

End RemoteTrace.

Lemma remote_failure_leaves_no_object_witness :
  exists resp w',
    upload_route remote_cfg second_write_rejected (sample_request [png_file; png_file])
      sample_time sample_rnd sample_world = (inr resp, w')
    /\ status resp = 500%nat
    /\ cloud w' = cloud sample_world
    /\ log w' = [Wrote sample_key; Removed sample_key].
Proof.
  assert (Hrun : exists resp w',
            upload_route remote_cfg second_write_rejected
              (sample_request [png_file; png_file]) sample_time sample_rnd sample_world
            = (inr resp, w')
            /\ status resp = 500%nat
            /\ log w' = [Wrote sample_key; Removed sample_key]).
  { vm_compute. eexists _, _. repeat split; reflexivity. }
  destruct Hrun as (resp & w' & Hrun & Hst & Hlog).
  destruct (remote_failure_leaves_no_object remote_cfg second_write_rejected
              (sample_request [png_file; png_file]) sample_time sample_rnd
              sample_world w' resp eq_refl Hrun)
    as (_ & _ & _ & new & _ & _ & _ & Hcloud).
  { rewrite Hst. discriminate. }
  exists resp, w'. split; [exact Hrun|]. split; [exact Hst|].
  split; [apply Hcloud; reflexivity | exact Hlog].
Defined.

Lemma accepted_upload_stores_bytes_witness :
  exists resp w',
    upload_route local_cfg no_faults (sample_request [png_file]) sample_time sample_rnd
      sample_world = (inr resp, w')
    /\ status resp = 201%nat
    /\ files (disk w')
         !! Path.join [Path.join [UPLOADS_DIR local_cfg; lit "ab12cd"];
                       generated_name (sample_rnd 0%nat) (in_originalname png_file)]
       = Some (in_data png_file).
Proof.
  assert (Hrun : exists resp w',
            upload_route local_cfg no_faults (sample_request [png_file]) sample_time
              sample_rnd sample_world = (inr resp, w')
            /\ status resp = 201%nat).
  { vm_compute. eexists _, _. split; reflexivity. }
  destruct Hrun as (resp & w' & Hrun & Hst).
  exists resp, w'. split; [exact Hrun|]. split; [exact Hst|].
  assert (Hnd : USING_SUPABASE local_cfg = false ->
                NoDup (disk_paths local_cfg (lit "ab12cd") sample_rnd 0 [png_file])).
  { intros _. apply NoDup_singleton. }
  exact (accepted_upload_stores_bytes local_cfg no_faults (sample_request [png_file])
           sample_time sample_rnd sample_world w' resp Hrun Hst Hnd
           0%nat png_file eq_refl).
Defined.

(** ** Extensions and base URLs *)

(** X21: for a content type the upload filter accepts, one that starts
    with [image/] or [video/], [getExtensionFromMime] returns a string:
    the extension the table lists for that type, or the empty string.  No
    member inherited from [Object.prototype] is ever returned for it. *)
Theorem getExtensionFromMime_accepted (mime : jsstring) :
  validType mime = true ->
  exists ext,
    getExtensionFromMime (Some mime) = JSString ext
    /\ (ext = [] /\ own_property extensions mime = None
        \/ (mime, ext) ∈ extensions).
Proof.
  intros Hvalid. unfold getExtensionFromMime.
  change (default [] (Some mime)) with mime.
  destruct (own_property extensions mime) as [ext|] eqn:Hown.
  - exists ext. split; [reflexivity|]. right. revert Hown. unfold extensions.
    cbn [own_property].
    repeat (case_bool_decide;
            [intros Hown; injection Hown as <-; subst mime;
             repeat first [ apply list_elem_of_here
                          | apply list_elem_of_further ] |]).
    discriminate.
  - exists []. split; [|left; auto].
    assert (Hnone : inherited_property object_prototype_members mime = None).
    { unfold validType in Hvalid. apply orb_true_iff in Hvalid.
      unfold object_prototype_members. cbn [inherited_property].
      repeat (case_bool_decide;
              [exfalso; subst mime; destruct Hvalid as [Hv|Hv]; vm_compute in Hv;
               discriminate Hv |]).
      reflexivity. }
    rewrite Hnone. reflexivity.
Qed.

Lemma getExtensionFromMime_accepted_witness :
  exists ext,
    getExtensionFromMime (Some (lit "video/quicktime")) = JSString ext
    /\ (ext = [] /\ own_property extensions (lit "video/quicktime") = None
        \/ (lit "video/quicktime", ext) ∈ extensions).
Proof.
  apply (getExtensionFromMime_accepted (lit "video/quicktime")). reflexivity.
Defined.

Lemma strip_trailing_slash_spec s :
  (last s <> Some CHAR_FORWARD_SLASH /\ strip_trailing_slash s = s)
  \/ s = strip_trailing_slash s ++ [CHAR_FORWARD_SLASH].
Proof.
  induction s as [|c [|d r] IH].
  - left. split; [discriminate | reflexivity].
  - cbn [strip_trailing_slash]. destruct (N.eqb_spec c CHAR_FORWARD_SLASH) as [->|Hne].
    + right. reflexivity.
    + left. split; [cbn; congruence | reflexivity].
  - change (strip_trailing_slash (c :: d :: r)) with (c :: strip_trailing_slash (d :: r)).
    destruct IH as [[Hlast Heq]|Heq].
    + left. split; [exact Hlast | rewrite Heq; reflexivity].
    + right. rewrite Heq at 1. reflexivity.
Qed.

(** X22: when [BASE_URL] is set to a string that is not empty,
    [getBaseUrl] returns it without its last character if that is a
    slash and unchanged otherwise, whatever the request says; an empty
    [BASE_URL] counts as unset. *)
Theorem getBaseUrl_cases (BASE_URL : option jsstring) (req : http_request) :
  match BASE_URL with
  | Some (c :: s) =>
      (last (c :: s) <> Some CHAR_FORWARD_SLASH /\ getBaseUrl BASE_URL req = c :: s)
      \/ c :: s = getBaseUrl BASE_URL req ++ [CHAR_FORWARD_SLASH]
  | _ => getBaseUrl BASE_URL req = getBaseUrl None req
  end.
Proof.
  destruct BASE_URL as [[|c s]|]; cbn [getBaseUrl]; try reflexivity.
  apply strip_trailing_slash_spec.
Qed.
